(** * gsqsolve: the Genius Square solver, embedded and verified

    A shallow embedding of [gsqsolve.cpp].  A board position is one bit of a
    64-bit word ([board_bitmask_t]); a set of positions is a word, and all
    the program does with such sets is [&], [|], [^], [+] and [-].  Words are
    modelled as [Z] with the wrap-around of [std::uint64_t] written out where
    the program adds or subtracts.

    The [assert]s of the program are embedded as boolean predicates next to
    the functions that carry them, and are proved to hold on the inputs the
    program gives those functions.  [solve] is the search of [board::solve];
    [solve_asserting] is [board::solve] as written, the search and the
    [assert_consistent_()] call in front of its [return true], which boards
    without exactly seven blockers do trip. *)

From Stdlib Require Import ZArith List Bool Lia Ascii String Uint63.
Import ListNotations.
Local Open Scope Z_scope.

(** ** Words *)

Definition board_bitmask_t := Z.

(** Arithmetic of [std::uint64_t] and of [unsigned] is modulo a power of two. *)
Definition wrap64 (z : Z) : Z := z mod 2 ^ 64.
Definition to_unsigned (z : Z) : Z := z mod 2 ^ 32.

(** The board: the low 36 bits of a word. *)
Definition all_cells : Z := 0xFFFFFFFFF.

(** Number of set bits of a non-negative word. *)
Fixpoint Pos_popcount (p : positive) : nat :=
  match p with
  | xH => 1
  | xO q => Pos_popcount q
  | xI q => S (Pos_popcount q)
  end.

Definition popcount (z : Z) : nat :=
  match z with
  | Zpos p => Pos_popcount p
  | _ => 0
  end.

(** Every position of [a] is a position of [b]. *)
Definition subset (a b : Z) : Prop := Z.land a b = a.

(** ** Coordinate / bitmask codec *)

(** [sbit(unsigned row, unsigned col)]; the program asserts [row < 6] and
    [col < 6]. *)
Definition sbit (row col : Z) : board_bitmask_t := Z.shiftl 1 (row * 6 + col).

(** A [char const *] is modelled by the characters before its terminating
    NUL; reading at the terminator yields 0.  [char] is signed, as on the
    x86-64 ABI (the comparisons of [sbit_id] come out the same for an
    unsigned [char]: see [sbit_id_unsigned_char]). *)
Definition char_value (c : ascii) : Z :=
  let n := Z.of_N (N_of_ascii c) in if n <? 128 then n else n - 256.

Definition uchar_value (c : ascii) : Z := Z.of_N (N_of_ascii c).

Definition char_at (value : ascii -> Z) (id : string) (i : nat) : Z :=
  match String.get i id with
  | Some c => value c
  | None => 0
  end.

(** [sbit(char const *id)], for a given reading of [char]. *)
Definition sbit_id_with (value : ascii -> Z) (id : string) : board_bitmask_t :=
  let id0 := char_at value id 0 in
  let id1 := char_at value id 1 in
  let id2 := char_at value id 2 in
  if (((65 <=? id0) && (id0 <=? 70)) || ((97 <=? id0) && (id0 <=? 102)))
     && (49 <=? id1) && (id1 <=? 54) && (id2 =? 0)
  then
    let row := Z.land (to_unsigned (to_unsigned id0 - 1)) 7 in
    let col := to_unsigned (id1 - 49) in
    sbit row col
  else 0.

Definition sbit_id : string -> board_bitmask_t := sbit_id_with char_value.

(** The strings of the C program hold no NUL before their terminator. *)
Definition c_string (s : string) : Prop :=
  forall i, String.get i s <> Some zero.

(** The two spellings of a cell: letter A-F or a-f, then digit 1-6. *)
Definition cell_name (upper : bool) (row col : Z) : string :=
  String (ascii_of_N (Z.to_N ((if upper then 65 else 97) + row)))
    (String (ascii_of_N (Z.to_N (49 + col))) EmptyString).

Definition is_cell_name (s : string) : Prop :=
  exists upper row col, 0 <= row < 6 /\ 0 <= col < 6 /\ s = cell_name upper row col.

(** ** Dice *)

(** [str[i]] of a string literal. *)
Definition literal_at (str : string) (i : nat) : ascii :=
  match String.get i str with
  | Some c => c
  | None => zero
  end.

(** [str += n]. *)
Fixpoint advance (n : nat) (str : string) : string :=
  match n, str with
  | S n', String _ rest => advance n' rest
  | _, _ => str
  end.

(** [parse_dice_values]: six two-letter positions, three characters apart. *)
Fixpoint parse_dice_loop (n : nat) (str : string) : list board_bitmask_t :=
  match n with
  | O => []
  | S n' =>
      let id := String (literal_at str 0) (String (literal_at str 1) EmptyString) in
      sbit_id id :: parse_dice_loop n' (advance 3 str)
  end.

Definition parse_dice_values (str : string) : list board_bitmask_t :=
  parse_dice_loop 6 str.

Definition blocker_die := list board_bitmask_t.

(** [blocker_die::roll], given the value [std::rand()] returned. *)
Definition roll (die : blocker_die) (rand : Z) : board_bitmask_t :=
  nth (Z.to_nat (to_unsigned rand mod Z.of_nat (List.length die))) die 0.

(** [rv[i] = v] on an array: nothing is written out of range. *)
Fixpoint array_set (rv : list Z) (i : nat) (v : Z) : list Z :=
  match rv, i with
  | [], _ => []
  | _ :: rest, O => v :: rest
  | x :: rest, S i' => x :: array_set rest i' v
  end.

(** The inner loop of [without_dups_sized]: scan [rv[0..used)] for [v] from
    index [i]; [fuel] bounds the positions left to scan. *)
Fixpoint dup_scan (fuel : nat) (i : nat) (rv : list Z) (used : nat) (v : Z)
  : list Z * nat :=
  if (used <=? i)%nat then (array_set rv used v, S used)
  else if nth i rv 0 =? v then (rv, used)
  else match fuel with
       | O => (rv, used)
       | S fuel' => dup_scan fuel' (S i) rv used v
       end.

(** [blocker_die::without_dups_sized<DEST_ARRAY_SIZE>]. *)
Definition without_dups_sized (DEST_ARRAY_SIZE : nat) (die : blocker_die) : list Z :=
  fst (fold_left (fun '(rv, used) v => dup_scan used 0 rv used v)
         die (repeat 0 DEST_ARRAY_SIZE, O)).

(** [blocker_die::num_unique_faces]. *)
Fixpoint count_until_zero (uniq : list Z) : nat :=
  match uniq with
  | [] => O
  | v :: rest => if v =? 0 then O else S (count_until_zero rest)
  end.

Definition num_unique_faces (die : blocker_die) : nat :=
  count_until_zero (without_dups_sized 6 die).

Definition blocker_dice : list blocker_die :=
  Eval vm_compute in
    map parse_dice_values
      [ "A1 C1 D1 D2 E2 F3";
        "A2 B2 C2 A3 B1 B3";
        "C3 D3 E3 B4 C4 D4";
        "E1 F2 F2 B6 A5 A5";
        "A4 B5 C6 C5 D6 F6";
        "E4 F4 E5 F5 D5 E6";
        "F1 F1 F1 A6 A6 A6" ]%string.

Definition die (n : nat) : blocker_die := nth n blocker_dice [].

(** [MAKE_UNIQUE_FACES(n)]. *)
Definition unique_faces (n : nat) : list Z :=
  without_dups_sized (num_unique_faces (die n)) (die n).

Definition unique_faces_0 := Eval vm_compute in unique_faces 0.
Definition unique_faces_1 := Eval vm_compute in unique_faces 1.
Definition unique_faces_2 := Eval vm_compute in unique_faces 2.
Definition unique_faces_3 := Eval vm_compute in unique_faces 3.
Definition unique_faces_4 := Eval vm_compute in unique_faces 4.
Definition unique_faces_5 := Eval vm_compute in unique_faces 5.
Definition unique_faces_6 := Eval vm_compute in unique_faces 6.

(** The inner loop of [blockers_are_valid_roll]: does some face of the die
    meet the blockers?  ([break] on the first that does.) *)
Definition die_seen (blockers : Z) (d : blocker_die) : bool :=
  existsb (fun die_value => negb (Z.land blockers die_value =? 0)) d.

(** The assertion inside that loop: a face is zero or a single bit. *)
Definition die_value_ok (die_value : Z) : bool :=
  Z.land die_value (wrap64 (die_value - 1)) =? 0.

Fixpoint saw_dice (blockers : Z) (die_num : Z) (dice : list blocker_die)
  (saw_die : Z) : Z :=
  match dice with
  | [] => saw_die
  | d :: rest =>
      saw_dice blockers (die_num + 1) rest
        (if die_seen blockers d
         then Z.lor saw_die (to_unsigned (Z.shiftl 1 die_num))
         else saw_die)
  end.

Definition blockers_are_valid_roll (blockers : board_bitmask_t) : bool :=
  saw_dice blockers 0 blocker_dice 0 =? 127.

(** [random_blockers], given the seven values [std::rand()] returned; the
    second component tells whether its assertions held. *)
Definition random_blockers (rands : list Z) : board_bitmask_t * bool :=
  let '(used, ok) :=
    fold_left
      (fun '(used, ok) '(d, rand) =>
         let r := roll d rand in
         (wrap64 (used + r), ok && (Z.land used r =? 0)))
      (combine blocker_dice rands) (0, true) in
  (used, ok && blockers_are_valid_roll used).

(** ** Piece shape catalog *)

(** The tables of the program list a placement function over a block of
    anchors, row by row: [f(0,0), f(0,1), ..., f(0,cols-1), f(1,0), ...]. *)
Definition anchors (rows cols : nat) (f : Z -> Z -> board_bitmask_t)
  : list board_bitmask_t :=
  flat_map (fun r => map (fun c => f (Z.of_nat r) (Z.of_nat c)) (seq 0 cols))
    (seq 0 rows).

Definition square2_2_at (row col : Z) : board_bitmask_t :=
  Z.lor (Z.lor (Z.lor (sbit row col) (sbit (row + 1) col)) (sbit row (col + 1)))
    (sbit (row + 1) (col + 1)).

Definition line2_h_at (row col : Z) := Z.lor (sbit row col) (sbit row (col + 1)).
Definition line2_v_at (row col : Z) := Z.lor (sbit row col) (sbit (row + 1) col).

Definition line3_h_at (row col : Z) := Z.lor (line2_h_at row col) (sbit row (col + 2)).
Definition line3_v_at (row col : Z) := Z.lor (line2_v_at row col) (sbit (row + 2) col).

Definition line4_h_at (row col : Z) := Z.lor (line3_h_at row col) (sbit row (col + 3)).
Definition line4_v_at (row col : Z) := Z.lor (line3_v_at row col) (sbit (row + 3) col).

Definition lblock2_ul_at (row col : Z) := Z.lor (line2_h_at (row + 1) col) (sbit row (col + 1)).
Definition lblock2_ur_at (row col : Z) := Z.lor (line2_h_at (row + 1) col) (sbit row col).
Definition lblock2_bl_at (row col : Z) := Z.lor (line2_h_at row col) (sbit (row + 1) (col + 1)).
Definition lblock2_br_at (row col : Z) := Z.lor (line2_h_at row col) (sbit (row + 1) col).

Definition lblock3_h_ul_at (row col : Z) := Z.lor (sbit row (col + 2)) (line3_h_at (row + 1) col).
Definition lblock3_h_ur_at (row col : Z) := Z.lor (sbit row col) (line3_h_at (row + 1) col).
Definition lblock3_h_bl_at (row col : Z) := Z.lor (line3_h_at row col) (sbit (row + 1) (col + 2)).
Definition lblock3_h_br_at (row col : Z) := Z.lor (line3_h_at row col) (sbit (row + 1) col).
Definition lblock3_v_ul_at (row col : Z) := Z.lor (sbit (row + 2) col) (line3_v_at row (col + 1)).
Definition lblock3_v_ur_at (row col : Z) := Z.lor (line3_v_at row col) (sbit (row + 2) (col + 1)).
Definition lblock3_v_bl_at (row col : Z) := Z.lor (sbit row col) (line3_v_at row (col + 1)).
Definition lblock3_v_br_at (row col : Z) := Z.lor (line3_v_at row col) (sbit row (col + 1)).

Definition zblock_h_urbl_at (row col : Z) := Z.lor (line2_h_at row col) (line2_h_at (row + 1) (col + 1)).
Definition zblock_h_ulbr_at (row col : Z) := Z.lor (line2_h_at row (col + 1)) (line2_h_at (row + 1) col).
Definition zblock_v_ulbr_at (row col : Z) := Z.lor (line2_v_at (row + 1) col) (line2_v_at row (col + 1)).
Definition zblock_v_urbl_at (row col : Z) := Z.lor (line2_v_at row col) (line2_v_at (row + 1) (col + 1)).

Definition tblock_h_l_at (row col : Z) := Z.lor (line3_h_at row col) (sbit (row + 1) (col + 1)).
Definition tblock_h_u_at (row col : Z) := Z.lor (line3_h_at (row + 1) col) (sbit row (col + 1)).
Definition tblock_v_r_at (row col : Z) := Z.lor (line3_v_at row col) (sbit (row + 1) (col + 1)).
Definition tblock_v_l_at (row col : Z) := Z.lor (line3_v_at row (col + 1)) (sbit (row + 1) col).

Definition square2_2 : list board_bitmask_t :=
  Eval vm_compute in anchors 5 5 square2_2_at.

Definition line2 : list board_bitmask_t :=
  Eval vm_compute in anchors 6 5 line2_h_at ++ anchors 5 6 line2_v_at.

Definition line3 : list board_bitmask_t :=
  Eval vm_compute in anchors 6 4 line3_h_at ++ anchors 4 6 line3_v_at.

Definition line4 : list board_bitmask_t :=
  Eval vm_compute in anchors 6 3 line4_h_at ++ anchors 3 6 line4_v_at.

Definition lblock2 : list board_bitmask_t :=
  Eval vm_compute in
    anchors 5 5 lblock2_ul_at ++ anchors 5 5 lblock2_ur_at ++
    anchors 5 5 lblock2_bl_at ++ anchors 5 5 lblock2_br_at.

Definition lblock3 : list board_bitmask_t :=
  Eval vm_compute in
    anchors 5 4 lblock3_h_ul_at ++ anchors 5 4 lblock3_h_ur_at ++
    anchors 5 4 lblock3_h_bl_at ++ anchors 5 4 lblock3_h_br_at ++
    anchors 4 5 lblock3_v_ul_at ++ anchors 4 5 lblock3_v_ur_at ++
    anchors 4 5 lblock3_v_bl_at ++ anchors 4 5 lblock3_v_br_at.

Definition zblock : list board_bitmask_t :=
  Eval vm_compute in
    anchors 5 4 zblock_h_urbl_at ++ anchors 5 4 zblock_h_ulbr_at ++
    anchors 4 5 zblock_v_ulbr_at ++ anchors 4 5 zblock_v_urbl_at.

Definition tblock : list board_bitmask_t :=
  Eval vm_compute in
    anchors 5 4 tblock_h_l_at ++ anchors 5 4 tblock_h_u_at ++
    anchors 4 5 tblock_v_r_at ++ anchors 4 5 tblock_v_l_at.

(** ** The board *)

Module piece_id.
Inductive t :=
| single_block | line2 | line3 | line4 | square2_2
| lblock2 | lblock3 | zblock | tblock | blockers.
End piece_id.

(** [static_cast<unsigned>(p)] of a [piece_id]. *)
Definition piece_index (p : piece_id.t) : nat :=
  match p with
  | piece_id.single_block => 0
  | piece_id.line2 => 1
  | piece_id.line3 => 2
  | piece_id.line4 => 3
  | piece_id.square2_2 => 4
  | piece_id.lblock2 => 5
  | piece_id.lblock3 => 6
  | piece_id.zblock => 7
  | piece_id.tblock => 8
  | piece_id.blockers => 9
  end.

Definition ESC : string := String (ascii_of_nat 27) EmptyString.

(** [RENDER_BLOCK(color_num)]. *)
Definition RENDER_BLOCK (color_num : string) : string :=
  (ESC ++ "[" ++ color_num ++ "m " ++ ESC ++ "[0m")%string.

Definition piece_rendering : list string :=
  [ RENDER_BLOCK "104"; RENDER_BLOCK "101"; RENDER_BLOCK "43";
    RENDER_BLOCK "100"; RENDER_BLOCK "102"; RENDER_BLOCK "105";
    RENDER_BLOCK "106"; RENDER_BLOCK "41"; RENDER_BLOCK "103";
    String (ascii_of_nat 226) (String (ascii_of_nat 151)
      (String (ascii_of_nat 143) EmptyString)) ].

(** [class board]: the blockers and one placement for each shape. *)
Record board := mk_board {
  blockers_ : board_bitmask_t;
  line4_ : board_bitmask_t;
  square2_2_ : board_bitmask_t;
  lblock3_ : board_bitmask_t;
  zblock_ : board_bitmask_t;
  tblock_ : board_bitmask_t;
  line3_ : board_bitmask_t;
  lblock2_ : board_bitmask_t;
  line2_ : board_bitmask_t
}.

(** [board::board(blockers)] sets [blockers_] and leaves the other members
    as it finds them in [storage]: "All of the other members are only set in
    solve()". *)
Definition board_ctor (storage : board) (blockers : board_bitmask_t) : board :=
  mk_board blockers (line4_ storage) (square2_2_ storage) (lblock3_ storage)
    (zblock_ storage) (tblock_ storage) (line3_ storage) (lblock2_ storage)
    (line2_ storage).

(** [this->shape_ = t], for each shape. *)
Definition set_line4 (t : Z) (b : board) : board :=
  mk_board (blockers_ b) t (square2_2_ b) (lblock3_ b) (zblock_ b) (tblock_ b)
    (line3_ b) (lblock2_ b) (line2_ b).
Definition set_square2_2 (t : Z) (b : board) : board :=
  mk_board (blockers_ b) (line4_ b) t (lblock3_ b) (zblock_ b) (tblock_ b)
    (line3_ b) (lblock2_ b) (line2_ b).
Definition set_lblock3 (t : Z) (b : board) : board :=
  mk_board (blockers_ b) (line4_ b) (square2_2_ b) t (zblock_ b) (tblock_ b)
    (line3_ b) (lblock2_ b) (line2_ b).
Definition set_zblock (t : Z) (b : board) : board :=
  mk_board (blockers_ b) (line4_ b) (square2_2_ b) (lblock3_ b) t (tblock_ b)
    (line3_ b) (lblock2_ b) (line2_ b).
Definition set_tblock (t : Z) (b : board) : board :=
  mk_board (blockers_ b) (line4_ b) (square2_2_ b) (lblock3_ b) (zblock_ b) t
    (line3_ b) (lblock2_ b) (line2_ b).
Definition set_line3 (t : Z) (b : board) : board :=
  mk_board (blockers_ b) (line4_ b) (square2_2_ b) (lblock3_ b) (zblock_ b)
    (tblock_ b) t (lblock2_ b) (line2_ b).
Definition set_lblock2 (t : Z) (b : board) : board :=
  mk_board (blockers_ b) (line4_ b) (square2_2_ b) (lblock3_ b) (zblock_ b)
    (tblock_ b) (line3_ b) t (line2_ b).
Definition set_line2 (t : Z) (b : board) : board :=
  mk_board (blockers_ b) (line4_ b) (square2_2_ b) (lblock3_ b) (zblock_ b)
    (tblock_ b) (line3_ b) (lblock2_ b) t.

(** The eight placements of a board, in the order [solve] makes them. *)
Definition placements (b : board) : list board_bitmask_t :=
  [ line4_ b; square2_2_ b; lblock3_ b; zblock_ b; tblock_ b;
    line3_ b; lblock2_ b; line2_ b ].

(** *** [board::solve] *)

(** What a loop body hands back: a [return] out of the function, or the
    state with which the loop goes on. *)
Inductive flow (R S : Type) : Type :=
| Return (r : R)
| Next (s : S).
Arguments Return {R S} r.
Arguments Next {R S} s.

(** [for (auto const t : shape) body] *)
Fixpoint for_each {R S : Type} (shape : list Z) (body : Z -> S -> flow R S)
  (s : S) : flow R S :=
  match shape with
  | [] => Next s
  | t :: rest =>
      match body t s with
      | Return r => Return r
      | Next s' => for_each rest body s'
      end
  end.

(** The variables of [solve]: the object and the local [used]. *)
Record solve_state := mk_state {
  this : board;
  used : board_bitmask_t
}.

Definition solve_flow := flow (bool * board) solve_state.

(** What [SHAPE_LOOP_START(shape)] ... [SHAPE_LOOP_END(shape)] do with one
    candidate, around the statements [inner]. *)
Definition SHAPE_LOOP_body (set_shape : Z -> board -> board)
  (inner : solve_state -> solve_flow) (t_shape : Z) (s : solve_state)
  : solve_flow :=
  if Z.land t_shape (used s) =? 0 then
    let s := mk_state (set_shape t_shape (this s)) (wrap64 (used s + t_shape)) in
    match inner s with
    | Return r => Return r
    | Next s => Next (mk_state (this s) (wrap64 (used s - t_shape)))
    end
  else Next s.

Definition SHAPE_LOOP (shape : list Z) (set_shape : Z -> board -> board)
  (inner : solve_state -> solve_flow) : solve_state -> solve_flow :=
  for_each shape (SHAPE_LOOP_body set_shape inner).

(** The innermost loop, over [line2], which returns at the first fit. *)
Definition LAST_LOOP (shape : list Z) (set_shape : Z -> board -> board)
  : solve_state -> solve_flow :=
  for_each shape (fun t_shape s =>
    if Z.land t_shape (used s) =? 0
    then Return (true, set_shape t_shape (this s))
    else Next s).

(** The search of [board::solve]: the nest of loops with its two [return]
    statements.  The [assert_consistent_()] call in front of [return true],
    compiled in unless [NDEBUG] is defined, is added by [solve_asserting]
    below; the two agree wherever that assertion holds. *)
Definition solve (b : board) : bool * board :=
  match
    SHAPE_LOOP line4 set_line4 (
    SHAPE_LOOP square2_2 set_square2_2 (
    SHAPE_LOOP lblock3 set_lblock3 (
    SHAPE_LOOP zblock set_zblock (
    SHAPE_LOOP tblock set_tblock (
    SHAPE_LOOP line3 set_line3 (
    SHAPE_LOOP lblock2 set_lblock2 (
    LAST_LOOP line2 set_line2)))))))
      (mk_state b (blockers_ b))
  with
  | Return r => r
  | Next s => (false, this s)
  end.

(** The [all_bits] of [assert_consistent_]: the blockers and the eight
    placements ORed together. *)
Definition all_bits (b : board) : board_bitmask_t :=
  Z.lor (Z.lor (Z.lor (Z.lor (Z.lor (Z.lor (Z.lor (Z.lor
    (blockers_ b) (line4_ b)) (square2_2_ b)) (lblock3_ b)) (zblock_ b))
    (tblock_ b)) (line3_ b)) (lblock2_ b)) (line2_ b).

(** [board::assert_consistent_]: do its three assertions hold? *)
Definition assert_consistent_ (b : board) : bool :=
  let unused_bits := Z.lxor all_cells (all_bits b) in
  (all_bits b =? wrap64 (blockers_ b + line4_ b + square2_2_ b + lblock3_ b
                         + zblock_ b + tblock_ b + line3_ b + lblock2_ b + line2_ b))
  && negb (unused_bits =? 0)
  && (Z.land unused_bits (wrap64 (unused_bits - 1)) =? 0).

(** [board::solve] as written: the search, and [assert_consistent_()]
    before its [return true]; [None] when that assertion fails and stops
    the program. *)
Definition solve_asserting (b : board) : option (bool * board) :=
  let r := solve b in
  if fst r && negb (assert_consistent_ (snd r)) then None else Some r.

(** *** [board::piece_at] and [board::print] *)

Definition piece_at (b : board) (row col : Z) : piece_id.t :=
  let p := sbit row col in
  if negb (Z.land p (blockers_ b) =? 0) then piece_id.blockers
  else if negb (Z.land p (line4_ b) =? 0) then piece_id.line4
  else if negb (Z.land p (square2_2_ b) =? 0) then piece_id.square2_2
  else if negb (Z.land p (lblock3_ b) =? 0) then piece_id.lblock3
  else if negb (Z.land p (zblock_ b) =? 0) then piece_id.zblock
  else if negb (Z.land p (tblock_ b) =? 0) then piece_id.tblock
  else if negb (Z.land p (line3_ b) =? 0) then piece_id.line3
  else if negb (Z.land p (lblock2_ b) =? 0) then piece_id.lblock2
  else if negb (Z.land p (line2_ b) =? 0) then piece_id.line2
  else piece_id.single_block.

(** What [print] writes to [stdout]. *)
Definition print (b : board) : string :=
  String.concat ""
    (map (fun row =>
            (String.concat ""
               (map (fun col =>
                       nth (piece_index (piece_at b (Z.of_nat row) (Z.of_nat col)))
                         piece_rendering ""%string)
                  (seq 0 6)) ++ String (ascii_of_nat 10) EmptyString)%string)
       (seq 0 6)).

(** The member functions as operations on the object and [stdout]: each
    takes the state before the call and gives back its result and the state
    after.  [piece_at] and [print] are [const]. *)
Record world := mk_world {
  object : board;
  stdout : string
}.

Definition call_solve (w : world) : bool * world :=
  let r := solve (object w) in (fst r, mk_world (snd r) (stdout w)).

Definition call_piece_at (row col : Z) (w : world) : piece_id.t * world :=
  (piece_at (object w) row col, w).

Definition call_print (w : world) : unit * world :=
  (tt, mk_world (object w) (stdout w ++ print (object w))).

(** ** The exhaustive verifier *)

(** [verify_roll]; [storage] is what the local [board] is built over. *)
Definition verify_roll (storage : board) (blockers : board_bitmask_t) : bool :=
  fst (solve (board_ctor storage blockers)).

Definition verify_all_possible_rolls (storage : board) : bool :=
  fold_left (fun ok d0 =>
  fold_left (fun ok d1 =>
  fold_left (fun ok d2 =>
  fold_left (fun ok d3 =>
  fold_left (fun ok d4 =>
  fold_left (fun ok d5 =>
  fold_left (fun ok d6 =>
    if negb (verify_roll storage
               (Z.lor (Z.lor (Z.lor (Z.lor (Z.lor (Z.lor d0 d1) d2) d3) d4) d5) d6))
    then false else ok)
  unique_faces_6 ok) unique_faces_5 ok) unique_faces_4 ok) unique_faces_3 ok)
  unique_faces_2 ok) unique_faces_1 ok) unique_faces_0 true.

(** ** The search, as the specification words it

    A recursive depth-first search over an ordered list of shape catalogs:
    at each level the candidates are taken in catalog order, a candidate
    that meets the running [used] mask is skipped, the first that does not
    is added to [used] and the search goes on with the next shape; the first
    complete assignment is returned at once. *)

Fixpoint first_fit (next : Z -> option (list Z)) (used : Z) (candidates : list Z)
  : option (list Z) :=
  match candidates with
  | [] => None
  | t :: rest =>
      if Z.land t used =? 0 then
        match next t with
        | Some chosen => Some (t :: chosen)
        | None => first_fit next used rest
        end
      else first_fit next used rest
  end.

Fixpoint dfs_reference (catalogs : list (list Z)) (used : Z) : option (list Z) :=
  match catalogs with
  | [] => Some []
  | shape :: rest =>
      first_fit (fun t => dfs_reference rest (Z.lor used t)) used shape
  end.

(** The fixed order: the five 4-cell shapes, the two 3-cell shapes, the
    2-cell line. *)
Definition shape_order : list (list Z) :=
  [ line4; square2_2; lblock3; zblock; tblock; line3; lblock2; line2 ].

Definition solve_reference (blockers : Z) : option (list Z) :=
  dfs_reference shape_order blockers.

(** [chosen] takes one candidate from each catalog, each clear of [used] and
    of the candidates before it. *)
Fixpoint is_tiling (catalogs : list (list Z)) (used : Z) (chosen : list Z) : Prop :=
  match catalogs, chosen with
  | [], [] => True
  | shape :: rest, t :: chosen' =>
      In t shape /\ Z.land t used = 0 /\ is_tiling rest (Z.lor used t) chosen'
  | _, _ => False
  end.

(** The board after [this->shape_ = t] for each shape in turn. *)
Fixpoint set_all (setters : list (Z -> board -> board)) (chosen : list Z)
  (b : board) : board :=
  match setters, chosen with
  | set_shape :: setters', t :: chosen' => set_all setters' chosen' (set_shape t b)
  | _, _ => b
  end.

Definition shape_setters : list (Z -> board -> board) :=
  [ set_line4; set_square2_2; set_lblock3; set_zblock; set_tblock; set_line3;
    set_lblock2; set_line2 ].

(** ** The shapes, as the specification draws them

    A shape is a set of cells around an origin; a placement is the shape
    turned or mirrored, moved so that every cell lies on the 6x6 grid. *)

Definition cell := (Z * Z)%type.

(** The eight symmetries of the square. *)
Inductive symmetry :=
| Id | Transpose | FlipRows | FlipCols | Rot180 | Rot90 | Rot270 | AntiTranspose.

Definition symmetries : list symmetry :=
  [ Id; Transpose; FlipRows; FlipCols; Rot180; Rot90; Rot270; AntiTranspose ].

Definition turn (g : symmetry) (c : cell) : cell :=
  let '(row, col) := c in
  match g with
  | Id => (row, col)
  | Transpose => (col, row)
  | FlipRows => (- row, col)
  | FlipCols => (row, - col)
  | Rot180 => (- row, - col)
  | Rot90 => (col, - row)
  | Rot270 => (- col, row)
  | AntiTranspose => (- col, - row)
  end.

Definition move (row col : Z) (c : cell) : cell := (row + fst c, col + snd c).

Definition on_grid (c : cell) : Prop := 0 <= fst c < 6 /\ 0 <= snd c < 6.

Definition on_gridb (c : cell) : bool :=
  (0 <=? fst c) && (fst c <? 6) && (0 <=? snd c) && (snd c <? 6).

Definition mask_of (cells : list cell) : board_bitmask_t :=
  fold_right (fun c acc => Z.lor (sbit (fst c) (snd c)) acc) 0 cells.

(** The cells of each placeable shape. *)
Definition shape_cells (p : piece_id.t) : list cell :=
  match p with
  | piece_id.line2 => [(0, 0); (0, 1)]
  | piece_id.line3 => [(0, 0); (0, 1); (0, 2)]
  | piece_id.line4 => [(0, 0); (0, 1); (0, 2); (0, 3)]
  | piece_id.square2_2 => [(0, 0); (0, 1); (1, 0); (1, 1)]
  | piece_id.lblock2 => [(0, 0); (0, 1); (1, 0)]
  | piece_id.lblock3 => [(0, 0); (0, 1); (0, 2); (1, 0)]
  | piece_id.zblock => [(0, 0); (0, 1); (1, 1); (1, 2)]
  | piece_id.tblock => [(0, 0); (0, 1); (0, 2); (1, 1)]
  | piece_id.single_block => [(0, 0)]
  | piece_id.blockers => []
  end.

Definition placeable (p : piece_id.t) : Prop :=
  p <> piece_id.single_block /\ p <> piece_id.blockers.

(** The candidate list the program holds for a shape. *)
Definition catalog (p : piece_id.t) : list board_bitmask_t :=
  match p with
  | piece_id.line2 => line2
  | piece_id.line3 => line3
  | piece_id.line4 => line4
  | piece_id.square2_2 => square2_2
  | piece_id.lblock2 => lblock2
  | piece_id.lblock3 => lblock3
  | piece_id.zblock => zblock
  | piece_id.tblock => tblock
  | piece_id.single_block => []
  | piece_id.blockers => []
  end.

Definition placed (p : piece_id.t) (g : symmetry) (row col : Z) : list cell :=
  map (fun c => move row col (turn g c)) (shape_cells p).

(** [m] is the mask of a placement of [p] that fits entirely on the grid. *)
Definition legal_placement (p : piece_id.t) (m : board_bitmask_t) : Prop :=
  exists g row col,
    Forall on_grid (placed p g row col) /\ m = mask_of (placed p g row col).

(** All of them, by enumeration of the symmetries and of the anchors. *)
Definition grid_indices : list Z := [0; 1; 2; 3; 4; 5].

Definition legal_placements (p : piece_id.t) : list board_bitmask_t :=
  flat_map (fun g =>
    flat_map (fun row =>
      flat_map (fun col =>
        if forallb on_gridb (placed p g row col)
        then [mask_of (placed p g row col)] else [])
      grid_indices) grid_indices) symmetries.

Definition memb (m : Z) (l : list Z) : bool := existsb (Z.eqb m) l.

Fixpoint nodupb (l : list Z) : bool :=
  match l with
  | [] => true
  | x :: rest => negb (memb x rest) && nodupb rest
  end.

(** ** Certificates for solvable boards

    [check_tiling] reads a list of positions in the catalogs and checks that
    the candidates found there are clear of the blockers and of each
    other. *)

Fixpoint check_tiling (catalogs : list (list Z)) (indices : list nat) (used : Z)
  : bool :=
  match catalogs, indices with
  | [], [] => true
  | shape :: rest, i :: indices' =>
      match nth_error shape i with
      | Some t => (Z.land t used =? 0) && check_tiling rest indices' (Z.lor used t)
      | None => false
      end
  | _, _ => false
  end.

(** [P] holds of every mask that ORs one face of each die onto [acc]. *)
Fixpoint all_rolls (P : Z -> bool) (dice : list (list Z)) (acc : Z) : bool :=
  match dice with
  | [] => P acc
  | d :: rest => forallb (fun face => all_rolls P rest (Z.lor acc face)) d
  end.

Definition unique_dice : list (list Z) :=
  [ unique_faces_0; unique_faces_1; unique_faces_2; unique_faces_3;
    unique_faces_4; unique_faces_5; unique_faces_6 ].

(** ** A quick search for certificates

    The verifier runs [solve] on 62208 boards.  To show that each of them
    has a tiling it is enough to exhibit one, and [check_tiling] checks it;
    how it was found does not matter.  [Oracle.find] looks for one on
    machine integers: it fills the board cell by cell (the lowest free cell
    is covered by a candidate that has it as its lowest cell, or is left as
    the hole of the 1-cell piece), under a budget of steps, scanning the
    board in up to eight directions.  Nothing is proved about this search:
    what it returns goes through [check_tiling]. *)

Module Oracle.

(** The candidates that have a given cell as their first, each with the bit
    of its piece ORed in above the 36 cells, its piece and its index in the
    catalog. *)
Inductive candidates :=
| Stop
| Try (mask : int) (piece index : nat) (rest : candidates).

Inductive cell_rows :=
| Done
| Row (cellbit : int) (cs : candidates) (rest : cell_rows).

Inductive result :=
| Found (chosen : list (nat * nat))
| Fail (fuel : int).

Fixpoint indexed {A : Type} (i : nat) (l : list A) : list (nat * A) :=
  match l with
  | [] => []
  | x :: rest => (i, x) :: indexed (S i) rest
  end.

Fixpoint lowest_bit (p : positive) : nat :=
  match p with
  | xO q => S (lowest_bit q)
  | _ => O
  end.

Definition first_cell (m : Z) : nat :=
  match m with
  | Zpos p => lowest_bit p
  | _ => O
  end.

(** The eight scanning orders: where each cell goes. *)
Definition scan_orders : list (Z -> Z -> Z) :=
  [ (fun r c => r * 6 + c); (fun r c => c * 6 + r);
    (fun r c => (5 - r) * 6 + (5 - c)); (fun r c => (5 - c) * 6 + (5 - r));
    (fun r c => r * 6 + (5 - c)); (fun r c => (5 - c) * 6 + r);
    (fun r c => (5 - r) * 6 + c); (fun r c => c * 6 + (5 - r)) ].

Definition reorder (order : Z -> Z -> Z) (m : Z) : Z :=
  fold_left (fun acc i =>
               if Z.testbit m (Z.of_nat i)
               then Z.lor acc (Z.shiftl 1 (order (Z.of_nat i / 6) (Z.of_nat i mod 6)))
               else acc)
    (seq 0 36) 0.

Definition reordered (order : Z -> Z -> Z) : list (nat * list (nat * Z)) :=
  indexed 0 (map (fun shape => indexed 0 (map (reorder order) shape)) shape_order).

Definition candidates_at (shapes : list (nat * list (nat * Z))) (k : nat)
  : candidates :=
  fold_right (fun '(p, shape) acc =>
    fold_right (fun '(i, m) acc =>
      if Nat.eqb (first_cell m) k
      then Try (Uint63.of_Z (Z.lor m (Z.shiftl 1 (36 + Z.of_nat p)))) p i acc
      else acc)
      acc shape)
    Stop shapes.

Definition rows_of (order : Z -> Z -> Z) : cell_rows :=
  let shapes := reordered order in
  fold_right (fun k acc =>
                Row (Uint63.of_Z (Z.shiftl 1 (Z.of_nat k))) (candidates_at shapes k) acc)
    Done (seq 0 36).

Definition cell_moves (order : Z -> Z -> Z) : list (int * int) :=
  map (fun i => (Uint63.of_Z (Z.shiftl 1 (Z.of_nat i)),
                 Uint63.of_Z (Z.shiftl 1 (order (Z.of_nat i / 6) (Z.of_nat i mod 6)))))
    (seq 0 36).

Definition strategies : list (list (int * int) * cell_rows) :=
  Eval vm_compute in map (fun order => (cell_moves order, rows_of order)) scan_orders.

Definition row_major : cell_rows :=
  Eval vm_compute in
    match strategies with
    | (_, rows) :: _ => rows
    | [] => Done
    end.

Definition other_strategies : list (list (int * int) * cell_rows) :=
  Eval vm_compute in tl strategies.

Fixpoint search (rows : cell_rows) (w : int) (left : nat) (hole : bool)
  (acc : list (nat * nat)) (fuel : int) {struct rows} : result :=
  match rows with
  | Done => Fail fuel
  | Row cellbit cs rows' =>
      if PrimInt63.eqb (PrimInt63.land w cellbit) 0 then
        (fix try (cs : candidates) (fuel : int) {struct cs} : result :=
           match cs with
           | Stop => if hole then Fail fuel else search rows' w left true acc fuel
           | Try c p i cs' =>
               if PrimInt63.eqb (PrimInt63.land c w) 0 then
                 match left with
                 | O => Fail fuel
                 | S O => Found ((p, i) :: acc)
                 | S left' =>
                     if PrimInt63.eqb fuel 0 then Fail 0%uint63 else
                       match search rows' (PrimInt63.lor w c) left' hole
                               ((p, i) :: acc) (PrimInt63.sub fuel 1) with
                       | Found r => Found r
                       | Fail f => if PrimInt63.eqb f 0 then Fail 0%uint63 else try cs' f
                       end
                 end
               else try cs' fuel
           end) cs fuel
      else search rows' w left hole acc fuel
  end.

Definition move_cells (moves : list (int * int)) (b : int) : int :=
  fold_left (fun acc '(from, to) =>
               if PrimInt63.eqb (PrimInt63.land b from) 0 then acc
               else PrimInt63.lor acc to)
    moves 0%uint63.

Fixpoint try_strategies (ss : list (list (int * int) * cell_rows)) (b : int)
  (budget : int) : option (list (nat * nat)) :=
  match ss with
  | [] => None
  | (moves, rows) :: ss' =>
      match search rows (move_cells moves b) 8 false [] budget with
      | Found r => Some r
      | Fail _ => try_strategies ss' b budget
      end
  end.

Definition index_of (chosen : list (nat * nat)) (p : nat) : nat :=
  match List.find (fun '(q, _) => Nat.eqb q p) chosen with
  | Some (_, i) => i
  | None => O
  end.

Definition find (blockers : Z) : option (list nat) :=
  let b := Uint63.of_Z blockers in
  let chosen :=
    match search row_major b 8 false [] 40%uint63 with
    | Found r => Some r
    | Fail _ =>
        match try_strategies other_strategies b 40%uint63 with
        | Some r => Some r
        | None => try_strategies strategies b 1000000000%uint63
        end
    end in
  match chosen with
  | Some r => Some (map (index_of r) (seq 0 8))
  | None => None
  end.

End Oracle.

(** The answer of the oracle is a good certificate for the board. *)
Definition certified (blockers : Z) (answer : option (list nat)) : bool :=
  match answer with
  | Some indices => check_tiling shape_order indices blockers
  | None => false
  end.

(** [z] lies within the 36 cells. *)
Definition cellsb (z : Z) : bool := (0 <=? z) && (z <? 2 ^ 36).

(** What the verifier checks for a mask: it lies on the board, holds seven
    cells, and has a certificate. *)
Definition roll_checked (blockers : Z) : bool :=
  cellsb blockers && Nat.eqb (popcount blockers) 7
  && certified blockers (Oracle.find blockers).

(** The argument [d0 | d1 | d2 | d3 | d4 | d5 | d6] of [verify_roll]. *)
Definition dice_roll (d0 d1 d2 d3 d4 d5 d6 : Z) : board_bitmask_t :=
  Z.lor (Z.lor (Z.lor (Z.lor (Z.lor (Z.lor d0 d1) d2) d3) d4) d5) d6.

(** ** Notions used in the proofs *)

(** The masks of a list are pairwise disjoint. *)
Definition pairwise_disjoint (l : list Z) : Prop :=
  ForallOrdPairs (fun x y => Z.land x y = 0) l.

(** Invariant of the loops of [solve]: the blockers are [c]. *)
Definition blockers_are (c : Z) (s : solve_state) : Prop :=
  blockers_ (this s) = c.

Definition returns_blockers (c : Z) (f : solve_flow) : Prop :=
  match f with
  | Return r => blockers_ (snd r) = c
  | Next s => blockers_are c s
  end.

(** A board that holds zeros. *)
Definition zero_board : board := mk_board 0 0 0 0 0 0 0 0 0.

Definition word (z : Z) : Prop := 0 <= z < 2 ^ 64.

(** Two boards agree outside the loops from level [k] inwards: on the
    blockers and on the placements of the [k] outer shapes. *)
Definition agree (k : nat) (b b' : board) : Prop :=
  blockers_ b = blockers_ b' /\ firstn k (placements b) = firstn k (placements b').

(** The loop at level [k] sets the placement of its shape and nothing
    outside the loops from [k] inwards. *)
Definition level_ok (k : nat) (set_shape : Z -> board -> board) : Prop :=
  forall t b b',
    agree (S k) b' (set_shape t b) -> set_shape t b' = b' /\ agree k b' b.

(** The statements [inner], at level [k], do what the reference search does
    on the catalogs [rest]. *)
Definition follows (k : nat) (setters : list (Z -> board -> board))
  (inner : solve_state -> solve_flow) (rest : list (list Z)) : Prop :=
  forall u s, word u -> used s = u ->
    match dfs_reference rest u with
    | Some chosen =>
        exists b', inner s = Return (true, set_all setters chosen b') /\
                   agree k b' (this s)
    | None =>
        exists b', inner s = Next (mk_state b' u) /\ agree k b' (this s)
    end.

(** The cells of the shapes, in the order of [shape_order]. *)
Definition shape_sizes : list nat := [4; 4; 4; 4; 4; 3; 3; 2]%nat.

Definition solve_loops : solve_state -> solve_flow :=
  SHAPE_LOOP line4 set_line4 (
  SHAPE_LOOP square2_2 set_square2_2 (
  SHAPE_LOOP lblock3 set_lblock3 (
  SHAPE_LOOP zblock set_zblock (
  SHAPE_LOOP tblock set_tblock (
  SHAPE_LOOP line3 set_line3 (
  SHAPE_LOOP lblock2 set_lblock2 (
  LAST_LOOP line2 set_line2))))))).

(** The board of the README: blockers C4 B1 E5 A6 D2 C5 A5. *)
Definition readme_blockers : Z :=
  Eval vm_compute in
    fold_left Z.lor (map sbit_id ["C4"; "B1"; "E5"; "A6"; "D2"; "C5"; "A5"]%string) 0.

(** ** The command line *)

(** The exit codes of [<sysexits.h>]. *)
Definition EX_OK : Z := 0.
Definition EX_USAGE : Z := 64.
Definition EX_SOFTWARE : Z := 70.

Definition newline : string := String (ascii_of_nat 10) EmptyString.
Definition tab : string := String (ascii_of_nat 9) EmptyString.
Definition quote : string := String (ascii_of_nat 34) EmptyString.

(** What [usage] writes to [fp]. *)
Definition usage : string :=
  ("Usage:" ++ newline ++
   tab ++ "gsqsolve <die_1> <die_2> ... <die_7>" ++ newline ++
   tab ++ "sqsolve --random [count]" ++ newline ++
   tab ++ "gsqsolve --verify-all" ++ newline)%string.

(** [printf]'s [%09llX]: upper-case hexadecimal digits, padded with zeros
    to nine. *)
Definition hex_digit (d : Z) : ascii :=
  match String.get (Z.to_nat d) "0123456789ABCDEF" with
  | Some c => c
  | None => "0"%char
  end.

Fixpoint hex_digits (fuel : nat) (z : Z) (acc : string) : string :=
  match fuel with
  | O => acc
  | S fuel' =>
      let acc' := String (hex_digit (z mod 16)) acc in
      if z / 16 =? 0 then acc' else hex_digits fuel' (z / 16) acc'
  end.

Definition format_09llX (z : Z) : string :=
  let digits := hex_digits 16 (wrap64 z) EmptyString in
  (string_of_list_ascii (repeat "0"%char (9 - String.length digits)) ++ digits)%string.

(** What [verify_roll] and [verify_all_possible_rolls] write to [stderr]. *)
Definition verify_roll_stderr (storage : board) (blockers : board_bitmask_t)
  : string :=
  if negb (fst (solve (board_ctor storage blockers)))
  then ("Error: Couldn't solve board " ++ format_09llX blockers ++ newline)%string
  else EmptyString.

Definition verify_all_possible_rolls_stderr (storage : board) : string :=
  fold_left (fun err d0 =>
  fold_left (fun err d1 =>
  fold_left (fun err d2 =>
  fold_left (fun err d3 =>
  fold_left (fun err d4 =>
  fold_left (fun err d5 =>
  fold_left (fun err d6 =>
    (err ++ verify_roll_stderr storage
              (Z.lor (Z.lor (Z.lor (Z.lor (Z.lor (Z.lor d0 d1) d2) d3) d4) d5) d6))%string)
  unique_faces_6 err) unique_faces_5 err) unique_faces_4 err) unique_faces_3 err)
  unique_faces_2 err) unique_faces_1 err) unique_faces_0 EmptyString.

(** How a run of the program ends: the value [main] returns and what it
    has written to [stdout] and to [stderr]. *)
Record outcome := mk_outcome {
  exit_code : Z;
  written : string;
  errors : string
}.

(** One turn of the loop of [main] over the seven positions: the blockers
    so far, [parsed_ok], and what has been written to [stderr]. *)
Definition parse_position (st : board_bitmask_t * bool * string) (arg : string)
  : board_bitmask_t * bool * string :=
  let '(blockers, parsed_ok, err) := st in
  let b := sbit_id arg in
  let '(parsed_ok, err) :=
    if b =? 0
    then (false,
          (err ++ "Error: Bad board position: " ++ quote ++ arg ++ quote
               ++ newline)%string)
    else (parsed_ok, err) in
  let '(parsed_ok, err) :=
    if negb (Z.land blockers b =? 0)
    then (false,
          (err ++ "Error: Board position listed multiple times: " ++ quote
               ++ arg ++ quote ++ newline)%string)
    else (parsed_ok, err) in
  (Z.lor blockers b, parsed_ok, err).

Section main.

(** What the program does not fix: [atoi] of the C library, the values
    [std::rand()] returns in the order of the calls, and what the members
    of the [n]-th [board] of a run hold before its constructor runs. *)
Variable atoi : string -> Z.
Variable rand : nat -> Z.
Variable storage : nat -> board.

(** The loop of [--random]: [k] boards have been printed and [i] is the
    loop's counter; [fuel] bounds the turns. *)
Fixpoint random_loop (fuel : nat) (k : nat) (i : Z) (count : Z) (out : string)
  : option outcome :=
  match fuel with
  | O => None
  | S fuel' =>
      let blockers := fst (random_blockers (map rand (seq (7 * k) 7))) in
      let r := solve (board_ctor (storage k) blockers) in
      if negb (fst r)
      then Some (mk_outcome EX_SOFTWARE out ("Error: No solution!" ++ newline))
      else
        let out := (out ++ print (snd r))%string in
        let i := to_unsigned (i + 1) in
        if count <=? i then Some (mk_outcome EX_OK out EmptyString)
        else random_loop fuel' (S k) i count (out ++ newline)
  end.

(** [main]; [argn] is the length of [argv]. *)
Definition main (argv : list string) (fuel : nat) : option outcome :=
  let argn := Z.of_nat (List.length argv) in
  let arg i := nth i argv EmptyString in
  if (argn =? 2) && (arg 1%nat =? "--help")%string
  then Some (mk_outcome EX_OK usage EmptyString)
  else if (argn =? 2) && (arg 1%nat =? "--verify-all")%string
  then Some (mk_outcome
               (if verify_all_possible_rolls (storage 0) then EX_OK else 1)
               EmptyString (verify_all_possible_rolls_stderr (storage 0)))
  else if (2 <=? argn) && (argn <=? 3) && (arg 1%nat =? "--random")%string
  then
    let count := if argn =? 2 then 1 else to_unsigned (atoi (arg 2%nat)) in
    if count =? 0 then Some (mk_outcome EX_USAGE EmptyString usage)
    else random_loop fuel 0 0 count EmptyString
  else if negb (argn =? 8) then Some (mk_outcome EX_USAGE EmptyString usage)
  else
    let '(blockers, parsed_ok, err) :=
      fold_left parse_position (map arg (seq 1 7)) (0, true, EmptyString) in
    if negb parsed_ok then Some (mk_outcome EX_USAGE EmptyString (err ++ usage))
    else
      let valid_roll := blockers_are_valid_roll blockers in
      let err :=
        if negb valid_roll
        then (err ++ "Warning: given board is not a valid dice roll" ++ newline)%string
        else err in
      let r := solve (board_ctor (storage 0) blockers) in
      if negb (fst r)
      then Some (mk_outcome 1 ("No solution." ++ newline) err)
      else Some (mk_outcome EX_OK (print (snd r)) err).

End main.

(** ** Further notions used in the proofs *)

(** The faces of a die without repetitions, in the order they are first
    seen. *)
Fixpoint distinct_from (seen : list Z) (faces : list Z) : list Z :=
  match faces with
  | [] => seen
  | v :: rest =>
      if memb v seen then distinct_from seen rest
      else distinct_from (seen ++ [v]) rest
  end.

Definition distinct_faces (d : blocker_die) : list Z := distinct_from [] d.

(** The mask a board holds for a piece; none for the single block. *)
Definition piece_mask (b : board) (p : piece_id.t) : board_bitmask_t :=
  match p with
  | piece_id.single_block => 0
  | piece_id.line2 => line2_ b
  | piece_id.line3 => line3_ b
  | piece_id.line4 => line4_ b
  | piece_id.square2_2 => square2_2_ b
  | piece_id.lblock2 => lblock2_ b
  | piece_id.lblock3 => lblock3_ b
  | piece_id.zblock => zblock_ b
  | piece_id.tblock => tblock_ b
  | piece_id.blockers => blockers_ b
  end.

(** The cells of the grid in the order the loops of [print] visit them. *)
Definition grid : list (Z * Z) :=
  flat_map (fun row => map (fun col => (Z.of_nat row, Z.of_nat col)) (seq 0 6))
    (seq 0 6).

(** The cells where [piece_at] gives [p]. *)
Definition cells_showing (b : board) (p : piece_id.t) : list (Z * Z) :=
  filter (fun rc =>
            (piece_index (piece_at b (fst rc) (snd rc)) =? piece_index p)%nat)
    grid.

(** The number of cells of each shape of the game. *)
Definition shape_size (p : piece_id.t) : nat :=
  match p with
  | piece_id.line2 => 2
  | piece_id.line3 | piece_id.lblock2 => 3
  | piece_id.line4 | piece_id.square2_2 | piece_id.lblock3
  | piece_id.zblock | piece_id.tblock => 4
  | piece_id.single_block | piece_id.blockers => 0
  end.

(** The positions [main] accepts after the blockers [acc]: each names a
    cell, and none a cell already blocked. *)
Fixpoint positions_ok (acc : Z) (ids : list string) : Prop :=
  match ids with
  | [] => True
  | id :: rest =>
      sbit_id id <> 0 /\ Z.land acc (sbit_id id) = 0 /\
      positions_ok (Z.lor acc (sbit_id id)) rest
  end.

(** The blockers [main] collects from its positions. *)
Definition blockers_of (ids : list string) : board_bitmask_t :=
  fold_left Z.lor (map sbit_id ids) 0.

(** The board has a solution: one candidate of each shape, pairwise
    disjoint and clear of the blockers. *)
Definition solvable (blockers : board_bitmask_t) : Prop :=
  exists chosen,
    Forall2 (@In Z) chosen shape_order /\ pairwise_disjoint (blockers :: chosen).

(** The assertions of [sbit(row, col)]. *)
Definition sbit_asserts (row col : Z) : bool := (row <? 6) && (col <? 6).

(** The [row] and [col] with which [sbit(char const *id)] calls
    [sbit(row, col)], when it does. *)
Definition sbit_id_call (id : string) : option (Z * Z) :=
  let id0 := char_at char_value id 0 in
  let id1 := char_at char_value id 1 in
  let id2 := char_at char_value id 2 in
  if (((65 <=? id0) && (id0 <=? 70)) || ((97 <=? id0) && (id0 <=? 102)))
     && (49 <=? id1) && (id1 <=? 54) && (id2 =? 0)
  then Some (Z.land (to_unsigned (to_unsigned id0 - 1)) 7, to_unsigned (id1 - 49))
  else None.

(** What the [k]-th turn of the loop of [--random] prints, and what [count]
    turns print: a newline goes between two boards. *)
Definition random_board (rand : nat -> Z) (storage : nat -> board) (k : nat)
  : string :=
  print (snd (solve (board_ctor (storage k)
                       (fst (random_blockers (map rand (seq (7 * k) 7))))))).

Definition random_boards (rand : nat -> Z) (storage : nat -> board) (count : nat)
  : string :=
  String.concat newline (map (random_board rand storage) (seq 0 count)).

(** * Properties *)

(** ** Words and bit operations *)

Lemma land_lor_zero (x a b : Z) :
  Z.land x (Z.lor a b) = 0 <-> Z.land x a = 0 /\ Z.land x b = 0.
Proof.
  rewrite Z.land_lor_distr_r. apply Z.lor_eq_0_iff.
Qed.

Lemma disjoint_add_lor (a b : Z) : Z.land a b = 0 -> a + b = Z.lor a b.
Proof.
  intros H. rewrite Z.add_nocarry_lxor by assumption. now apply Z.lxor_lor.
Qed.

Lemma lor_bounded (n a b : Z) :
  0 < n -> 0 <= a < 2 ^ n -> 0 <= b < 2 ^ n -> 0 <= Z.lor a b < 2 ^ n.
Proof.
  intros Hn Ha Hb.
  assert (Hnn : 0 <= Z.lor a b) by (apply Z.lor_nonneg; lia).
  split; [assumption|].
  destruct (Z.eq_dec (Z.lor a b) 0) as [E|E].
  - rewrite E. apply Z.pow_pos_nonneg; lia.
  - apply Z.log2_lt_pow2; [lia|].
    rewrite Z.log2_lor by lia.
    assert (La : Z.log2 a < n).
    { destruct (Z.eq_dec a 0) as [->|]; [simpl; lia|]. apply Z.log2_lt_pow2; lia. }
    assert (Lb : Z.log2 b < n).
    { destruct (Z.eq_dec b 0) as [->|]; [simpl; lia|]. apply Z.log2_lt_pow2; lia. }
    lia.
Qed.

Lemma wrap64_small (z : Z) : 0 <= z < 2 ^ 64 -> wrap64 z = z.
Proof. intros H. unfold wrap64. now apply Z.mod_small. Qed.

Lemma wrap64_add_sub (u t : Z) :
  0 <= u < 2 ^ 64 -> wrap64 (wrap64 (u + t) - t) = u.
Proof.
  intros H. unfold wrap64.
  rewrite Zminus_mod_idemp_l.
  replace (u + t - t) with u by lia.
  now apply Z.mod_small.
Qed.

Lemma Pos_popcount_pos (p : positive) : (0 < Pos_popcount p)%nat.
Proof. induction p; simpl; lia. Qed.

Lemma Pos_popcount_lor (p q : positive) :
  Pos.land p q = 0%N ->
  Pos_popcount (Pos.lor p q) = (Pos_popcount p + Pos_popcount q)%nat.
Proof.
  revert q. induction p as [p IH|p IH|]; intros [q|q|] H; simpl in *;
    try (destruct (Pos.land p q) eqn:E; simpl in H; try discriminate;
         rewrite (IH q E); lia);
    try discriminate; try lia.
Qed.

Lemma popcount_lor (a b : Z) :
  0 <= a -> 0 <= b -> Z.land a b = 0 ->
  popcount (Z.lor a b) = (popcount a + popcount b)%nat.
Proof.
  intros Ha Hb H.
  destruct a as [|p|p]; [reflexivity| |lia].
  destruct b as [|q|q]; [simpl; lia| |lia].
  simpl in *. apply Pos_popcount_lor.
  destruct (Pos.land p q); [reflexivity|discriminate].
Qed.

Lemma popcount_one_pow2 (z : Z) :
  popcount z = 1%nat -> exists k, 0 <= k /\ z = 2 ^ k.
Proof.
  destruct z as [|p|p]; simpl; try discriminate.
  induction p as [p IH|p IH|]; simpl; intros H.
  - pose proof (Pos_popcount_pos p). lia.
  - destruct (IH H) as (k & Hk & E). exists (k + 1). split; [lia|].
    rewrite Z.pow_add_r by lia. rewrite <- E. lia.
  - exists 0. split; [lia|reflexivity].
Qed.

Lemma land_pow2_pred (k : Z) : 0 <= k -> Z.land (2 ^ k) (2 ^ k - 1) = 0.
Proof.
  intros Hk. replace (2 ^ k - 1) with (Z.ones k) by (rewrite Z.ones_equiv; lia).
  rewrite Z.land_ones by assumption. apply Z.mod_same.
  apply Z.pow_nonzero; lia.
Qed.

Lemma land_pow2_cases (b k : Z) :
  0 <= k -> Z.land b (2 ^ k) = (if Z.testbit b k then 2 ^ k else 0).
Proof.
  intros Hk. apply Z.bits_inj'. intros n Hn.
  rewrite Z.land_spec, Z.pow2_bits_eqb by assumption.
  destruct (Z.eqb_spec k n) as [->|Hne].
  - destruct (Z.testbit b n); [|now rewrite Z.bits_0].
    now rewrite Z.pow2_bits_eqb, Z.eqb_refl by assumption.
  - rewrite andb_false_r.
    destruct (Z.testbit b k); [|now rewrite Z.bits_0].
    rewrite Z.pow2_bits_eqb by assumption.
    symmetry. now apply Z.eqb_neq.
Qed.

(** The complement within the board. *)
Lemma complement_parts (a : Z) :
  0 <= a < 2 ^ 36 ->
  Z.land a (Z.lxor all_cells a) = 0 /\ Z.lor a (Z.lxor all_cells a) = all_cells.
Proof.
  intros Ha.
  assert (Hsub : Z.land a all_cells = a).
  { change all_cells with (Z.ones 36). rewrite Z.land_ones by lia.
    now apply Z.mod_small. }
  split; apply Z.bits_inj'; intros n Hn;
    assert (Hb := f_equal (fun z => Z.testbit z n) Hsub); simpl in Hb;
    rewrite Z.land_spec in Hb;
    rewrite ?Z.land_spec, ?Z.lor_spec, ?Z.lxor_spec, ?Z.bits_0;
    destruct (Z.testbit a n), (Z.testbit all_cells n); simpl in *; congruence.
Qed.

Lemma popcount_complement (a : Z) :
  0 <= a < 2 ^ 36 ->
  (popcount a + popcount (Z.lxor all_cells a) = 36)%nat.
Proof.
  intros Ha. destruct (complement_parts a Ha) as [Hd Hu].
  assert (Hc : 0 <= Z.lxor all_cells a).
  { apply Z.lxor_nonneg. unfold all_cells. lia. }
  rewrite <- popcount_lor by lia. rewrite Hu. reflexivity.
Qed.

(** ** The reference search is sound and complete *)

Lemma solve_reference_unfold (blockers : Z) :
  solve_reference blockers = dfs_reference shape_order blockers.
Proof. reflexivity. Qed.

Lemma first_fit_sound (next : Z -> option (list Z)) (used : Z) (cands : list Z)
  (chosen : list Z) :
  first_fit next used cands = Some chosen ->
  exists t rest,
    chosen = t :: rest /\ In t cands /\ Z.land t used = 0 /\ next t = Some rest.
Proof.
  induction cands as [|t cands IH]; simpl; [discriminate|].
  destruct (Z.eqb_spec (Z.land t used) 0) as [E|E].
  - destruct (next t) as [rest|] eqn:N.
    + intros [= <-]. exists t, rest. auto.
    + intros H. destruct (IH H) as (t' & rest & ? & ? & ? & ?).
      exists t', rest. auto.
  - intros H. destruct (IH H) as (t' & rest & ? & ? & ? & ?).
    exists t', rest. auto.
Qed.

Lemma first_fit_complete (next : Z -> option (list Z)) (used : Z) (cands : list Z)
  (t : Z) :
  In t cands -> Z.land t used = 0 -> next t <> None ->
  first_fit next used cands <> None.
Proof.
  induction cands as [|c cands IH]; simpl; [contradiction|].
  intros [->|Hin] Hd Hn.
  - rewrite Hd. simpl. destruct (next t); [discriminate|contradiction].
  - destruct (Z.land c used =? 0); [destruct (next c); [discriminate|]|]; auto.
Qed.

Lemma dfs_reference_sound (catalogs : list (list Z)) :
  forall used chosen,
    dfs_reference catalogs used = Some chosen -> is_tiling catalogs used chosen.
Proof.
  induction catalogs as [|shape rest IH]; simpl; intros used chosen H.
  - now injection H as <-.
  - apply first_fit_sound in H. destruct H as (t & chosen' & -> & Hin & Hd & Hn).
    auto.
Qed.

Lemma dfs_reference_complete (catalogs : list (list Z)) :
  forall used chosen,
    is_tiling catalogs used chosen -> dfs_reference catalogs used <> None.
Proof.
  induction catalogs as [|shape rest IH]; simpl; intros used chosen H.
  - discriminate.
  - destruct chosen as [|t chosen']; [contradiction|].
    destruct H as (Hin & Hd & Ht).
    apply (first_fit_complete _ used shape t Hin Hd). now apply IH in Ht.
Qed.

Lemma is_tiling_length (catalogs : list (list Z)) :
  forall used chosen,
    is_tiling catalogs used chosen -> List.length chosen = List.length catalogs.
Proof.
  induction catalogs as [|shape rest IH]; intros used [|t chosen]; simpl;
    try contradiction; auto.
  intros (_ & _ & H). f_equal. eauto.
Qed.

(** ** [solve] follows the reference search *)

Lemma agree_refl (k : nat) (b : board) : agree k b b.
Proof. split; reflexivity. Qed.

Lemma agree_trans (k : nat) (a b c : board) :
  agree k a b -> agree k b c -> agree k a c.
Proof. intros [H1 H2] [H3 H4]. split; congruence. Qed.

Lemma LAST_LOOP_follows (k : nat) (shape : list Z)
  (set_shape : Z -> board -> board) :
  follows k [set_shape] (LAST_LOOP shape set_shape) [shape].
Proof.
  intros u s _ Hs. unfold LAST_LOOP. simpl dfs_reference.
  revert s Hs. induction shape as [|t shape IH]; intros s Hs; simpl.
  - exists (this s). split; [|apply agree_refl]. destruct s; simpl in *; now subst.
  - rewrite Hs. destruct (Z.land t u =? 0).
    + exists (this s). split; [reflexivity|apply agree_refl].
    + now apply IH.
Qed.

Lemma SHAPE_LOOP_follows (k : nat) (shape : list Z)
  (set_shape : Z -> board -> board) (setters : list (Z -> board -> board))
  (inner : solve_state -> solve_flow) (rest : list (list Z)) :
  level_ok k set_shape -> Forall word shape ->
  follows (S k) setters inner rest ->
  follows k (set_shape :: setters) (SHAPE_LOOP shape set_shape inner)
    (shape :: rest).
Proof.
  intros Hlevel Hshape Hinner u s Hu Hs. unfold SHAPE_LOOP. simpl dfs_reference.
  assert (G : forall s', used s' = u -> agree k (this s') (this s) ->
    match first_fit (fun t => dfs_reference rest (Z.lor u t)) u shape with
    | Some chosen =>
        exists b',
          for_each shape (SHAPE_LOOP_body set_shape inner) s'
          = Return (true, set_all (set_shape :: setters) chosen b') /\
          agree k b' (this s)
    | None =>
        exists b',
          for_each shape (SHAPE_LOOP_body set_shape inner) s'
          = Next (mk_state b' u) /\ agree k b' (this s)
    end).
  { induction Hshape as [|t shape Ht Hshape IH]; intros s' Hs' Ha;
      cbn [for_each first_fit].
    - exists (this s'). split; [|assumption]. destruct s'; simpl in *; now subst.
    - destruct (Z.eqb_spec (Z.land t u) 0) as [E|E].
      + assert (Hlor : wrap64 (u + t) = Z.lor u t).
        { rewrite disjoint_add_lor by (now rewrite Z.land_comm).
          apply wrap64_small. apply lor_bounded; [lia| |]; assumption. }
        assert (Hw : word (Z.lor u t)) by (apply lor_bounded; [lia| |]; assumption).
        assert (Hbody : SHAPE_LOOP_body set_shape inner t s'
                        = match inner (mk_state (set_shape t (this s'))
                                         (wrap64 (u + t))) with
                          | Return r => Return r
                          | Next s1 => Next (mk_state (this s1) (wrap64 (used s1 - t)))
                          end).
        { unfold SHAPE_LOOP_body. rewrite Hs'.
          now rewrite (proj2 (Z.eqb_eq _ _) E). }
        rewrite Hbody.
        specialize (Hinner (Z.lor u t)
                      (mk_state (set_shape t (this s')) (wrap64 (u + t))) Hw Hlor).
        destruct (dfs_reference rest (Z.lor u t)) as [chosen|].
        * destruct Hinner as (b' & -> & Hb). cbn [this] in Hb.
          destruct (Hlevel t (this s') b' Hb) as [Hfix Hk].
          exists b'. cbn [set_all]. rewrite Hfix. split; [reflexivity|].
          eapply agree_trans; eassumption.
        * destruct Hinner as (b' & -> & Hb). cbn [this used] in *.
          destruct (Hlevel t (this s') b' Hb) as [_ Hk].
          rewrite <- Hlor, wrap64_add_sub by assumption.
          apply IH; [reflexivity|]. cbn [this]. eapply agree_trans; eassumption.
      + assert (Hbody : SHAPE_LOOP_body set_shape inner t s' = Next s').
        { unfold SHAPE_LOOP_body. rewrite Hs'.
          now rewrite (proj2 (Z.eqb_neq _ _) E). }
        rewrite Hbody. now apply IH. }
  apply G; [assumption|apply agree_refl].
Qed.

(** *** Facts about the catalogs, by evaluation *)

Lemma cellsb_spec (z : Z) : cellsb z = true -> 0 <= z < 2 ^ 36.
Proof. unfold cellsb. intros H. apply andb_true_iff in H. lia. Qed.

Lemma cells_word (z : Z) : 0 <= z < 2 ^ 36 -> word z.
Proof. unfold word. intros H. assert (2 ^ 36 < 2 ^ 64) by reflexivity. lia. Qed.

Lemma shape_order_cells :
  Forall (Forall (fun t => 0 <= t < 2 ^ 36)) shape_order.
Proof.
  assert (H : forallb (forallb cellsb) shape_order = true) by (vm_compute; reflexivity).
  apply Forall_forall. intros shape Hin. apply Forall_forall. intros t Ht.
  apply cellsb_spec.
  rewrite forallb_forall in H. specialize (H shape Hin).
  rewrite forallb_forall in H. now apply H.
Qed.

Lemma shape_order_words : Forall (Forall word) shape_order.
Proof.
  eapply Forall_impl; [|apply shape_order_cells].
  intros shape H. eapply Forall_impl; [|exact H]. apply cells_word.
Qed.

Lemma shape_order_popcount :
  Forall2 (fun shape size => Forall (fun t => popcount t = size) shape)
    shape_order shape_sizes.
Proof.
  assert (H : forall shape size,
             forallb (fun t => Nat.eqb (popcount t) size) shape = true ->
             Forall (fun t => popcount t = size) shape).
  { intros shape size E. apply Forall_forall. intros t Ht.
    rewrite forallb_forall in E. apply Nat.eqb_eq. now apply E. }
  repeat constructor; apply H; vm_compute; reflexivity.
Qed.

(** The tables as the program lists them; [line4] for one. *)
Example line4_as_listed :
  line4 =
  [ line4_h_at 0 0; line4_h_at 0 1; line4_h_at 0 2;
    line4_h_at 1 0; line4_h_at 1 1; line4_h_at 1 2;
    line4_h_at 2 0; line4_h_at 2 1; line4_h_at 2 2;
    line4_h_at 3 0; line4_h_at 3 1; line4_h_at 3 2;
    line4_h_at 4 0; line4_h_at 4 1; line4_h_at 4 2;
    line4_h_at 5 0; line4_h_at 5 1; line4_h_at 5 2;
    line4_v_at 0 0; line4_v_at 0 1; line4_v_at 0 2; line4_v_at 0 3; line4_v_at 0 4; line4_v_at 0 5;
    line4_v_at 1 0; line4_v_at 1 1; line4_v_at 1 2; line4_v_at 1 3; line4_v_at 1 4; line4_v_at 1 5;
    line4_v_at 2 0; line4_v_at 2 1; line4_v_at 2 2; line4_v_at 2 3; line4_v_at 2 4; line4_v_at 2 5 ].
Proof. reflexivity. Qed.

(** *** The nest of loops of [solve] *)

Lemma level_ok_line4 : level_ok 0 set_line4.
Proof. intros t [] [] [Hb Hp]; cbn in *. injection Hp as <-. subst. split; [reflexivity|split; reflexivity]. Qed.

Lemma level_ok_square2_2 : level_ok 1 set_square2_2.
Proof. intros t [] [] [Hb Hp]; cbn in *. injection Hp as <- <-. subst. split; [reflexivity|split; reflexivity]. Qed.

Lemma level_ok_lblock3 : level_ok 2 set_lblock3.
Proof. intros t [] [] [Hb Hp]; cbn in *. injection Hp as <- <- <-. subst. split; [reflexivity|split; reflexivity]. Qed.

Lemma level_ok_zblock : level_ok 3 set_zblock.
Proof. intros t [] [] [Hb Hp]; cbn in *. injection Hp as <- <- <- <-. subst. split; [reflexivity|split; reflexivity]. Qed.

Lemma level_ok_tblock : level_ok 4 set_tblock.
Proof. intros t [] [] [Hb Hp]; cbn in *. injection Hp as <- <- <- <- <-. subst. split; [reflexivity|split; reflexivity]. Qed.

Lemma level_ok_line3 : level_ok 5 set_line3.
Proof. intros t [] [] [Hb Hp]; cbn in *. injection Hp as <- <- <- <- <- <-. subst. split; [reflexivity|split; reflexivity]. Qed.

Lemma level_ok_lblock2 : level_ok 6 set_lblock2.
Proof. intros t [] [] [Hb Hp]; cbn in *. injection Hp as <- <- <- <- <- <- <-. subst. split; [reflexivity|split; reflexivity]. Qed.

Lemma solve_loops_follow : follows 0 shape_setters solve_loops shape_order.
Proof.
  pose proof shape_order_words as W. unfold shape_order in W.
  repeat match type of W with
         | Forall _ (_ :: _) => apply Forall_cons_iff in W; destruct W as [? W]
         end.
  unfold solve_loops, shape_setters, shape_order.
  apply SHAPE_LOOP_follows; [apply level_ok_line4|assumption|].
  apply SHAPE_LOOP_follows; [apply level_ok_square2_2|assumption|].
  apply SHAPE_LOOP_follows; [apply level_ok_lblock3|assumption|].
  apply SHAPE_LOOP_follows; [apply level_ok_zblock|assumption|].
  apply SHAPE_LOOP_follows; [apply level_ok_tblock|assumption|].
  apply SHAPE_LOOP_follows; [apply level_ok_line3|assumption|].
  apply SHAPE_LOOP_follows; [apply level_ok_lblock2|assumption|].
  apply LAST_LOOP_follows.
Qed.

(** [solve] against the reference search: same verdict and, on success, the
    placements the reference chose, next to untouched blockers. *)
Lemma solve_reference_spec (b : board) :
  word (blockers_ b) ->
  match solve_reference (blockers_ b) with
  | Some chosen =>
      fst (solve b) = true /\ placements (snd (solve b)) = chosen /\
      blockers_ (snd (solve b)) = blockers_ b
  | None => fst (solve b) = false /\ blockers_ (snd (solve b)) = blockers_ b
  end.
Proof.
  intros Hw.
  pose proof (solve_loops_follow (blockers_ b) (mk_state b (blockers_ b)) Hw
                eq_refl) as H.
  unfold solve_reference.
  change (solve b) with
    (match solve_loops (mk_state b (blockers_ b)) with
     | Return r => r
     | Next s => (false, this s)
     end).
  destruct (dfs_reference shape_order (blockers_ b)) as [chosen|] eqn:E.
  - destruct H as (b' & -> & [Hb _]). cbn [this] in Hb.
    apply dfs_reference_sound in E.
    pose proof (is_tiling_length _ _ _ E) as L.
    destruct chosen as [|t1 [|t2 [|t3 [|t4 [|t5 [|t6 [|t7 [|t8 [|]]]]]]]]];
      try discriminate L.
    destruct b'. cbn in *. auto.
  - clear E. destruct H as (b' & -> & [Hb _]). cbn [this fst snd] in *. auto.
Qed.

(** ** [solve] never touches the blockers *)

Lemma for_each_returns_blockers (c : Z) (shape : list Z)
  (body : Z -> solve_state -> solve_flow) :
  (forall t s, blockers_are c s -> returns_blockers c (body t s)) ->
  forall s, blockers_are c s -> returns_blockers c (for_each shape body s).
Proof.
  intros Hbody. induction shape as [|t shape IH]; intros s Hs; simpl.
  - exact Hs.
  - specialize (Hbody t s Hs). destruct (body t s) as [r|s']; simpl in *; auto.
Qed.

Lemma LAST_LOOP_returns_blockers (c : Z) (shape : list Z)
  (set_shape : Z -> board -> board) :
  (forall t b, blockers_ (set_shape t b) = blockers_ b) ->
  forall s, blockers_are c s ->
            returns_blockers c (LAST_LOOP shape set_shape s).
Proof.
  intros Hset. apply for_each_returns_blockers. intros t s Hs.
  destruct (Z.land t (used s) =? 0); simpl; [|exact Hs].
  rewrite Hset. exact Hs.
Qed.

Lemma SHAPE_LOOP_returns_blockers (c : Z) (shape : list Z)
  (set_shape : Z -> board -> board) (inner : solve_state -> solve_flow) :
  (forall t b, blockers_ (set_shape t b) = blockers_ b) ->
  (forall s, blockers_are c s -> returns_blockers c (inner s)) ->
  forall s, blockers_are c s ->
            returns_blockers c (SHAPE_LOOP shape set_shape inner s).
Proof.
  intros Hset Hinner. apply for_each_returns_blockers. intros t s Hs.
  unfold SHAPE_LOOP_body.
  destruct (Z.land t (used s) =? 0); simpl; [|exact Hs].
  assert (H : blockers_are c (mk_state (set_shape t (this s)) (wrap64 (used s + t)))).
  { unfold blockers_are. simpl. rewrite Hset. exact Hs. }
  specialize (Hinner _ H).
  destruct (inner _) as [r|s']; simpl in *; auto.
Qed.

Lemma solve_keeps_blockers (b : board) : blockers_ (snd (solve b)) = blockers_ b.
Proof.
  assert (G : forall s, blockers_are (blockers_ b) s ->
                        returns_blockers (blockers_ b) (solve_loops s)).
  { unfold solve_loops.
    repeat (apply SHAPE_LOOP_returns_blockers; [intros ? []; reflexivity|]).
    apply LAST_LOOP_returns_blockers. intros ? []; reflexivity. }
  pose proof (G (mk_state b (blockers_ b)) eq_refl) as H.
  change (solve b) with
    (match solve_loops (mk_state b (blockers_ b)) with
     | Return r => r
     | Next s => (false, this s)
     end).
  destruct (solve_loops _) as [r|s]; exact H.
Qed.

(** ** What a tiling says about the board *)

Lemma is_tiling_shape_order (used : Z) (chosen : list Z) :
  is_tiling shape_order used chosen ->
  exists t1 t2 t3 t4 t5 t6 t7 t8,
    chosen = [t1; t2; t3; t4; t5; t6; t7; t8] /\
    (In t1 line4 /\ In t2 square2_2 /\ In t3 lblock3 /\ In t4 zblock /\
     In t5 tblock /\ In t6 line3 /\ In t7 lblock2 /\ In t8 line2) /\
    Z.land t1 used = 0 /\
    Z.land t2 (Z.lor used t1) = 0 /\
    Z.land t3 (Z.lor (Z.lor used t1) t2) = 0 /\
    Z.land t4 (Z.lor (Z.lor (Z.lor used t1) t2) t3) = 0 /\
    Z.land t5 (Z.lor (Z.lor (Z.lor (Z.lor used t1) t2) t3) t4) = 0 /\
    Z.land t6 (Z.lor (Z.lor (Z.lor (Z.lor (Z.lor used t1) t2) t3) t4) t5) = 0 /\
    Z.land t7 (Z.lor (Z.lor (Z.lor (Z.lor (Z.lor (Z.lor used t1) t2) t3) t4) t5) t6) = 0 /\
    Z.land t8 (Z.lor (Z.lor (Z.lor (Z.lor (Z.lor (Z.lor (Z.lor used t1) t2) t3) t4) t5) t6) t7) = 0.
Proof.
  intros H. pose proof (is_tiling_length _ _ _ H) as L.
  destruct chosen as [|t1 [|t2 [|t3 [|t4 [|t5 [|t6 [|t7 [|t8 [|]]]]]]]]];
    try discriminate L.
  unfold shape_order in H. cbn [is_tiling] in H.
  exists t1, t2, t3, t4, t5, t6, t7, t8. intuition.
Qed.

Lemma in_shape_facts (t : Z) (shape : list Z) (size : nat) :
  In (shape, size) (combine shape_order shape_sizes) -> In t shape ->
  0 <= t < 2 ^ 36 /\ popcount t = size.
Proof.
  intros Hs Ht.
  assert (Hc : Forall (fun t => 0 <= t < 2 ^ 36) shape).
  { pose proof shape_order_cells as C. rewrite Forall_forall in C.
    apply C. apply in_combine_l in Hs. exact Hs. }
  assert (Hp : Forall (fun t => popcount t = size) shape).
  { pose proof shape_order_popcount as P.
    unfold shape_order, shape_sizes in *. cbn [combine] in Hs.
    repeat match type of P with
           | Forall2 _ (_ :: _) (_ :: _) =>
               apply Forall2_cons_iff in P; destruct P as [? P]
           end.
    cbn [In] in Hs.
    repeat match type of Hs with
           | _ \/ _ => destruct Hs as [Hs|Hs]
           end; try contradiction; injection Hs as <- <-; assumption. }
  rewrite Forall_forall in Hc, Hp. auto.
Qed.

(** The blockers and a tiling: pairwise disjoint, within the board, and
    28 cells more than the blockers. *)
Lemma tiling_facts (used : Z) (chosen : list Z) :
  0 <= used < 2 ^ 36 -> is_tiling shape_order used chosen ->
  pairwise_disjoint (used :: chosen) /\
  0 <= fold_left Z.lor chosen used < 2 ^ 36 /\
  fold_left Z.lor chosen used = fold_left Z.add chosen used /\
  popcount (fold_left Z.lor chosen used) = (popcount used + 28)%nat.
Proof.
  intros Hu H. apply is_tiling_shape_order in H.
  destruct H as (t1 & t2 & t3 & t4 & t5 & t6 & t7 & t8 & -> & Hin & D).
  destruct Hin as (I1 & I2 & I3 & I4 & I5 & I6 & I7 & I8).
  destruct (in_shape_facts t1 line4 4) as [B1 P1]; [cbn; tauto|assumption|].
  destruct (in_shape_facts t2 square2_2 4) as [B2 P2]; [cbn; tauto|assumption|].
  destruct (in_shape_facts t3 lblock3 4) as [B3 P3]; [cbn; tauto|assumption|].
  destruct (in_shape_facts t4 zblock 4) as [B4 P4]; [cbn; tauto|assumption|].
  destruct (in_shape_facts t5 tblock 4) as [B5 P5]; [cbn; tauto|assumption|].
  destruct (in_shape_facts t6 line3 3) as [B6 P6]; [cbn; tauto|assumption|].
  destruct (in_shape_facts t7 lblock2 3) as [B7 P7]; [cbn; tauto|assumption|].
  destruct (in_shape_facts t8 line2 2) as [B8 P8]; [cbn; tauto|assumption|].
  destruct D as (D1 & D2 & D3 & D4 & D5 & D6 & D7 & D8).
  cbn [fold_left].
  assert (U1 := lor_bounded 36 used t1 ltac:(lia) Hu B1).
  assert (U2 := lor_bounded 36 _ t2 ltac:(lia) U1 B2).
  assert (U3 := lor_bounded 36 _ t3 ltac:(lia) U2 B3).
  assert (U4 := lor_bounded 36 _ t4 ltac:(lia) U3 B4).
  assert (U5 := lor_bounded 36 _ t5 ltac:(lia) U4 B5).
  assert (U6 := lor_bounded 36 _ t6 ltac:(lia) U5 B6).
  assert (U7 := lor_bounded 36 _ t7 ltac:(lia) U6 B7).
  assert (U8 := lor_bounded 36 _ t8 ltac:(lia) U7 B8).
  repeat split; try lia.
  - unfold pairwise_disjoint.
    repeat match goal with
           | H : Z.land _ (Z.lor _ _) = 0 |- _ =>
               apply land_lor_zero in H; destruct H
           end.
    repeat (constructor;
            [repeat (constructor; [rewrite Z.land_comm; assumption|]);
             constructor|]).
    constructor.
  - rewrite <- (disjoint_add_lor _ t8) by (now rewrite Z.land_comm).
    rewrite <- (disjoint_add_lor _ t7) by (now rewrite Z.land_comm).
    rewrite <- (disjoint_add_lor _ t6) by (now rewrite Z.land_comm).
    rewrite <- (disjoint_add_lor _ t5) by (now rewrite Z.land_comm).
    rewrite <- (disjoint_add_lor _ t4) by (now rewrite Z.land_comm).
    rewrite <- (disjoint_add_lor _ t3) by (now rewrite Z.land_comm).
    rewrite <- (disjoint_add_lor _ t2) by (now rewrite Z.land_comm).
    rewrite <- (disjoint_add_lor _ t1) by (now rewrite Z.land_comm).
    reflexivity.
  - rewrite (popcount_lor _ t8) by (try lia; now rewrite Z.land_comm).
    rewrite (popcount_lor _ t7) by (try lia; now rewrite Z.land_comm).
    rewrite (popcount_lor _ t6) by (try lia; now rewrite Z.land_comm).
    rewrite (popcount_lor _ t5) by (try lia; now rewrite Z.land_comm).
    rewrite (popcount_lor _ t4) by (try lia; now rewrite Z.land_comm).
    rewrite (popcount_lor _ t3) by (try lia; now rewrite Z.land_comm).
    rewrite (popcount_lor _ t2) by (try lia; now rewrite Z.land_comm).
    rewrite (popcount_lor _ t1) by (try lia; now rewrite Z.land_comm).
    lia.
Qed.

Lemma solve_success_tiling (b : board) :
  0 <= blockers_ b < 2 ^ 36 -> fst (solve b) = true ->
  is_tiling shape_order (blockers_ b) (placements (snd (solve b))) /\
  solve_reference (blockers_ b) = Some (placements (snd (solve b))).
Proof.
  intros Hb Hs. pose proof (solve_reference_spec b (cells_word _ Hb)) as H.
  destruct (solve_reference (blockers_ b)) as [chosen|] eqn:E.
  - destruct H as (_ & Hp & _). rewrite Hp. split; [|reflexivity].
    rewrite solve_reference_unfold in E. apply dfs_reference_sound. exact E.
  - destruct H as [H _]. rewrite H in Hs. discriminate Hs.
Qed.

Lemma tiling_solved (b : board) (chosen : list Z) :
  0 <= blockers_ b < 2 ^ 36 -> is_tiling shape_order (blockers_ b) chosen ->
  fst (solve b) = true.
Proof.
  intros Hb Ht. pose proof (solve_reference_spec b (cells_word _ Hb)) as H.
  apply dfs_reference_complete in Ht. rewrite solve_reference_unfold in H.
  destruct (dfs_reference shape_order (blockers_ b)); [tauto|contradiction].
Qed.

Lemma all_bits_fold (b : board) :
  all_bits b = fold_left Z.lor (placements b) (blockers_ b).
Proof. reflexivity. Qed.

Lemma testbit_above_cells (a k : Z) :
  0 <= a < 2 ^ 36 -> 36 <= k -> Z.testbit a k = false.
Proof.
  intros Ha Hk. rewrite <- (Z.mod_small a (2 ^ 36)) by assumption.
  apply Z.mod_pow2_bits_high. lia.
Qed.

(** With seven blockers on the board, a tiling passes the assertions of
    [assert_consistent_]. *)
Lemma assert_consistent_holds (b : board) :
  0 <= blockers_ b < 2 ^ 36 -> popcount (blockers_ b) = 7%nat ->
  is_tiling shape_order (blockers_ b) (placements b) ->
  assert_consistent_ b = true.
Proof.
  intros Hb Hp Ht.
  destruct (tiling_facts _ _ Hb Ht) as (_ & Hrange & Hsum & Hcount).
  rewrite <- all_bits_fold in Hrange, Hsum, Hcount.
  cbn [fold_left placements] in Hsum.
  unfold assert_consistent_. rewrite <- Hsum.
  rewrite wrap64_small by (apply cells_word; assumption).
  rewrite Z.eqb_refl. cbn [andb].
  pose proof (popcount_complement _ Hrange) as Hc.
  assert (H1 : popcount (Z.lxor all_cells (all_bits b)) = 1%nat) by lia.
  destruct (popcount_one_pow2 _ H1) as (k & Hk & E). rewrite E.
  assert (Hk36 : k < 36).
  { destruct (Z_lt_ge_dec k 36) as [|Hge]; [assumption|exfalso].
    assert (T : Z.testbit (Z.lxor all_cells (all_bits b)) k = true).
    { rewrite E. apply Z.pow2_bits_true. assumption. }
    rewrite Z.lxor_spec in T.
    rewrite (testbit_above_cells (all_bits b)) in T by lia.
    change all_cells with (Z.ones 36) in T.
    rewrite Z.ones_spec_high in T by lia. discriminate. }
  assert (Hpow : 0 < 2 ^ k < 2 ^ 64).
  { split; [apply Z.pow_pos_nonneg; lia|apply Z.pow_lt_mono_r; lia]. }
  rewrite wrap64_small by lia.
  rewrite land_pow2_pred by assumption.
  destruct (Z.eqb_spec (2 ^ k) 0); [lia|reflexivity].
Qed.

(** ** The claims about [solve] *)

(** In a build with assertions the empty board is not a board [solve] is
    meant for: eight cells stay uncovered and [assert_consistent_] fails. *)
Lemma solve_asserting_empty_board : solve_asserting zero_board = None.
Proof. vm_compute. reflexivity. Qed.

(** With seven blockers the assertion never stops a successful [solve]. *)
Lemma solve_asserting_seven_blockers (b : board) :
  0 <= blockers_ b < 2 ^ 36 -> popcount (blockers_ b) = 7%nat ->
  solve_asserting b = Some (solve b).
Proof.
  intros Hb H7. unfold solve_asserting.
  destruct (fst (solve b)) eqn:E; [|reflexivity].
  destruct (solve_success_tiling b Hb E) as [Ht _].
  rewrite assert_consistent_holds; [reflexivity| |
    |]; rewrite solve_keeps_blockers; assumption.
Qed.

(** C10: the blockers of a board are what it was constructed with, and no
    member function changes them: [solve] writes only the placements (and
    nothing to [stdout]), [piece_at] changes nothing, [print] only appends
    to [stdout]. *)
Theorem blockers_never_change (w : world) (storage : board) (blockers row col : Z) :
  blockers_ (board_ctor storage blockers) = blockers /\
  blockers_ (object (snd (call_solve w))) = blockers_ (object w) /\
  stdout (snd (call_solve w)) = stdout w /\
  snd (call_piece_at row col w) = w /\
  object (snd (call_print w)) = object w.
Proof.
  repeat split; try apply solve_keeps_blockers; now destruct w.
Qed.

(** ** The dice *)

Lemma memb_spec (m : Z) (l : list Z) : memb m l = true <-> In m l.
Proof.
  unfold memb. rewrite existsb_exists. split.
  - intros (x & Hin & E). apply Z.eqb_eq in E. now subst.
  - intros H. exists m. split; [assumption|apply Z.eqb_refl].
Qed.

(** Every face of every die is a single bit. *)
Lemma faces_single_bits (d : blocker_die) (face : Z) :
  In d blocker_dice -> In face d -> exists k, 0 <= k /\ face = 2 ^ k.
Proof.
  intros Hd Hf.
  assert (H : forallb (forallb (fun f => f =? 2 ^ Z.log2 f)) blocker_dice = true)
    by (vm_compute; reflexivity).
  rewrite forallb_forall in H. specialize (H d Hd).
  rewrite forallb_forall in H. specialize (H face Hf).
  exists (Z.log2 face). split; [apply Z.log2_nonneg|now apply Z.eqb_eq].
Qed.

Lemma single_bit_meets_iff_subset (b face : Z) :
  (exists k, 0 <= k /\ face = 2 ^ k) ->
  Z.land b face <> 0 <-> subset face b.
Proof.
  intros (k & Hk & ->). unfold subset. rewrite (Z.land_comm (2 ^ k) b).
  rewrite land_pow2_cases by assumption.
  assert (2 ^ k <> 0) by (apply Z.pow_nonzero; lia).
  destruct (Z.testbit b k); split; intros; congruence.
Qed.

Lemma die_seen_spec (blockers : Z) (d : blocker_die) :
  In d blocker_dice ->
  die_seen blockers d = true <-> exists face, In face d /\ subset face blockers.
Proof.
  intros Hd. unfold die_seen. rewrite existsb_exists.
  split; intros (face & Hin & H); exists face; (split; [assumption|]).
  - apply single_bit_meets_iff_subset; [eauto using faces_single_bits|].
    apply negb_true_iff in H. now apply Z.eqb_neq.
  - apply negb_true_iff. apply Z.eqb_neq.
    apply single_bit_meets_iff_subset; [eauto using faces_single_bits|assumption].
Qed.

Lemma saw_seven_dice (blockers : Z) (d0 d1 d2 d3 d4 d5 d6 : blocker_die) :
  (saw_dice blockers 0 [d0; d1; d2; d3; d4; d5; d6] 0 =? 127)
  = forallb (die_seen blockers) [d0; d1; d2; d3; d4; d5; d6].
Proof.
  cbn [saw_dice forallb].
  destruct (die_seen blockers d0), (die_seen blockers d1), (die_seen blockers d2),
    (die_seen blockers d3), (die_seen blockers d4), (die_seen blockers d5),
    (die_seen blockers d6); reflexivity.
Qed.

Lemma blockers_are_valid_roll_forallb (blockers : Z) :
  blockers_are_valid_roll blockers = forallb (die_seen blockers) blocker_dice.
Proof. apply saw_seven_dice. Qed.

Lemma valid_roll_iff_every_die_has_face_aux (blockers : Z) :
  (forall d, In d blocker_dice -> exists face, In face d /\ subset face blockers) ->
  blockers_are_valid_roll blockers = true.
Proof.
  intros H. rewrite blockers_are_valid_roll_forallb. apply forallb_forall.
  intros d Hd. apply die_seen_spec; auto.
Qed.

(** C5: [blockers_are_valid_roll] holds exactly when every die has a face
    that is a subset of the blockers. *)
Theorem valid_roll_iff_every_die_has_face (blockers : Z) :
  blockers_are_valid_roll blockers = true <->
  forall d, In d blocker_dice -> exists face, In face d /\ subset face blockers.
Proof.
  rewrite blockers_are_valid_roll_forallb, forallb_forall.
  split; intros H d Hd.
  - apply die_seen_spec; auto.
  - apply die_seen_spec; auto.
Qed.

(** Every one of the 36 cells is a face of some die: no mask holds a cell
    of the board that is no die's face. *)
Lemma every_cell_is_a_face (row col : Z) :
  0 <= row < 6 -> 0 <= col < 6 ->
  exists d, In d blocker_dice /\ In (sbit row col) d.
Proof.
  intros Hr Hc.
  assert (H : existsb (memb (sbit row col)) blocker_dice = true).
  { assert (R : row = 0 \/ row = 1 \/ row = 2 \/ row = 3 \/ row = 4 \/ row = 5) by lia.
    assert (C : col = 0 \/ col = 1 \/ col = 2 \/ col = 3 \/ col = 4 \/ col = 5) by lia.
    clear Hr Hc.
    repeat (destruct R as [->|R]); try subst row;
      repeat (destruct C as [->|C]); try subst col; vm_compute; reflexivity. }
  apply existsb_exists in H. destruct H as (d & Hd & Hm).
  exists d. split; [assumption|now apply memb_spec].
Qed.

(** C8: no cell is a face of two different dice. *)
Theorem dice_pairwise_disjoint (i j : nat) (face : Z) :
  i <> j -> In face (die i) -> ~ In face (die j).
Proof.
  intros Hij Hi Hj.
  assert (H : forallb (fun i =>
                forallb (fun j =>
                  Nat.eqb i j
                  || forallb (fun f => negb (memb f (die j))) (die i))
                  (seq 0 7)) (seq 0 7) = true) by (vm_compute; reflexivity).
  assert (Li : (i < 7)%nat).
  { destruct (Nat.lt_ge_cases i 7) as [|G]; [assumption|exfalso].
    unfold die in Hi. rewrite nth_overflow in Hi by exact G. contradiction. }
  assert (Lj : (j < 7)%nat).
  { destruct (Nat.lt_ge_cases j 7) as [|G]; [assumption|exfalso].
    unfold die in Hj. rewrite nth_overflow in Hj by exact G. contradiction. }
  rewrite forallb_forall in H.
  specialize (H i ltac:(apply in_seq; lia)).
  rewrite forallb_forall in H.
  specialize (H j ltac:(apply in_seq; lia)).
  apply orb_true_iff in H. destruct H as [H|H].
  - apply Nat.eqb_eq in H. contradiction.
  - rewrite forallb_forall in H. specialize (H face Hi).
    apply memb_spec in Hj. rewrite Hj in H. discriminate.
Qed.

Lemma dice_pairwise_disjoint_A1 : ~ In 1 (die 1).
Proof.
  apply (dice_pairwise_disjoint 0 1 1).
  - discriminate.
  - left. reflexivity.
Defined.

(** ** Every roll of the dice is solved *)

Lemma check_tiling_sound (catalogs : list (list Z)) :
  forall indices used,
    check_tiling catalogs indices used = true ->
    exists chosen, is_tiling catalogs used chosen.
Proof.
  induction catalogs as [|shape rest IH]; intros [|i indices] used H;
    simpl in H; try discriminate.
  - exists []. exact I.
  - destruct (nth_error shape i) as [t|] eqn:E; [|discriminate].
    apply andb_true_iff in H. destruct H as [Hd Hrest].
    destruct (IH _ _ Hrest) as (chosen & Hc).
    exists (t :: chosen). simpl. split; [eapply nth_error_In; eassumption|].
    split; [now apply Z.eqb_eq|assumption].
Qed.

Lemma all_rolls_spec (P : Z -> bool) (dice : list (list Z)) :
  forall acc faces,
    all_rolls P dice acc = true -> Forall2 (@In Z) faces dice ->
    P (fold_left Z.lor faces acc) = true.
Proof.
  induction dice as [|d rest IH]; intros acc faces H F; inversion F; subst.
  - exact H.
  - simpl in *. rewrite forallb_forall in H. eauto.
Qed.

(** The one long evaluation: every mask the seven dice can give lies on the
    board, holds seven cells and has a certificate. *)
Lemma all_rolls_checked : all_rolls roll_checked unique_dice 0 = true.
Proof. vm_cast_no_check (eq_refl true). Qed.

Lemma faces_are_unique_faces :
  Forall2 (fun d u => forall face, In face d -> In face u) blocker_dice unique_dice.
Proof.
  assert (H : forall d u, forallb (fun f => memb f u) d = true ->
                          forall face, In face d -> In face u).
  { intros d u E face Hin. rewrite forallb_forall in E. apply memb_spec. auto. }
  unfold blocker_dice, unique_dice.
  repeat (apply Forall2_cons; [apply H; vm_compute; reflexivity|]).
  apply Forall2_nil.
Qed.

Lemma unique_faces_are_faces :
  Forall2 (fun d u => forall face, In face u -> In face d) blocker_dice unique_dice.
Proof.
  assert (H : forall d u, forallb (fun f => memb f d) u = true ->
                          forall face, In face u -> In face d).
  { intros d u E face Hin. rewrite forallb_forall in E. apply memb_spec. auto. }
  unfold blocker_dice, unique_dice.
  repeat (apply Forall2_cons; [apply H; vm_compute; reflexivity|]).
  apply Forall2_nil.
Qed.

Lemma roll_checked_of_dice (d0 d1 d2 d3 d4 d5 d6 : Z) :
  In d0 (die 0) -> In d1 (die 1) -> In d2 (die 2) -> In d3 (die 3) ->
  In d4 (die 4) -> In d5 (die 5) -> In d6 (die 6) ->
  roll_checked (dice_roll d0 d1 d2 d3 d4 d5 d6) = true.
Proof.
  intros H0 H1 H2 H3 H4 H5 H6.
  pose proof faces_are_unique_faces as F. unfold blocker_dice, unique_dice in F.
  repeat match type of F with
         | Forall2 _ (_ :: _) (_ :: _) =>
             apply Forall2_cons_iff in F; destruct F as [? F]
         end.
  pose proof (all_rolls_spec roll_checked unique_dice 0
                [d0; d1; d2; d3; d4; d5; d6] all_rolls_checked) as A.
  cbn [fold_left] in A. rewrite Z.lor_0_l in A. apply A.
  unfold unique_dice.
  repeat (apply Forall2_cons;
          [match goal with
           | G : forall face, In face _ -> In face ?u |- In _ ?u =>
               apply G; assumption
           end|]).
  apply Forall2_nil.
Qed.

Lemma roll_checked_unfold (blockers : Z) :
  roll_checked blockers
  = cellsb blockers && Nat.eqb (popcount blockers) 7
    && certified blockers (Oracle.find blockers).
Proof. reflexivity. Qed.

Lemma certified_sound (blockers : Z) (answer : option (list nat)) :
  certified blockers answer = true ->
  exists chosen, is_tiling shape_order blockers chosen.
Proof.
  destruct answer as [indices|]; cbn [certified]; [|discriminate].
  apply check_tiling_sound.
Qed.

Lemma roll_checked_spec (blockers : Z) :
  roll_checked blockers = true ->
  0 <= blockers < 2 ^ 36 /\ popcount blockers = 7%nat /\
  exists chosen, is_tiling shape_order blockers chosen.
Proof.
  rewrite roll_checked_unfold. intros H.
  apply andb_true_iff in H. destruct H as [H Hc].
  apply andb_true_iff in H. destruct H as [Hb Hp].
  split; [now apply cellsb_spec|]. split; [now apply Nat.eqb_eq|].
  eapply certified_sound. eassumption.
Qed.

Lemma verify_roll_of_dice (storage : board) (d0 d1 d2 d3 d4 d5 d6 : Z) :
  In d0 (die 0) -> In d1 (die 1) -> In d2 (die 2) -> In d3 (die 3) ->
  In d4 (die 4) -> In d5 (die 5) -> In d6 (die 6) ->
  verify_roll storage (dice_roll d0 d1 d2 d3 d4 d5 d6) = true.
Proof.
  intros H0 H1 H2 H3 H4 H5 H6.
  destruct (roll_checked_spec _ (roll_checked_of_dice _ _ _ _ _ _ _
                                   H0 H1 H2 H3 H4 H5 H6))
    as (Hb & _ & chosen & Ht).
  unfold verify_roll. eapply tiling_solved; cbn [blockers_ board_ctor]; eassumption.
Qed.

Lemma fold_left_keeps_true {A : Type} (f : bool -> A -> bool) (l : list A) :
  (forall x, In x l -> f true x = true) -> fold_left f l true = true.
Proof.
  induction l as [|x l IH]; intros H; simpl; [reflexivity|].
  rewrite H by (now left). apply IH. intros y Hy. apply H. now right.
Qed.

Lemma verify_all_possible_rolls_true (storage : board) :
  verify_all_possible_rolls storage = true.
Proof.
  pose proof unique_faces_are_faces as F. unfold blocker_dice, unique_dice in F.
  repeat match type of F with
         | Forall2 _ (_ :: _) (_ :: _) =>
             apply Forall2_cons_iff in F; destruct F as [? F]
         end.
  unfold verify_all_possible_rolls.
  apply fold_left_keeps_true; intros d0 I0.
  apply fold_left_keeps_true; intros d1 I1.
  apply fold_left_keeps_true; intros d2 I2.
  apply fold_left_keeps_true; intros d3 I3.
  apply fold_left_keeps_true; intros d4 I4.
  apply fold_left_keeps_true; intros d5 I5.
  apply fold_left_keeps_true; intros d6 I6.
  change (Z.lor (Z.lor (Z.lor (Z.lor (Z.lor (Z.lor d0 d1) d2) d3) d4) d5) d6)
    with (dice_roll d0 d1 d2 d3 d4 d5 d6).
  rewrite verify_roll_of_dice; [reflexivity|..]; unfold die; cbn [nth]; auto.
Qed.

(** C1: for every mask got by choosing one face from each of the seven dice
    and ORing them, [solve] returns success; and so
    [verify_all_possible_rolls] returns true. *)
Theorem every_dice_roll_is_solved (storage : board) (d0 d1 d2 d3 d4 d5 d6 : Z) :
  In d0 (die 0) -> In d1 (die 1) -> In d2 (die 2) -> In d3 (die 3) ->
  In d4 (die 4) -> In d5 (die 5) -> In d6 (die 6) ->
  fst (solve (board_ctor storage (dice_roll d0 d1 d2 d3 d4 d5 d6))) = true /\
  verify_all_possible_rolls storage = true.
Proof.
  intros H0 H1 H2 H3 H4 H5 H6. split.
  - apply (verify_roll_of_dice storage); assumption.
  - apply verify_all_possible_rolls_true.
Qed.

Lemma every_dice_roll_is_solved_readme :
  fst (solve (board_ctor zero_board
                (dice_roll (sbit 3 1) (sbit 1 0) (sbit 2 3) (sbit 0 4)
                   (sbit 2 4) (sbit 4 4) (sbit 0 5)))) = true /\
  verify_all_possible_rolls zero_board = true.
Proof.
  apply (every_dice_roll_is_solved zero_board);
    vm_compute; repeat (try (left; reflexivity); right).
Defined.

(** The assertions the verifier runs under hold as well: a roll of the dice
    is a valid roll, and [assert_consistent_] passes on its solution. *)
Lemma dice_rolls_pass_assertions (storage : board) (d0 d1 d2 d3 d4 d5 d6 : Z) :
  In d0 (die 0) -> In d1 (die 1) -> In d2 (die 2) -> In d3 (die 3) ->
  In d4 (die 4) -> In d5 (die 5) -> In d6 (die 6) ->
  solve_asserting (board_ctor storage (dice_roll d0 d1 d2 d3 d4 d5 d6))
  = Some (solve (board_ctor storage (dice_roll d0 d1 d2 d3 d4 d5 d6))).
Proof.
  intros H0 H1 H2 H3 H4 H5 H6.
  destruct (roll_checked_spec _ (roll_checked_of_dice _ _ _ _ _ _ _
                                   H0 H1 H2 H3 H4 H5 H6))
    as (Hb & Hp & _).
  apply solve_asserting_seven_blockers; assumption.
Qed.

(** ** The catalogs hold exactly the placements that fit *)

Lemma on_gridb_spec (c : cell) : on_gridb c = true <-> on_grid c.
Proof.
  unfold on_gridb, on_grid. rewrite !andb_true_iff. lia.
Qed.

Lemma nodupb_spec (l : list Z) : nodupb l = true -> NoDup l.
Proof.
  induction l as [|x l IH]; simpl; intros H; constructor;
    apply andb_true_iff in H; destruct H as [Hx Hl].
  - intros Hin. apply memb_spec in Hin. rewrite Hin in Hx. discriminate.
  - auto.
Qed.

Lemma in_grid_indices (z : Z) : In z grid_indices <-> 0 <= z < 6.
Proof. unfold grid_indices. simpl. lia. Qed.

Lemma turn_origin (g : symmetry) : turn g (0, 0) = (0, 0).
Proof. destruct g; reflexivity. Qed.

Lemma origin_in_shape (p : piece_id.t) :
  p <> piece_id.blockers -> In (0, 0) (shape_cells p).
Proof. destruct p; intros H; try (now left). contradiction. Qed.

Lemma legal_placements_spec (p : piece_id.t) (m : Z) :
  p <> piece_id.blockers ->
  In m (legal_placements p) <-> legal_placement p m.
Proof.
  intros Hp. unfold legal_placements, legal_placement. split.
  - intros H. apply in_flat_map in H. destruct H as (g & _ & H).
    apply in_flat_map in H. destruct H as (row & _ & H).
    apply in_flat_map in H. destruct H as (col & _ & H).
    destruct (forallb on_gridb (placed p g row col)) eqn:E; [|contradiction].
    destruct H as [<-|[]]. exists g, row, col. split; [|reflexivity].
    apply Forall_forall. intros c Hc. apply on_gridb_spec.
    rewrite forallb_forall in E. auto.
  - intros (g & row & col & Hfit & ->).
    assert (Horigin : on_grid (row, col)).
    { rewrite Forall_forall in Hfit. apply Hfit. unfold placed.
      apply in_map_iff. exists (0, 0). split; [|now apply origin_in_shape].
      rewrite turn_origin. unfold move. simpl. f_equal; lia. }
    destruct Horigin as [Hr Hc]. simpl in Hr, Hc.
    apply in_flat_map. exists g. split; [destruct g; simpl; tauto|].
    apply in_flat_map. exists row. split; [now apply in_grid_indices|].
    apply in_flat_map. exists col. split; [now apply in_grid_indices|].
    assert (E : forallb on_gridb (placed p g row col) = true).
    { apply forallb_forall. intros c Hin. apply on_gridb_spec.
      rewrite Forall_forall in Hfit. auto. }
    rewrite E. now left.
Qed.

Lemma catalog_checked (p : piece_id.t) :
  placeable p ->
  forallb (fun m => memb m (legal_placements p)) (catalog p) = true /\
  forallb (fun m => memb m (catalog p)) (legal_placements p) = true /\
  nodupb (catalog p) = true /\
  forallb (fun m => cellsb m
                    && Nat.eqb (popcount m) (List.length (shape_cells p)))
    (catalog p) = true.
Proof.
  intros [H1 H2]. destruct p; try contradiction; vm_compute; auto.
Qed.

(** C6: for each placeable shape the candidate list holds exactly the masks
    of the placements that fit on the 6x6 grid: each listed mask is one, of
    as many cells as the shape has and within the low 36 bits; each such
    placement is listed; none is listed twice. *)
Theorem catalog_is_the_legal_placements (p : piece_id.t) :
  placeable p ->
  (forall m, In m (catalog p) <-> legal_placement p m) /\
  NoDup (catalog p) /\
  (forall m, In m (catalog p) ->
             popcount m = List.length (shape_cells p) /\ 0 <= m < 2 ^ 36).
Proof.
  intros Hp. destruct (catalog_checked p Hp) as (H1 & H2 & H3 & H4).
  rewrite forallb_forall in H1, H2, H4.
  assert (Hb : p <> piece_id.blockers) by (destruct Hp; assumption).
  repeat split.
  - intros Hin. apply legal_placements_spec; [assumption|].
    apply memb_spec. auto.
  - intros Hl. apply memb_spec. apply H2.
    apply legal_placements_spec; assumption.
  - now apply nodupb_spec.
  - specialize (H4 m H). apply andb_true_iff in H4.
    now apply Nat.eqb_eq.
  - specialize (H4 m H). apply andb_true_iff in H4. destruct H4 as [H4 _].
    apply cellsb_spec in H4. lia.
  - specialize (H4 m H). apply andb_true_iff in H4. destruct H4 as [H4 _].
    apply cellsb_spec in H4. lia.
Qed.

Lemma catalog_is_the_legal_placements_zblock :
  (forall m, In m zblock <-> legal_placement piece_id.zblock m) /\
  NoDup zblock /\
  (forall m, In m zblock -> popcount m = 4%nat /\ 0 <= m < 2 ^ 36).
Proof.
  apply (catalog_is_the_legal_placements piece_id.zblock).
  split; discriminate.
Defined.

(** ** The codec *)

Lemma sbit_pow2 (row col : Z) :
  0 <= row -> 0 <= col -> sbit row col = 2 ^ (row * 6 + col).
Proof. intros Hr Hc. unfold sbit. apply Z.shiftl_1_l. Qed.

Lemma char_value_cases (c : ascii) :
  (uchar_value c = char_value c /\ 0 <= char_value c < 128) \/
  (128 <= uchar_value c /\ char_value c < 0).
Proof.
  unfold uchar_value, char_value.
  pose proof (N_ascii_bounded c) as B.
  assert (0 <= Z.of_N (N_of_ascii c) < 256) by lia.
  destruct (Z.ltb_spec (Z.of_N (N_of_ascii c)) 128); lia.
Qed.

Lemma char_value_inv (c : ascii) :
  0 <= char_value c -> c = ascii_of_N (Z.to_N (char_value c)).
Proof.
  intros H. destruct (char_value_cases c) as [[E _]|[_ ?]]; [|lia].
  rewrite <- E. unfold uchar_value. rewrite N2Z.id.
  symmetry. apply ascii_N_embedding.
Qed.

Lemma char_value_zero (c : ascii) : char_value c = 0 -> c = zero.
Proof.
  intros H. rewrite (char_value_inv c) by lia. rewrite H. reflexivity.
Qed.

Ltac decide_comparisons :=
  repeat match goal with
         | |- context [?a <=? ?b] => destruct (Z.leb_spec a b)
         | |- context [?a =? ?b] => destruct (Z.eqb_spec a b)
         end;
  cbn [andb orb]; try reflexivity; try lia.

Lemma sbit_id_condition_false (x0 x1 x2 : Z) :
  (x0 < 65 \/ 102 < x0) \/ (x1 < 49 \/ 54 < x1) \/ x2 <> 0 ->
  (((65 <=? x0) && (x0 <=? 70)) || ((97 <=? x0) && (x0 <=? 102)))
  && (49 <=? x1) && (x1 <=? 54) && (x2 =? 0) = false.
Proof.
  intros [[H|H]|[[H|H]|H]].
  - rewrite (proj2 (Z.leb_gt 65 x0)), (proj2 (Z.leb_gt 97 x0)) by lia.
    reflexivity.
  - rewrite (proj2 (Z.leb_gt x0 70)), (proj2 (Z.leb_gt x0 102)) by lia.
    rewrite !andb_false_r. reflexivity.
  - rewrite (proj2 (Z.leb_gt 49 x1)) by lia.
    rewrite !andb_false_r. reflexivity.
  - rewrite (proj2 (Z.leb_gt x1 54)) by lia.
    rewrite andb_false_r. reflexivity.
  - rewrite (proj2 (Z.eqb_neq x2 0)) by assumption.
    rewrite andb_false_r. reflexivity.
Qed.

(** The body of [sbit_id_with] gives the same for the two readings of three
    characters. *)
Lemma sbit_id_body_signedness (u0 v0 u1 v1 u2 v2 : Z) :
  (u0 = v0 \/ (128 <= u0 /\ v0 < 0)) ->
  (u1 = v1 \/ (128 <= u1 /\ v1 < 0)) ->
  (u2 = v2 \/ (128 <= u2 /\ v2 < 0)) ->
  (if (((65 <=? u0) && (u0 <=? 70)) || ((97 <=? u0) && (u0 <=? 102)))
      && (49 <=? u1) && (u1 <=? 54) && (u2 =? 0)
   then sbit (Z.land (to_unsigned (to_unsigned u0 - 1)) 7) (to_unsigned (u1 - 49))
   else 0)
  = (if (((65 <=? v0) && (v0 <=? 70)) || ((97 <=? v0) && (v0 <=? 102)))
        && (49 <=? v1) && (v1 <=? 54) && (v2 =? 0)
     then sbit (Z.land (to_unsigned (to_unsigned v0 - 1)) 7) (to_unsigned (v1 - 49))
     else 0).
Proof.
  intros H0 H1 H2.
  destruct H0 as [->|[? ?]]; [destruct H1 as [->|[? ?]];
    [destruct H2 as [->|[? ?]]; [reflexivity|]|]|];
    rewrite !sbit_id_condition_false by lia; reflexivity.
Qed.

Lemma char_at_signedness (id : string) (i : nat) :
  char_at uchar_value id i = char_at char_value id i \/
  (128 <= char_at uchar_value id i /\ char_at char_value id i < 0).
Proof.
  unfold char_at. destruct (String.get i id) as [c|]; [|now left].
  destruct (char_value_cases c) as [[E _]|H]; [now left|now right].
Qed.

(** Whether [char] is signed makes no difference to [sbit_id]. *)
Lemma sbit_id_unsigned_char (id : string) :
  sbit_id_with uchar_value id = sbit_id id.
Proof.
  unfold sbit_id, sbit_id_with. cbv zeta.
  apply sbit_id_body_signedness; apply char_at_signedness.
Qed.

Lemma sbit_id_of_cell_name (upper : bool) (row col : Z) :
  0 <= row < 6 -> 0 <= col < 6 ->
  sbit_id (cell_name upper row col) = sbit row col.
Proof.
  intros Hr Hc.
  assert (R : row = 0 \/ row = 1 \/ row = 2 \/ row = 3 \/ row = 4 \/ row = 5) by lia.
  assert (C : col = 0 \/ col = 1 \/ col = 2 \/ col = 3 \/ col = 4 \/ col = 5) by lia.
  clear Hr Hc.
  repeat (destruct R as [->|R]); try subst row;
    repeat (destruct C as [->|C]); try subst col;
    destruct upper; vm_compute; reflexivity.
Qed.

Lemma sbit_id_not_cell_name (s : string) :
  c_string s -> ~ is_cell_name s -> sbit_id s = 0.
Proof.
  intros Hc Hn. unfold sbit_id, sbit_id_with. cbv zeta.
  destruct s as [|a [|b [|c rest]]]; cbn [char_at String.get].
  - reflexivity.
  - decide_comparisons.
  - destruct ((((65 <=? char_value a) && (char_value a <=? 70))
               || ((97 <=? char_value a) && (char_value a <=? 102)))
              && (49 <=? char_value b) && (char_value b <=? 54) && (0 =? 0)) eqn:E;
      [exfalso|reflexivity].
    apply Hn.
    apply andb_true_iff in E. destruct E as [E _].
    apply andb_true_iff in E. destruct E as [E Eb2].
    apply andb_true_iff in E. destruct E as [Ea Eb1].
    assert (Hb : 49 <= char_value b <= 54) by lia.
    apply orb_true_iff in Ea. destruct Ea as [Ea|Ea];
      apply andb_true_iff in Ea; destruct Ea as [Ea1 Ea2].
    + exists true, (char_value a - 65), (char_value b - 49).
      split; [lia|]. split; [lia|]. unfold cell_name.
      replace (65 + (char_value a - 65)) with (char_value a) by lia.
      replace (49 + (char_value b - 49)) with (char_value b) by lia.
      rewrite <- !char_value_inv by lia. reflexivity.
    + exists false, (char_value a - 97), (char_value b - 49).
      split; [lia|]. split; [lia|]. unfold cell_name.
      replace (97 + (char_value a - 97)) with (char_value a) by lia.
      replace (49 + (char_value b - 49)) with (char_value b) by lia.
      rewrite <- !char_value_inv by lia. reflexivity.
  - assert (Hc2 : char_value c <> 0).
    { intros E. apply char_value_zero in E. subst c.
      apply (Hc 2%nat). reflexivity. }
    destruct (Z.eqb_spec (char_value c) 0) as [|_]; [contradiction|].
    rewrite !andb_false_r. reflexivity.
Qed.

(** C7: the name of the cell at ([row], [col]), with an upper or a lower
    case letter, parses to the single bit [1 << (row*6 + col)]; and a
    string that is not such a name parses to 0. *)
Theorem sbit_id_spec (upper : bool) (row col : Z) (s : string) :
  (0 <= row < 6 -> 0 <= col < 6 ->
   sbit_id (cell_name upper row col) = sbit row col /\
   sbit row col = 2 ^ (row * 6 + col)) /\
  (c_string s -> ~ is_cell_name s -> sbit_id s = 0).
Proof.
  split.
  - intros Hr Hc. split; [now apply sbit_id_of_cell_name|apply sbit_pow2; lia].
  - apply sbit_id_not_cell_name.
Qed.

Lemma sbit_id_spec_C4_G1 :
  (sbit_id "C4" = sbit 2 3 /\ sbit 2 3 = 2 ^ (2 * 6 + 3)) /\ sbit_id "G1" = 0.
Proof.
  destruct (sbit_id_spec true 2 3 "G1") as [H1 H2]. split.
  - apply H1; lia.
  - apply H2.
    + intros [|[|[|i]]]; discriminate.
    + intros (upper & row & col & Hr & Hc & E).
      assert (R : row = 0 \/ row = 1 \/ row = 2 \/ row = 3 \/ row = 4 \/ row = 5) by lia.
      repeat (destruct R as [->|R]); try subst row; destruct upper; discriminate E.
Defined.

(** The assertion of [blockers_are_valid_roll] holds of every face. *)
Lemma die_values_ok :
  Forall (Forall (fun die_value => die_value_ok die_value = true)) blocker_dice.
Proof.
  assert (H : forallb (forallb die_value_ok) blocker_dice = true)
    by (vm_compute; reflexivity).
  apply Forall_forall. intros d Hd. apply Forall_forall. intros f Hf.
  rewrite forallb_forall in H. specialize (H d Hd).
  rewrite forallb_forall in H. auto.
Qed.

(** ** Rolling the dice *)

Lemma subset_lor_r (f a : Z) : subset f (Z.lor a f).
Proof.
  unfold subset. apply Z.bits_inj'. intros n _.
  rewrite Z.land_spec, Z.lor_spec.
  destruct (Z.testbit f n), (Z.testbit a n); reflexivity.
Qed.

Lemma subset_lor_l (f a b : Z) : subset f a -> subset f (Z.lor a b).
Proof.
  unfold subset. intros H. apply Z.bits_inj'. intros n _.
  assert (Hn := f_equal (fun z => Z.testbit z n) H). simpl in Hn.
  rewrite Z.land_spec in Hn. rewrite Z.land_spec, Z.lor_spec.
  destruct (Z.testbit f n), (Z.testbit a n), (Z.testbit b n);
    simpl in *; congruence.
Qed.

Lemma subset_refl (f : Z) : subset f f.
Proof. apply Z.land_diag. Qed.

(** A roll of the seven dice passes [blockers_are_valid_roll]. *)
Lemma dice_roll_is_valid (d0 d1 d2 d3 d4 d5 d6 : Z) :
  In d0 (die 0) -> In d1 (die 1) -> In d2 (die 2) -> In d3 (die 3) ->
  In d4 (die 4) -> In d5 (die 5) -> In d6 (die 6) ->
  blockers_are_valid_roll (dice_roll d0 d1 d2 d3 d4 d5 d6) = true.
Proof.
  intros H0 H1 H2 H3 H4 H5 H6.
  apply valid_roll_iff_every_die_has_face_aux. intros d Hd.
  unfold blocker_dice in Hd. cbn [In] in Hd. unfold dice_roll.
  destruct Hd as [<-|[<-|[<-|[<-|[<-|[<-|[<-|[]]]]]]]].
  - exists d0. split; [exact H0|]. repeat apply subset_lor_l. apply subset_refl.
  - exists d1. split; [exact H1|]. do 5 apply subset_lor_l. apply subset_lor_r.
  - exists d2. split; [exact H2|]. do 4 apply subset_lor_l. apply subset_lor_r.
  - exists d3. split; [exact H3|]. do 3 apply subset_lor_l. apply subset_lor_r.
  - exists d4. split; [exact H4|]. do 2 apply subset_lor_l. apply subset_lor_r.
  - exists d5. split; [exact H5|]. apply subset_lor_l. apply subset_lor_r.
  - exists d6. split; [exact H6|]. apply subset_lor_r.
Qed.

Lemma roll_in_die (d : blocker_die) (rand : Z) :
  List.length d = 6%nat -> In (roll d rand) d.
Proof.
  intros L. unfold roll. apply nth_In. rewrite L.
  assert (0 <= to_unsigned rand mod 6 < 6) by (apply Z.mod_pos_bound; lia).
  cbn [Z.of_nat Pos.of_succ_nat Pos.succ]. lia.
Qed.

Lemma faces_of_different_dice_disjoint (i j : nat) (f g : Z) :
  (i < j)%nat -> In f (die i) -> In g (die j) -> Z.land f g = 0.
Proof.
  intros Hij Hi Hj.
  assert (H : forallb (fun i =>
                forallb (fun j =>
                  negb (Nat.ltb i j)
                  || forallb (fun f =>
                       forallb (fun g => Z.land f g =? 0) (die j)) (die i))
                  (seq 0 7)) (seq 0 7) = true) by (vm_compute; reflexivity).
  assert (Lj : (j < 7)%nat).
  { destruct (Nat.lt_ge_cases j 7) as [|G]; [assumption|exfalso].
    unfold die in Hj. rewrite nth_overflow in Hj by exact G. contradiction. }
  rewrite forallb_forall in H.
  specialize (H i ltac:(apply in_seq; lia)).
  rewrite forallb_forall in H.
  specialize (H j ltac:(apply in_seq; lia)).
  apply orb_true_iff in H. destruct H as [H|H].
  - apply negb_true_iff, Nat.ltb_ge in H. lia.
  - rewrite forallb_forall in H. specialize (H f Hi).
    rewrite forallb_forall in H. specialize (H g Hj). now apply Z.eqb_eq.
Qed.

Lemma face_cells (i : nat) (f : Z) : In f (die i) -> 0 <= f < 2 ^ 36.
Proof.
  intros Hi.
  assert (H : forallb (forallb cellsb) blocker_dice = true) by (vm_compute; reflexivity).
  rewrite forallb_forall in H.
  assert (Hd : In (die i) blocker_dice).
  { unfold die. apply nth_In.
    destruct (Nat.lt_ge_cases i (List.length blocker_dice)) as [|G]; [assumption|].
    unfold die in Hi. rewrite nth_overflow in Hi by exact G. contradiction. }
  specialize (H _ Hd). rewrite forallb_forall in H. apply cellsb_spec. auto.
Qed.

(** [random_blockers] gives a roll of the seven dice, and its assertions
    hold: each die lands clear of the ones before, and the sum is a valid
    roll. *)
Lemma random_blockers_spec (r0 r1 r2 r3 r4 r5 r6 : Z) :
  exists d0 d1 d2 d3 d4 d5 d6,
    (In d0 (die 0) /\ In d1 (die 1) /\ In d2 (die 2) /\ In d3 (die 3) /\
     In d4 (die 4) /\ In d5 (die 5) /\ In d6 (die 6)) /\
    random_blockers [r0; r1; r2; r3; r4; r5; r6]
    = (dice_roll d0 d1 d2 d3 d4 d5 d6, true).
Proof.
  exists (roll (die 0) r0), (roll (die 1) r1), (roll (die 2) r2),
    (roll (die 3) r3), (roll (die 4) r4), (roll (die 5) r5), (roll (die 6) r6).
  assert (I0 := roll_in_die (die 0) r0 eq_refl).
  assert (I1 := roll_in_die (die 1) r1 eq_refl).
  assert (I2 := roll_in_die (die 2) r2 eq_refl).
  assert (I3 := roll_in_die (die 3) r3 eq_refl).
  assert (I4 := roll_in_die (die 4) r4 eq_refl).
  assert (I5 := roll_in_die (die 5) r5 eq_refl).
  assert (I6 := roll_in_die (die 6) r6 eq_refl).
  split; [tauto|].
  pose proof (dice_roll_is_valid _ _ _ _ _ _ _ I0 I1 I2 I3 I4 I5 I6) as V.
  change (random_blockers [r0; r1; r2; r3; r4; r5; r6]) with
    (let '(used, ok) :=
       fold_left
         (fun '(used, ok) '(d, rand) =>
            let r := roll d rand in
            (wrap64 (used + r), ok && (Z.land used r =? 0)))
         [(die 0, r0); (die 1, r1); (die 2, r2); (die 3, r3); (die 4, r4);
          (die 5, r5); (die 6, r6)] (0, true) in
     (used, ok && blockers_are_valid_roll used)).
  cbn [fold_left]. cbv zeta.
  generalize dependent (roll (die 0) r0). intros d0 I0.
  generalize dependent (roll (die 1) r1). intros d1 I1.
  generalize dependent (roll (die 2) r2). intros d2 I2.
  generalize dependent (roll (die 3) r3). intros d3 I3.
  generalize dependent (roll (die 4) r4). intros d4 I4.
  generalize dependent (roll (die 5) r5). intros d5 I5.
  generalize dependent (roll (die 6) r6). intros d6 I6 V.
  pose proof (face_cells _ _ I0) as B0. pose proof (face_cells _ _ I1) as B1.
  pose proof (face_cells _ _ I2) as B2. pose proof (face_cells _ _ I3) as B3.
  pose proof (face_cells _ _ I4) as B4. pose proof (face_cells _ _ I5) as B5.
  pose proof (face_cells _ _ I6) as B6.
  assert (D : forall i j f g, (i < j)%nat -> In f (die i) -> In g (die j) ->
                              Z.land f g = 0)
    by apply faces_of_different_dice_disjoint.
  unfold dice_roll in *.
  assert (U0 : wrap64 (0 + d0) = d0)
    by (rewrite Z.add_0_l; apply wrap64_small, cells_word; assumption).
  rewrite U0, Z.land_0_l.
  assert (E1 : Z.land d0 d1 = 0) by (apply (D 0 1)%nat; first [assumption|lia]).
  assert (R1 := lor_bounded 36 d0 d1 ltac:(lia) B0 B1).
  rewrite E1, (disjoint_add_lor d0 d1 E1), (wrap64_small _ (cells_word _ R1)).
  assert (E2 : Z.land (Z.lor d0 d1) d2 = 0).
  { rewrite Z.land_comm. apply land_lor_zero.
    split; rewrite Z.land_comm; [apply (D 0 2)%nat|apply (D 1 2)%nat]; first [assumption|lia]. }
  assert (R2 := lor_bounded 36 _ d2 ltac:(lia) R1 B2).
  rewrite E2, (disjoint_add_lor _ d2 E2), (wrap64_small _ (cells_word _ R2)).
  assert (E3 : Z.land (Z.lor (Z.lor d0 d1) d2) d3 = 0).
  { rewrite Z.land_comm. repeat (apply land_lor_zero; split);
      rewrite Z.land_comm; [apply (D 0 3)%nat|apply (D 1 3)%nat|apply (D 2 3)%nat]; first [assumption|lia]. }
  assert (R3 := lor_bounded 36 _ d3 ltac:(lia) R2 B3).
  rewrite E3, (disjoint_add_lor _ d3 E3), (wrap64_small _ (cells_word _ R3)).
  assert (E4 : Z.land (Z.lor (Z.lor (Z.lor d0 d1) d2) d3) d4 = 0).
  { rewrite Z.land_comm. repeat (apply land_lor_zero; split);
      rewrite Z.land_comm;
      [apply (D 0 4)%nat|apply (D 1 4)%nat|apply (D 2 4)%nat|apply (D 3 4)%nat]; first [assumption|lia]. }
  assert (R4 := lor_bounded 36 _ d4 ltac:(lia) R3 B4).
  rewrite E4, (disjoint_add_lor _ d4 E4), (wrap64_small _ (cells_word _ R4)).
  assert (E5 : Z.land (Z.lor (Z.lor (Z.lor (Z.lor d0 d1) d2) d3) d4) d5 = 0).
  { rewrite Z.land_comm. repeat (apply land_lor_zero; split);
      rewrite Z.land_comm;
      [apply (D 0 5)%nat|apply (D 1 5)%nat|apply (D 2 5)%nat|apply (D 3 5)%nat
      |apply (D 4 5)%nat]; first [assumption|lia]. }
  assert (R5 := lor_bounded 36 _ d5 ltac:(lia) R4 B5).
  rewrite E5, (disjoint_add_lor _ d5 E5), (wrap64_small _ (cells_word _ R5)).
  assert (E6 : Z.land (Z.lor (Z.lor (Z.lor (Z.lor (Z.lor d0 d1) d2) d3) d4) d5) d6 = 0).
  { rewrite Z.land_comm. repeat (apply land_lor_zero; split);
      rewrite Z.land_comm;
      [apply (D 0 6)%nat|apply (D 1 6)%nat|apply (D 2 6)%nat|apply (D 3 6)%nat
      |apply (D 4 6)%nat|apply (D 5 6)%nat]; first [assumption|lia]. }
  assert (R6 := lor_bounded 36 _ d6 ltac:(lia) R5 B6).
  rewrite E6, (disjoint_add_lor _ d6 E6), (wrap64_small _ (cells_word _ R6)).
  rewrite V. reflexivity.
Qed.

(** * Further properties of the program *)

(** ** Cells *)

Lemma popcount_pow2 (k : Z) : 0 <= k -> popcount (2 ^ k) = 1%nat.
Proof.
  intros Hk. pattern k. apply natlike_ind; [reflexivity| |assumption].
  intros x Hx IH. rewrite Z.pow_succ_r by assumption.
  assert (0 < 2 ^ x) by (apply Z.pow_pos_nonneg; lia).
  destruct (2 ^ x) as [|p|p]; try lia. exact IH.
Qed.

(** X1: [sbit] names each cell of the grid by one bit of the low 36, and
    different cells by different bits. *)
Theorem sbit_names_cells (row col row' col' : Z) :
  0 <= row < 6 -> 0 <= col < 6 -> 0 <= row' < 6 -> 0 <= col' < 6 ->
  popcount (sbit row col) = 1%nat /\
  0 < sbit row col < 2 ^ 36 /\
  (sbit row col = sbit row' col' -> row = row' /\ col = col').
Proof.
  intros Hr Hc Hr' Hc'. rewrite !sbit_pow2 by lia.
  split; [apply popcount_pow2; lia|]. split.
  - split; [apply Z.pow_pos_nonneg; lia|apply Z.pow_lt_mono_r; lia].
  - intros E. apply Z.pow_inj_r in E; lia.
Qed.

Lemma sbit_names_cells_C4 :
  popcount (sbit 2 3) = 1%nat /\ 0 < sbit 2 3 < 2 ^ 36 /\
  (sbit 2 3 = sbit 2 4 -> 2 = 2 /\ 3 = 4).
Proof. apply (sbit_names_cells 2 3 2 4); lia. Defined.

Lemma sbit_id_cell (id : string) :
  sbit_id id <> 0 ->
  exists row col, 0 <= row < 6 /\ 0 <= col < 6 /\ sbit_id id = sbit row col.
Proof.
  unfold sbit_id, sbit_id_with. cbv zeta.
  set (id0 := char_at char_value id 0). set (id1 := char_at char_value id 1).
  set (id2 := char_at char_value id 2).
  destruct ((((65 <=? id0) && (id0 <=? 70)) || ((97 <=? id0) && (id0 <=? 102)))
            && (49 <=? id1) && (id1 <=? 54) && (id2 =? 0)) eqn:E;
    [intros _|intros H; now contradiction H].
  apply andb_true_iff in E. destruct E as [E _].
  apply andb_true_iff in E. destruct E as [E E1b].
  apply andb_true_iff in E. destruct E as [E0 E1a].
  exists (Z.land (to_unsigned (to_unsigned id0 - 1)) 7), (to_unsigned (id1 - 49)).
  split; [|split; [|reflexivity]].
  - assert (H : id0 = 65 \/ id0 = 66 \/ id0 = 67 \/ id0 = 68 \/ id0 = 69 \/ id0 = 70 \/
                id0 = 97 \/ id0 = 98 \/ id0 = 99 \/ id0 = 100 \/ id0 = 101 \/ id0 = 102).
    { apply orb_true_iff in E0. destruct E0 as [E0|E0];
        apply andb_true_iff in E0; lia. }
    clearbody id0.
    repeat (destruct H as [->|H]); try subst id0; vm_compute;
      (split; [discriminate|reflexivity]).
  - unfold to_unsigned. rewrite Z.mod_small; lia.
Qed.

(** X2: whatever the string, [sbit(char const *id)] either returns 0
    without calling [sbit(row, col)], or calls it with [row < 6] and
    [col < 6], as that function asserts, and returns its result. *)
Theorem sbit_id_calls_sbit_in_range (id : string) :
  match sbit_id_call id with
  | Some (row, col) =>
      0 <= row /\ 0 <= col /\ sbit_asserts row col = true /\
      sbit_id id = sbit row col
  | None => sbit_id id = 0
  end.
Proof.
  unfold sbit_id_call, sbit_id, sbit_id_with, sbit_asserts. cbv zeta.
  set (id0 := char_at char_value id 0). set (id1 := char_at char_value id 1).
  set (id2 := char_at char_value id 2).
  destruct ((((65 <=? id0) && (id0 <=? 70)) || ((97 <=? id0) && (id0 <=? 102)))
            && (49 <=? id1) && (id1 <=? 54) && (id2 =? 0)) eqn:E;
    [|reflexivity].
  apply andb_true_iff in E. destruct E as [E _].
  apply andb_true_iff in E. destruct E as [E E1b].
  apply andb_true_iff in E. destruct E as [E0 E1a].
  assert (Hc : to_unsigned (id1 - 49) = id1 - 49)
    by (unfold to_unsigned; rewrite Z.mod_small; lia).
  assert (Hr : 0 <= Z.land (to_unsigned (to_unsigned id0 - 1)) 7 < 6).
  { assert (H : id0 = 65 \/ id0 = 66 \/ id0 = 67 \/ id0 = 68 \/ id0 = 69 \/ id0 = 70 \/
                id0 = 97 \/ id0 = 98 \/ id0 = 99 \/ id0 = 100 \/ id0 = 101 \/ id0 = 102).
    { apply orb_true_iff in E0. destruct E0 as [E0|E0];
        apply andb_true_iff in E0; lia. }
    clearbody id0.
    repeat (destruct H as [->|H]); try subst id0; vm_compute;
      (split; [discriminate|reflexivity]). }
  rewrite Hc. repeat split; try lia.
Qed.

(** ** Dice *)

(** X3: [parse_dice_values] reads six cell names, each two characters long and
    three characters after the one before; the character between two names
    is not looked at, nor is anything after the sixth name. *)
Theorem parse_dice_values_names
  (u0 u1 u2 u3 u4 u5 : bool) (r0 c0 r1 c1 r2 c2 r3 c3 r4 c4 r5 c5 : Z)
  (s0 s1 s2 s3 s4 : ascii) (rest : string) :
  0 <= r0 < 6 -> 0 <= c0 < 6 -> 0 <= r1 < 6 -> 0 <= c1 < 6 ->
  0 <= r2 < 6 -> 0 <= c2 < 6 -> 0 <= r3 < 6 -> 0 <= c3 < 6 ->
  0 <= r4 < 6 -> 0 <= c4 < 6 -> 0 <= r5 < 6 -> 0 <= c5 < 6 ->
  parse_dice_values
    (cell_name u0 r0 c0 ++ String s0 (cell_name u1 r1 c1 ++ String s1
      (cell_name u2 r2 c2 ++ String s2 (cell_name u3 r3 c3 ++ String s3
        (cell_name u4 r4 c4 ++ String s4 (cell_name u5 r5 c5 ++ rest))))))%string
  = [sbit r0 c0; sbit r1 c1; sbit r2 c2; sbit r3 c3; sbit r4 c4; sbit r5 c5].
Proof.
  intros.
  unfold parse_dice_values.
  cbn [parse_dice_loop cell_name String.append advance literal_at String.get].
  change (String ?a (String ?b EmptyString)) with (String a (String b EmptyString)).
  fold (cell_name u0 r0 c0). fold (cell_name u1 r1 c1). fold (cell_name u2 r2 c2).
  fold (cell_name u3 r3 c3). fold (cell_name u4 r4 c4). fold (cell_name u5 r5 c5).
  rewrite !sbit_id_of_cell_name by assumption. reflexivity.
Qed.

Lemma parse_dice_values_names_first_die :
  parse_dice_values "A1 C1 D1 D2 E2 F3"
  = [sbit 0 0; sbit 2 0; sbit 3 0; sbit 3 1; sbit 4 1; sbit 5 2].
Proof.
  apply (parse_dice_values_names true true true true true true
           0 0 2 0 3 0 3 1 4 1 5 2 " " " " " " " " " " ""); lia.
Defined.

(** X4: Whatever [std::rand()] returns, [roll] gives a face of the die: the
    index stays within the array. *)
Theorem roll_gives_a_face (d : blocker_die) (rand : Z) :
  d <> [] -> In (roll d rand) d.
Proof.
  intros Hd. unfold roll. apply nth_In.
  assert (L : (0 < List.length d)%nat) by (destruct d; [contradiction|simpl; lia]).
  assert (0 <= to_unsigned rand mod Z.of_nat (List.length d) < Z.of_nat (List.length d))
    by (apply Z.mod_pos_bound; lia).
  lia.
Qed.

Lemma roll_gives_a_face_first_die : In (roll (die 0) 12345) (die 0).
Proof. apply (roll_gives_a_face (die 0) 12345). discriminate. Defined.

(** *** [without_dups_sized] *)

Lemma array_set_app (acc : list Z) (x : Z) (zeros : list Z) (v : Z) :
  array_set (acc ++ x :: zeros) (List.length acc) v = acc ++ v :: zeros.
Proof. induction acc as [|a acc IH]; simpl; [reflexivity|now rewrite IH]. Qed.

Lemma dup_scan_spec (acc : list Z) (v : Z) (zeros : list Z) :
  forall fuel i,
    (List.length acc <= i + fuel)%nat -> (i <= List.length acc)%nat ->
    memb v (skipn i acc) = memb v acc ->
    dup_scan fuel i (acc ++ zeros) (List.length acc) v
    = if memb v acc then (acc ++ zeros, List.length acc)
      else (array_set (acc ++ zeros) (List.length acc) v, S (List.length acc)).
Proof.
  induction fuel as [|fuel IH]; intros i Hf Hi Hm.
  - assert (i = List.length acc) by lia. subst i.
    rewrite skipn_all in Hm. change (memb v []) with false in Hm. rewrite <- Hm.
    cbn [dup_scan]. rewrite Nat.leb_refl. reflexivity.
  - cbn [dup_scan]. destruct (Nat.leb_spec (List.length acc) i) as [Hle|Hlt].
    + assert (i = List.length acc) by lia. subst i.
      rewrite skipn_all in Hm. change (memb v []) with false in Hm. rewrite <- Hm.
      reflexivity.
    + rewrite app_nth1 by assumption.
      assert (Hs : skipn i acc = nth i acc 0 :: skipn (S i) acc).
      { clear - Hlt. revert i Hlt. induction acc as [|a acc IH]; intros i Hlt;
          simpl in Hlt; [lia|]. destruct i; [reflexivity|].
        simpl. apply IH. lia. }
      rewrite Hs in Hm.
      change (memb v (nth i acc 0 :: skipn (S i) acc))
        with ((v =? nth i acc 0) || memb v (skipn (S i) acc)) in Hm.
      rewrite (Z.eqb_sym v) in Hm.
      destruct (nth i acc 0 =? v).
      * cbn [orb] in Hm. rewrite <- Hm. reflexivity.
      * cbn [orb] in Hm. apply IH; [lia|lia|exact Hm].
Qed.

Lemma without_dups_fold (n : nat) (faces : list Z) :
  forall acc,
    (List.length (distinct_from acc faces) <= n)%nat ->
    fold_left (fun '(rv, used) v => dup_scan used 0 rv used v) faces
      (acc ++ repeat 0 (n - List.length acc), List.length acc)
    = (distinct_from acc faces
         ++ repeat 0 (n - List.length (distinct_from acc faces)),
       List.length (distinct_from acc faces)).
Proof.
  induction faces as [|v faces IH]; intros acc Hn; cbn [fold_left distinct_from] in *.
  - reflexivity.
  - rewrite (dup_scan_spec acc v _ (List.length acc) 0) by (simpl; auto; lia).
    destruct (memb v acc) eqn:E.
    + apply IH. exact Hn.
    + assert (Hlen : (List.length (acc ++ [v]) <= n)%nat).
      { clear - Hn. revert Hn. generalize (acc ++ [v]) as a.
        induction faces as [|w faces IH]; intros a Hn; cbn [distinct_from] in Hn;
          [exact Hn|].
        destruct (memb w a); [now apply IH|].
        specialize (IH _ Hn). rewrite length_app in IH. simpl in IH. lia. }
      rewrite length_app in Hlen. simpl in Hlen.
      replace (n - List.length acc)%nat with (S (n - S (List.length acc))) by lia.
      cbn [repeat]. rewrite array_set_app.
      specialize (IH (acc ++ [v])). rewrite length_app in IH. simpl in IH.
      replace (List.length acc + 1)%nat with (S (List.length acc)) in IH by lia.
      rewrite <- app_assoc in IH. simpl in IH. apply IH. exact Hn.
Qed.

Lemma distinct_from_spec (faces : list Z) :
  forall seen, NoDup seen ->
    NoDup (distinct_from seen faces) /\
    (forall x, In x (distinct_from seen faces) <-> In x seen \/ In x faces).
Proof.
  induction faces as [|v faces IH]; intros seen Hs; cbn [distinct_from].
  - split; [assumption|]. intros x. simpl. tauto.
  - destruct (memb v seen) eqn:E.
    + destruct (IH seen Hs) as [N I]. split; [assumption|].
      intros x. rewrite I. simpl. apply memb_spec in E.
      split; [tauto|]. intros [H|[<-|H]]; tauto.
    + assert (Hv : ~ In v seen).
      { intros H. apply memb_spec in H. congruence. }
      assert (Hs' : NoDup (seen ++ [v])).
      { apply NoDup_app; [assumption|constructor; [intros []|constructor]|].
        intros x Hx [<-|[]]. contradiction. }
      destruct (IH _ Hs') as [N I]. split; [assumption|].
      intros x. rewrite I, in_app_iff. simpl. tauto.
Qed.

(** X5: [without_dups_sized], given room for them, gives the faces of the die
    without repetitions in the order they are first seen, then zeros: no
    face is lost, none is listed twice. *)
Theorem without_dups_sized_spec (DEST_ARRAY_SIZE : nat) (d : blocker_die) :
  (List.length (distinct_faces d) <= DEST_ARRAY_SIZE)%nat ->
  without_dups_sized DEST_ARRAY_SIZE d
  = distinct_faces d
      ++ repeat 0 (DEST_ARRAY_SIZE - List.length (distinct_faces d)) /\
  NoDup (distinct_faces d) /\
  (forall face, In face (distinct_faces d) <-> In face d).
Proof.
  intros Hn. split.
  - unfold without_dups_sized, distinct_faces in *.
    pose proof (without_dups_fold DEST_ARRAY_SIZE d [] Hn) as H.
    cbn [List.length app] in H. rewrite Nat.sub_0_r in H. rewrite H. reflexivity.
  - destruct (distinct_from_spec d [] (NoDup_nil Z)) as [N I].
    split; [exact N|]. intros face. unfold distinct_faces. rewrite I. simpl. tauto.
Qed.

Lemma without_dups_sized_spec_fourth_die :
  without_dups_sized 6 (die 3)
  = distinct_faces (die 3) ++ repeat 0 (6 - List.length (distinct_faces (die 3))) /\
  NoDup (distinct_faces (die 3)) /\
  (forall face, In face (distinct_faces (die 3)) <-> In face (die 3)).
Proof.
  apply (without_dups_sized_spec 6 (die 3)). vm_compute. lia.
Defined.

Lemma count_until_zero_app (l : list Z) (k : nat) :
  ~ In 0 l -> count_until_zero (l ++ repeat 0 k) = List.length l.
Proof.
  induction l as [|x l IH]; intros H; simpl.
  - destruct k; reflexivity.
  - destruct (Z.eqb_spec x 0) as [->|_]; [exfalso; apply H; now left|].
    f_equal. apply IH. intros Hin. apply H. now right.
Qed.

(** X6: For a die of at most six distinct faces, none of them 0,
    [num_unique_faces] counts the distinct faces, and the array
    [MAKE_UNIQUE_FACES] sizes with it holds exactly those, with no padding. *)
Theorem unique_faces_spec (d : blocker_die) :
  (List.length d <= 6)%nat -> ~ In 0 d ->
  num_unique_faces d = List.length (distinct_faces d) /\
  without_dups_sized (num_unique_faces d) d = distinct_faces d.
Proof.
  intros Hlen Hz.
  assert (Hd : (List.length (distinct_faces d) <= 6)%nat).
  { destruct (distinct_from_spec d [] (NoDup_nil Z)) as [N I].
    apply Nat.le_trans with (List.length d); [|assumption].
    apply NoDup_incl_length; [exact N|]. intros x Hx.
    apply I in Hx. destruct Hx as [[]|Hx]. exact Hx. }
  destruct (without_dups_sized_spec 6 d Hd) as (E6 & _ & I).
  assert (Hn : num_unique_faces d = List.length (distinct_faces d)).
  { unfold num_unique_faces. rewrite E6. apply count_until_zero_app.
    intros H0. apply Hz. now apply I. }
  split; [exact Hn|]. rewrite Hn.
  destruct (without_dups_sized_spec (List.length (distinct_faces d)) d
              (Nat.le_refl _)) as (E & _).
  rewrite E, Nat.sub_diag. apply app_nil_r.
Qed.

Lemma unique_faces_spec_fourth_die :
  num_unique_faces (die 3) = List.length (distinct_faces (die 3)) /\
  without_dups_sized (num_unique_faces (die 3)) (die 3) = distinct_faces (die 3).
Proof.
  apply (unique_faces_spec (die 3)).
  - vm_compute. lia.
  - vm_compute. intuition discriminate.
Defined.

(** *** Valid rolls *)

Lemma subset_trans (a b c : Z) : subset a b -> subset b c -> subset a c.
Proof.
  unfold subset. intros H1 H2. apply Z.bits_inj'. intros n _.
  assert (A := f_equal (fun z => Z.testbit z n) H1).
  assert (B := f_equal (fun z => Z.testbit z n) H2). simpl in A, B.
  rewrite Z.land_spec in A, B. rewrite Z.land_spec.
  destruct (Z.testbit a n), (Z.testbit b n), (Z.testbit c n); simpl in *; congruence.
Qed.

Lemma subset_lor_both (a b c : Z) : subset a c -> subset b c -> subset (Z.lor a b) c.
Proof.
  unfold subset. intros H1 H2. apply Z.bits_inj'. intros n _.
  assert (A := f_equal (fun z => Z.testbit z n) H1).
  assert (B := f_equal (fun z => Z.testbit z n) H2). simpl in A, B.
  rewrite Z.land_spec in A, B. rewrite Z.land_spec, Z.lor_spec.
  destruct (Z.testbit a n), (Z.testbit b n), (Z.testbit c n); simpl in *; congruence.
Qed.

Lemma subset_split (a b : Z) :
  subset a b -> Z.lor a (Z.ldiff b a) = b /\ Z.land a (Z.ldiff b a) = 0.
Proof.
  unfold subset. intros H.
  split; apply Z.bits_inj'; intros n _;
    assert (A := f_equal (fun z => Z.testbit z n) H); simpl in A;
    rewrite Z.land_spec in A;
    rewrite ?Z.lor_spec, ?Z.land_spec, ?Z.ldiff_spec, ?Z.bits_0;
    destruct (Z.testbit a n), (Z.testbit b n); simpl in *; congruence.
Qed.

Lemma popcount_zero (z : Z) : 0 <= z -> popcount z = 0%nat -> z = 0.
Proof.
  destruct z as [|p|p]; simpl; intros Hz H; [reflexivity| |lia].
  pose proof (Pos_popcount_pos p). lia.
Qed.

Lemma popcount_subset (a b : Z) :
  0 <= a -> 0 <= b -> subset a b ->
  (popcount a <= popcount b)%nat /\ (popcount a = popcount b -> a = b).
Proof.
  intros Ha Hb H. destruct (subset_split a b H) as [Hu Hd].
  assert (Hn : 0 <= Z.ldiff b a) by (apply Z.ldiff_nonneg; lia).
  pose proof (popcount_lor a (Z.ldiff b a) Ha Hn Hd) as P. rewrite Hu in P.
  split; [lia|]. intros E.
  assert (H0 : Z.ldiff b a = 0) by (apply popcount_zero; [assumption|lia]).
  rewrite H0, Z.lor_0_r in Hu. exact Hu.
Qed.

(** X7: A mask that passes [blockers_are_valid_roll] still passes with more
    bits set: the check never rejects a mask for what else it holds. *)
Theorem valid_roll_monotone (blockers more : Z) :
  blockers_are_valid_roll blockers = true ->
  blockers_are_valid_roll (Z.lor blockers more) = true.
Proof.
  rewrite !blockers_are_valid_roll_forallb, !forallb_forall.
  intros H d Hd. specialize (H d Hd).
  apply die_seen_spec in H; [|assumption]. destruct H as (face & Hin & Hs).
  apply die_seen_spec; [assumption|]. exists face. split; [assumption|].
  now apply subset_lor_l.
Qed.

Lemma valid_roll_monotone_readme :
  blockers_are_valid_roll (Z.lor readme_blockers (sbit 5 5)) = true.
Proof. apply (valid_roll_monotone readme_blockers (sbit 5 5)). reflexivity. Defined.

Lemma valid_roll_contains_dice_roll (blockers : Z) :
  blockers_are_valid_roll blockers = true ->
  exists d0 d1 d2 d3 d4 d5 d6,
    (In d0 (die 0) /\ In d1 (die 1) /\ In d2 (die 2) /\ In d3 (die 3) /\
     In d4 (die 4) /\ In d5 (die 5) /\ In d6 (die 6)) /\
    subset (dice_roll d0 d1 d2 d3 d4 d5 d6) blockers.
Proof.
  rewrite blockers_are_valid_roll_forallb, forallb_forall. intros H.
  assert (F : forall i, (i < 7)%nat ->
                        exists face, In face (die i) /\ subset face blockers).
  { intros i Hi. apply die_seen_spec.
    - unfold die. apply nth_In. exact Hi.
    - apply H. unfold die. apply nth_In. exact Hi. }
  destruct (F 0%nat ltac:(lia)) as (d0 & I0 & S0).
  destruct (F 1%nat ltac:(lia)) as (d1 & I1 & S1).
  destruct (F 2%nat ltac:(lia)) as (d2 & I2 & S2).
  destruct (F 3%nat ltac:(lia)) as (d3 & I3 & S3).
  destruct (F 4%nat ltac:(lia)) as (d4 & I4 & S4).
  destruct (F 5%nat ltac:(lia)) as (d5 & I5 & S5).
  destruct (F 6%nat ltac:(lia)) as (d6 & I6 & S6).
  exists d0, d1, d2, d3, d4, d5, d6. split; [tauto|].
  unfold dice_roll. repeat apply subset_lor_both; assumption.
Qed.

Lemma valid_roll_has_seven_cells_aux (blockers : Z) :
  0 <= blockers -> blockers_are_valid_roll blockers = true ->
  popcount blockers = 7%nat ->
  exists d0 d1 d2 d3 d4 d5 d6,
    (In d0 (die 0) /\ In d1 (die 1) /\ In d2 (die 2) /\ In d3 (die 3) /\
     In d4 (die 4) /\ In d5 (die 5) /\ In d6 (die 6)) /\
    blockers = dice_roll d0 d1 d2 d3 d4 d5 d6.
Proof.
  intros Hb Hv H7.
  destruct (valid_roll_contains_dice_roll _ Hv)
    as (d0 & d1 & d2 & d3 & d4 & d5 & d6 & HI & Hs).
  destruct HI as (I0 & I1 & I2 & I3 & I4 & I5 & I6).
  destruct (roll_checked_spec _ (roll_checked_of_dice _ _ _ _ _ _ _
                                   I0 I1 I2 I3 I4 I5 I6)) as (Hr & Hp & _).
  destruct (popcount_subset _ _ (proj1 Hr) Hb Hs) as [Hle Heq].
  exists d0, d1, d2, d3, d4, d5, d6. split; [tauto|].
  symmetry. apply Heq. lia.
Qed.

(** X8: A mask that passes [blockers_are_valid_roll] holds at least seven
    cells; one that holds exactly seven is a roll of the dice, one face of
    each die. *)
Theorem valid_roll_has_seven_cells (blockers : Z) :
  0 <= blockers -> blockers_are_valid_roll blockers = true ->
  (7 <= popcount blockers)%nat /\
  (popcount blockers = 7%nat ->
   exists d0 d1 d2 d3 d4 d5 d6,
     (In d0 (die 0) /\ In d1 (die 1) /\ In d2 (die 2) /\ In d3 (die 3) /\
      In d4 (die 4) /\ In d5 (die 5) /\ In d6 (die 6)) /\
     blockers = dice_roll d0 d1 d2 d3 d4 d5 d6).
Proof.
  intros Hb Hv.
  destruct (valid_roll_contains_dice_roll _ Hv)
    as (d0 & d1 & d2 & d3 & d4 & d5 & d6 & HI & Hs).
  destruct HI as (I0 & I1 & I2 & I3 & I4 & I5 & I6).
  destruct (roll_checked_spec _ (roll_checked_of_dice _ _ _ _ _ _ _
                                   I0 I1 I2 I3 I4 I5 I6)) as (Hr & Hp & _).
  destruct (popcount_subset _ _ (proj1 Hr) Hb Hs) as [Hle Heq].
  split; [lia|]. intros H7.
  exists d0, d1, d2, d3, d4, d5, d6. split; [tauto|].
  symmetry. apply Heq. lia.
Qed.

Lemma valid_roll_has_seven_cells_readme :
  (7 <= popcount readme_blockers)%nat /\
  (popcount readme_blockers = 7%nat ->
   exists d0 d1 d2 d3 d4 d5 d6,
     (In d0 (die 0) /\ In d1 (die 1) /\ In d2 (die 2) /\ In d3 (die 3) /\
      In d4 (die 4) /\ In d5 (die 5) /\ In d6 (die 6)) /\
     readme_blockers = dice_roll d0 d1 d2 d3 d4 d5 d6).
Proof.
  apply (valid_roll_has_seven_cells readme_blockers).
  - discriminate.
  - reflexivity.
Defined.

(** X9: On seven cells that pass [blockers_are_valid_roll], [solve] succeeds:
    the [assert(not valid_roll)] after "No solution." in [main] cannot
    fail. *)
Theorem valid_seven_cells_are_solved (storage : board) (blockers : Z) :
  0 <= blockers -> popcount blockers = 7%nat ->
  blockers_are_valid_roll blockers = true ->
  fst (solve (board_ctor storage blockers)) = true.
Proof.
  intros Hb H7 Hv.
  destruct (valid_roll_has_seven_cells_aux blockers Hb Hv H7)
    as (d0 & d1 & d2 & d3 & d4 & d5 & d6 & HI & ->).
  destruct HI as (I0 & I1 & I2 & I3 & I4 & I5 & I6).
  apply (verify_roll_of_dice storage); assumption.
Qed.

Lemma valid_seven_cells_are_solved_readme :
  fst (solve (board_ctor zero_board readme_blockers)) = true.
Proof.
  apply (valid_seven_cells_are_solved zero_board readme_blockers).
  - discriminate.
  - reflexivity.
  - reflexivity.
Defined.

Lemma random_blockers_solved (storage : board) (r0 r1 r2 r3 r4 r5 r6 : Z) :
  fst (solve (board_ctor storage
                (fst (random_blockers [r0; r1; r2; r3; r4; r5; r6])))) = true.
Proof.
  destruct (random_blockers_spec r0 r1 r2 r3 r4 r5 r6)
    as (d0 & d1 & d2 & d3 & d4 & d5 & d6 & HI & E).
  destruct HI as (I0 & I1 & I2 & I3 & I4 & I5 & I6).
  rewrite E. cbn [fst]. apply (verify_roll_of_dice storage); assumption.
Qed.

(** X10: Whatever [std::rand()] returns, the assertions of [random_blockers]
    hold, the board it gives has seven blockers, and [solve] succeeds on
    it. *)
Theorem random_board_is_solved (storage : board) (r0 r1 r2 r3 r4 r5 r6 : Z) :
  snd (random_blockers [r0; r1; r2; r3; r4; r5; r6]) = true /\
  popcount (fst (random_blockers [r0; r1; r2; r3; r4; r5; r6])) = 7%nat /\
  fst (solve (board_ctor storage
                (fst (random_blockers [r0; r1; r2; r3; r4; r5; r6])))) = true.
Proof.
  split; [|split; [|apply random_blockers_solved]].
  - destruct (random_blockers_spec r0 r1 r2 r3 r4 r5 r6)
      as (d0 & d1 & d2 & d3 & d4 & d5 & d6 & _ & E).
    now rewrite E.
  - destruct (random_blockers_spec r0 r1 r2 r3 r4 r5 r6)
      as (d0 & d1 & d2 & d3 & d4 & d5 & d6 & HI & E).
    destruct HI as (I0 & I1 & I2 & I3 & I4 & I5 & I6).
    rewrite E. cbn [fst].
    now destruct (roll_checked_spec _ (roll_checked_of_dice _ _ _ _ _ _ _
                                         I0 I1 I2 I3 I4 I5 I6)) as (_ & Hp & _).
Qed.

(** ** [solve] *)

Lemma pairwise_disjoint_cons (a : Z) (l : list Z) :
  pairwise_disjoint (a :: l) <->
  Forall (fun t => Z.land t a = 0) l /\ pairwise_disjoint l.
Proof.
  unfold pairwise_disjoint. split.
  - intros H. inversion H as [|? ? Ha Hl]; subst. split; [|assumption].
    eapply Forall_impl; [|exact Ha]. intros t Ht. now rewrite Z.land_comm.
  - intros [Ha Hl]. constructor; [|assumption].
    eapply Forall_impl; [|exact Ha]. intros t Ht. now rewrite Z.land_comm.
Qed.

Lemma is_tiling_iff (catalogs : list (list Z)) :
  forall used chosen,
    is_tiling catalogs used chosen <->
    Forall2 (@In Z) chosen catalogs /\ pairwise_disjoint (used :: chosen).
Proof.
  induction catalogs as [|shape rest IH]; intros used [|t chosen];
    cbn [is_tiling].
  - split; [intros _|trivial]. split; repeat constructor.
  - split; [contradiction|]. intros [H _]. inversion H.
  - split; [contradiction|]. intros [H _]. inversion H.
  - rewrite IH, !pairwise_disjoint_cons. split.
    + intros (Hin & Hd & HF & Hall & Hp).
      assert (Hs : Forall (fun x => Z.land x used = 0 /\ Z.land x t = 0) chosen).
      { eapply Forall_impl; [|exact Hall]. intros x Hx.
        now apply land_lor_zero in Hx. }
      split; [now constructor|]. split; [|split].
      * constructor; [assumption|].
        eapply Forall_impl; [|exact Hs]. intros x [? ?]; assumption.
      * eapply Forall_impl; [|exact Hs]. intros x [? ?]; assumption.
      * assumption.
    + intros (HF & Hused & Ht & Hp).
      inversion HF as [|? ? ? ? Hin HF']; subst.
      inversion Hused as [|? ? Htu Hcu]; subst.
      split; [assumption|]. split; [assumption|]. split; [assumption|].
      split; [|assumption].
      apply Forall_forall. intros x Hx. apply land_lor_zero.
      rewrite Forall_forall in Ht, Hcu. auto.
Qed.

Lemma solve_true_iff_tiling (b : board) :
  0 <= blockers_ b < 2 ^ 64 ->
  fst (solve b) = true <-> exists chosen, is_tiling shape_order (blockers_ b) chosen.
Proof.
  intros Hw. pose proof (solve_reference_spec b Hw) as H.
  rewrite solve_reference_unfold in H. split.
  - intros Hs. destruct (dfs_reference shape_order (blockers_ b)) as [chosen|] eqn:E.
    + exists chosen. now apply dfs_reference_sound.
    + destruct H as [H _]. rewrite H in Hs. discriminate.
  - intros (chosen & Hc). apply dfs_reference_complete in Hc.
    destruct (dfs_reference shape_order (blockers_ b)); [tauto|contradiction].
Qed.

(** X12: What [solve] returns, and the board it leaves on success, depend on
    the blockers alone, not on what the other members held: [solve] reads
    no member before it has set it. *)
Theorem solve_reads_blockers_only (b b' : board) :
  0 <= blockers_ b < 2 ^ 64 -> blockers_ b = blockers_ b' ->
  fst (solve b) = fst (solve b') /\
  (fst (solve b) = true -> snd (solve b) = snd (solve b')).
Proof.
  intros Hw E.
  pose proof (solve_reference_spec b Hw) as H.
  pose proof (solve_reference_spec b') as H'. rewrite <- E in H'.
  specialize (H' Hw).
  destruct (solve_reference (blockers_ b)) as [chosen|].
  - destruct H as (H1 & H2 & H3), H' as (H1' & H2' & H3').
    split; [congruence|]. intros _.
    revert H2 H3 H2' H3'. generalize (snd (solve b)) (snd (solve b')).
    intros [x0 x1 x2 x3 x4 x5 x6 x7 x8] [y0 y1 y2 y3 y4 y5 y6 y7 y8].
    unfold placements.
    cbn [blockers_ line4_ square2_2_ lblock3_ zblock_ tblock_ line3_ lblock2_
         line2_].
    intros <- -> K ->. now injection K as -> -> -> -> -> -> -> ->.
  - destruct H as [H1 _], H' as [H1' _]. split; [congruence|].
    intros Ht. congruence.
Qed.

Lemma solve_reads_blockers_only_readme :
  fst (solve (board_ctor zero_board readme_blockers))
  = fst (solve (mk_board readme_blockers 1 2 3 4 5 6 7 8)) /\
  (fst (solve (board_ctor zero_board readme_blockers)) = true ->
   snd (solve (board_ctor zero_board readme_blockers))
   = snd (solve (mk_board readme_blockers 1 2 3 4 5 6 7 8))).
Proof.
  apply (solve_reads_blockers_only (board_ctor zero_board readme_blockers)
           (mk_board readme_blockers 1 2 3 4 5 6 7 8)).
  - vm_compute. split; [discriminate|reflexivity].
  - reflexivity.
Defined.

Lemma land_cells (t : Z) : 0 <= t < 2 ^ 36 -> Z.land t all_cells = t.
Proof.
  intros H. change all_cells with (Z.ones 36).
  rewrite Z.land_ones by lia. now apply Z.mod_small.
Qed.

Lemma first_fit_ext (next next' : Z -> option (list Z)) (used used' : Z)
  (cands : list Z) :
  (forall t, In t cands -> (Z.land t used =? 0) = (Z.land t used' =? 0)) ->
  (forall t, In t cands -> Z.land t used = 0 -> next t = next' t) ->
  first_fit next used cands = first_fit next' used' cands.
Proof.
  induction cands as [|t cands IH]; intros Hd Hn; cbn [first_fit]; [reflexivity|].
  rewrite <- (Hd t) by (now left).
  rewrite (IH (fun x H => Hd x (or_intror H)) (fun x H => Hn x (or_intror H))).
  destruct (Z.eqb_spec (Z.land t used) 0) as [E|E]; [|reflexivity].
  now rewrite (Hn t) by (assumption || now left).
Qed.

Lemma dfs_reference_ext (catalogs : list (list Z)) :
  Forall (Forall (fun t => 0 <= t < 2 ^ 36)) catalogs ->
  forall used used',
    (forall t, 0 <= t < 2 ^ 36 -> Z.land t used = 0 <-> Z.land t used' = 0) ->
    dfs_reference catalogs used = dfs_reference catalogs used'.
Proof.
  induction 1 as [|shape rest Hs Hr IH]; intros used used' R;
    cbn [dfs_reference]; [reflexivity|].
  rewrite Forall_forall in Hs.
  apply first_fit_ext.
  - intros t Ht. specialize (R t (Hs t Ht)).
    destruct (Z.eqb_spec (Z.land t used) 0), (Z.eqb_spec (Z.land t used') 0);
      tauto.
  - intros t Ht _. apply IH. intros x Hx.
    rewrite !land_lor_zero, (R x Hx). tauto.
Qed.

Lemma dfs_reference_board_cells (used : Z) :
  dfs_reference shape_order used
  = dfs_reference shape_order (Z.land used all_cells).
Proof.
  apply dfs_reference_ext; [exact shape_order_cells|].
  intros t Ht.
  now rewrite (Z.land_comm used), Z.land_assoc, land_cells.
Qed.

(** ** [assert_consistent_] *)

Lemma single_bit_popcount (u : Z) :
  0 < u -> Z.land u (u - 1) = 0 -> popcount u = 1%nat.
Proof.
  intros Hu Hl. pose proof (Z.log2_spec u Hu) as [Hlo Hhi].
  pose proof (Z.log2_nonneg u) as Hk.
  destruct (Z.eq_dec u (2 ^ Z.log2 u)) as [E|N].
  - rewrite E. now apply popcount_pow2.
  - exfalso.
    assert (L : Z.log2 (u - 1) = Z.log2 u) by (apply Z.log2_unique; lia).
    assert (T : Z.testbit (Z.land u (u - 1)) (Z.log2 u) = true).
    { rewrite Z.land_spec, Z.bit_log2 by lia.
      rewrite <- L. rewrite Z.bit_log2; [reflexivity|].
      assert (0 < 2 ^ Z.log2 u) by (apply Z.pow_pos_nonneg; lia). lia. }
    rewrite Hl, Z.bits_0 in T. discriminate.
Qed.

Lemma lxor_cells (a b : Z) :
  0 <= a < 2 ^ 36 -> 0 <= b < 2 ^ 36 -> 0 <= Z.lxor a b < 2 ^ 36.
Proof.
  intros Ha Hb.
  assert (Hn : 0 <= Z.lxor a b) by (apply Z.lxor_nonneg; lia).
  split; [assumption|].
  destruct (Z.eq_dec (Z.lxor a b) 0) as [->|N]; [reflexivity|].
  apply Z.log2_lt_pow2; [lia|].
  pose proof (Z.log2_lxor a b ltac:(lia) ltac:(lia)) as M.
  assert (Z.log2 a < 36).
  { destruct (Z.eq_dec a 0) as [->|]; [cbn; lia|apply Z.log2_lt_pow2; lia]. }
  assert (Z.log2 b < 36).
  { destruct (Z.eq_dec b 0) as [->|]; [cbn; lia|apply Z.log2_lt_pow2; lia]. }
  lia.
Qed.

(** X14: After a successful [solve] the assertions of [assert_consistent_] hold
    exactly when the board has seven blockers: it asserts that a single
    cell is left for the single block. *)
Theorem solve_assertions_iff_seven_blockers (b : board) :
  0 <= blockers_ b < 2 ^ 36 -> fst (solve b) = true ->
  assert_consistent_ (snd (solve b)) = true <-> popcount (blockers_ b) = 7%nat.
Proof.
  intros Hb Hs.
  destruct (solve_success_tiling b Hb Hs) as [Ht _].
  pose proof (solve_keeps_blockers b) as Hk.
  revert Ht Hk. generalize (snd (solve b)). clear Hs. intros b' Ht Hk.
  split.
  - intros H.
    destruct (tiling_facts _ _ Hb Ht) as (_ & Hrange & _ & Hcount).
    rewrite <- Hk, <- all_bits_fold in Hrange, Hcount. rewrite Hk in Hcount.
    unfold assert_consistent_ in H. cbv zeta in H.
    apply andb_true_iff in H. destruct H as [H H3].
    apply andb_true_iff in H. destruct H as [_ H2].
    set (u := Z.lxor all_cells (all_bits b')) in *.
    assert (Hu : 0 <= u < 2 ^ 36)
      by (apply lxor_cells; [vm_compute; split; congruence|assumption]).
    assert (N : u <> 0) by (intros E; rewrite E in H2; discriminate).
    rewrite wrap64_small in H3 by (unfold word; lia).
    apply Z.eqb_eq in H3.
    pose proof (single_bit_popcount u ltac:(lia) H3) as P.
    pose proof (popcount_complement _ Hrange) as C. fold u in C. lia.
  - intros H7. apply assert_consistent_holds; rewrite ?Hk; assumption.
Qed.

Lemma solve_assertions_iff_seven_blockers_readme :
  assert_consistent_ (snd (solve (board_ctor zero_board readme_blockers))) = true
  <-> popcount (blockers_ (board_ctor zero_board readme_blockers)) = 7%nat.
Proof.
  apply (solve_assertions_iff_seven_blockers (board_ctor zero_board readme_blockers)).
  - vm_compute. split; [discriminate|reflexivity].
  - vm_compute. reflexivity.
Defined.

(** ** [solve] as written: the search and its assertion *)

(** The three ways [board::solve] can end: [return true] after
    [assert_consistent_()] has passed, [return false], or the assertion
    stopping the program. *)
Lemma solve_asserting_cases (b : board) :
  (forall b', solve_asserting b = Some (true, b') <->
              fst (solve b) = true /\ assert_consistent_ (snd (solve b)) = true /\
              b' = snd (solve b)) /\
  (forall b', solve_asserting b = Some (false, b') <->
              fst (solve b) = false /\ b' = snd (solve b)) /\
  (solve_asserting b = None <->
   fst (solve b) = true /\ assert_consistent_ (snd (solve b)) = false).
Proof.
  unfold solve_asserting. cbv zeta.
  destruct (solve b) as [ok r]. cbn [fst snd].
  destruct ok, (assert_consistent_ r); cbn [andb negb];
    (split; [|split]); try intros b'; split; intros H;
    try discriminate; try (destruct H as (? & ? & ?); discriminate);
    try (destruct H as (? & ?); discriminate);
    try (injection H as <-; auto);
    try (destruct H as (_ & _ & ->); reflexivity);
    try (destruct H as (_ & ->); reflexivity); auto.
Qed.

(** On a tiling of a board within the 36 cells the assertions of
    [assert_consistent_] hold exactly when seven cells are blocked. *)
Lemma assert_consistent_tiling (b : board) :
  0 <= blockers_ b < 2 ^ 36 ->
  is_tiling shape_order (blockers_ b) (placements b) ->
  assert_consistent_ b = true <-> popcount (blockers_ b) = 7%nat.
Proof.
  intros Hb Ht. split; [|intros H7; now apply assert_consistent_holds].
  intros H.
  destruct (tiling_facts _ _ Hb Ht) as (_ & Hrange & _ & Hcount).
  rewrite <- all_bits_fold in Hrange, Hcount.
  unfold assert_consistent_ in H. cbv zeta in H.
  apply andb_true_iff in H. destruct H as [H H3].
  apply andb_true_iff in H. destruct H as [_ H2].
  set (u := Z.lxor all_cells (all_bits b)) in *.
  assert (Hu : 0 <= u < 2 ^ 36)
    by (apply lxor_cells; [vm_compute; split; congruence|assumption]).
  assert (N : u <> 0) by (intros E; rewrite E in H2; discriminate).
  rewrite wrap64_small in H3 by (unfold word; lia).
  apply Z.eqb_eq in H3.
  pose proof (single_bit_popcount u ltac:(lia) H3) as P.
  pose proof (popcount_complement _ Hrange) as C. fold u in C. lia.
Qed.

(** What [board::solve] does on a board within the 36 cells, from what its
    search finds: a failed search returns false, a successful one returns
    true on seven blockers and trips the assertion on any other number. *)
Lemma solve_asserting_outcome (b : board) :
  0 <= blockers_ b < 2 ^ 36 ->
  solve_asserting b
  = if fst (solve b) && negb (popcount (blockers_ b) =? 7)%nat
    then None else Some (solve b).
Proof.
  intros Hb. unfold solve_asserting. cbv zeta.
  destruct (fst (solve b)) eqn:E; [|reflexivity]. cbn [andb].
  destruct (solve_success_tiling b Hb E) as [Ht _].
  pose proof (solve_keeps_blockers b) as Hk.
  assert (A : assert_consistent_ (snd (solve b)) = true
              <-> popcount (blockers_ b) = 7%nat).
  { rewrite <- Hk. apply assert_consistent_tiling; rewrite Hk; assumption. }
  destruct (Nat.eqb_spec (popcount (blockers_ b)) 7) as [H7|H7];
    destruct (assert_consistent_ (snd (solve b))); cbn [negb];
    try reflexivity.
  - destruct A as [_ A]. specialize (A H7). discriminate.
  - destruct A as [A _]. specialize (A eq_refl). contradiction.
Qed.

Lemma solve_true_iff_solvable (b : board) :
  0 <= blockers_ b < 2 ^ 64 -> fst (solve b) = true <-> solvable (blockers_ b).
Proof.
  intros Hw. rewrite (solve_true_iff_tiling b Hw). unfold solvable.
  split; intros (chosen & H); exists chosen; now apply is_tiling_iff.
Qed.

(** C2: for blockers within the 36 cells, at most seven of them, when
    [solve] returns success the blockers and the eight placements it has
    recorded are pairwise disjoint and their union is 35 of the 36 cells:
    one cell is left uncovered.  ([solve] returns success only past its
    [assert_consistent_()], which checks just that.) *)
Theorem solve_success_leaves_one_cell (b b' : board) :
  0 <= blockers_ b < 2 ^ 36 -> (popcount (blockers_ b) <= 7)%nat ->
  solve_asserting b = Some (true, b') ->
  blockers_ b' = blockers_ b /\
  pairwise_disjoint (blockers_ b' :: placements b') /\
  0 <= all_bits b' < 2 ^ 36 /\
  popcount (all_bits b') = 35%nat.
Proof.
  intros Hb _ H.
  apply (proj1 (solve_asserting_cases b)) in H. destruct H as (Hs & Ha & ->).
  destruct (solve_success_tiling b Hb Hs) as [Ht _].
  pose proof (solve_keeps_blockers b) as Hk.
  revert Ht Hk Ha. generalize (snd (solve b)). clear Hs. intros r Ht Hk Ha.
  rewrite <- Hk in Hb, Ht.
  destruct (tiling_facts _ _ Hb Ht) as (Hd & Hr & _ & Hc).
  rewrite <- all_bits_fold in Hr, Hc.
  apply (assert_consistent_tiling r Hb Ht) in Ha.
  repeat split; try assumption; try lia.
Qed.

Lemma solve_success_leaves_one_cell_readme :
  let r := snd (solve (board_ctor zero_board readme_blockers)) in
  blockers_ r = readme_blockers /\
  pairwise_disjoint (blockers_ r :: placements r) /\
  0 <= all_bits r < 2 ^ 36 /\
  popcount (all_bits r) = 35%nat.
Proof.
  apply (solve_success_leaves_one_cell (board_ctor zero_board readme_blockers)
           (snd (solve (board_ctor zero_board readme_blockers)))).
  - vm_compute. split; [discriminate|reflexivity].
  - vm_compute. lia.
  - vm_compute. reflexivity.
Defined.

(** C3 as it stands fails on a board the reference search solves with other
    than seven cells blocked: on the six blockers C4 B1 E5 A6 D2 C5 the
    reference search succeeds, and [solve], having found the same
    placements, is stopped by its assertion instead of returning. *)
Lemma solve_stops_where_reference_succeeds :
  fold_left Z.lor (map sbit_id ["C4"; "B1"; "E5"; "A6"; "D2"; "C5"]%string) 0
  = 269058144 /\
  0 <= 269058144 < 2 ^ 36 /\
  solve_reference 269058144
  = Some [15; 24960; 14811136; 6492782592; 3600; 60129542144; 202375168; 266240] /\
  placements (snd (solve (board_ctor zero_board 269058144)))
  = [15; 24960; 14811136; 6492782592; 3600; 60129542144; 202375168; 266240] /\
  solve_asserting (board_ctor zero_board 269058144) = None.
Proof.
  vm_compute. repeat split; try reflexivity; discriminate.
Qed.

(** C3, amended: for blockers within the 36 cells, the unrolled [solve]
    follows the reference depth-first search: where the reference search
    fails [solve] returns failure; where it succeeds on seven blockers
    [solve] returns success with the same eight placements; where it
    succeeds on another number of blockers [solve] does not return, its
    assertion stops the program. *)
Theorem solve_refines_reference_on_seven (b : board) :
  0 <= blockers_ b < 2 ^ 36 ->
  match solve_reference (blockers_ b) with
  | None => exists b', solve_asserting b = Some (false, b')
  | Some chosen =>
      if (popcount (blockers_ b) =? 7)%nat
      then exists b', solve_asserting b = Some (true, b') /\ placements b' = chosen
      else solve_asserting b = None
  end.
Proof.
  intros Hb. rewrite (solve_asserting_outcome b Hb).
  pose proof (solve_reference_spec b (cells_word _ Hb)) as H.
  destruct (solve_reference (blockers_ b)) as [chosen|].
  - destruct H as (H1 & H2 & _). rewrite H1. cbn [andb].
    destruct (popcount (blockers_ b) =? 7)%nat; cbn [negb]; [|reflexivity].
    assert (P : solve b = (true, snd (solve b)))
      by (rewrite <- H1; now destruct (solve b)).
    exists (snd (solve b)). split; [now f_equal|assumption].
  - destruct H as [H1 _]. rewrite H1. cbn [andb].
    assert (P : solve b = (false, snd (solve b)))
      by (rewrite <- H1; now destruct (solve b)).
    exists (snd (solve b)). now f_equal.
Qed.

Lemma solve_refines_reference_on_seven_readme :
  match solve_reference readme_blockers with
  | None => exists b', solve_asserting (board_ctor zero_board readme_blockers)
                       = Some (false, b')
  | Some chosen =>
      if (popcount readme_blockers =? 7)%nat
      then exists b', solve_asserting (board_ctor zero_board readme_blockers)
                      = Some (true, b') /\ placements b' = chosen
      else solve_asserting (board_ctor zero_board readme_blockers) = None
  end.
Proof.
  apply (solve_refines_reference_on_seven (board_ctor zero_board readme_blockers)).
  vm_compute. split; [discriminate|reflexivity].
Defined.

(** C9 as it stands fails: on the empty blocker mask [solve] does not
    return success, its assertion stops the program. *)
Lemma solve_stops_on_empty_board :
  solve_asserting (board_ctor zero_board 0) = None.
Proof. vm_compute. reflexivity. Qed.

(** C9, amended: on the empty blocker mask the search of [solve] reaches
    its [return true], whatever the board held before, with the eight
    shapes placed pairwise disjointly; eight cells, not one, are then left
    uncovered, so the [assert_consistent_()] before that [return] fails and
    [solve] does not return. *)
Theorem solve_empty_board_trips_assertion (storage : board) :
  fst (solve (board_ctor storage 0)) = true /\
  placements (snd (solve (board_ctor storage 0)))
  = [15; 3120; 28928; 12681216; 35389440; 469762048; 52076478464; 192] /\
  pairwise_disjoint (0 :: placements (snd (solve (board_ctor storage 0)))) /\
  popcount (Z.lxor all_cells (all_bits (snd (solve (board_ctor storage 0)))))
  = 8%nat /\
  solve_asserting (board_ctor storage 0) = None.
Proof.
  pose proof (solve_reference_spec (board_ctor storage 0)) as H.
  cbn [blockers_ board_ctor] in H.
  assert (E : solve_reference 0
              = Some [15; 3120; 28928; 12681216; 35389440; 469762048;
                      52076478464; 192]) by (vm_compute; reflexivity).
  rewrite E in H. destruct H as (H1 & H2 & H3); [unfold word; lia|].
  split; [assumption|]. split; [assumption|].
  rewrite all_bits_fold, H2, H3. split; [|split].
  - unfold pairwise_disjoint.
    repeat (constructor; [repeat (constructor; [reflexivity|]); constructor|]).
    constructor.
  - reflexivity.
  - rewrite solve_asserting_outcome by (cbn [blockers_ board_ctor]; lia).
    rewrite H1. reflexivity.
Qed.

(** X11: what [solve] does on a board within the 36 cells is decided by
    whether the board has a solution and by the number of blockers: it
    returns true exactly when there is a solution and seven cells are
    blocked, returns false exactly when there is no solution, and is
    stopped by its assertion exactly when there is a solution and another
    number of cells is blocked. *)
Theorem solve_outcome (b : board) :
  0 <= blockers_ b < 2 ^ 36 ->
  ((exists b', solve_asserting b = Some (true, b'))
   <-> solvable (blockers_ b) /\ popcount (blockers_ b) = 7%nat) /\
  ((exists b', solve_asserting b = Some (false, b'))
   <-> ~ solvable (blockers_ b)) /\
  (solve_asserting b = None
   <-> solvable (blockers_ b) /\ popcount (blockers_ b) <> 7%nat).
Proof.
  intros Hb.
  pose proof (solve_true_iff_solvable b (cells_word _ Hb)) as S.
  rewrite (solve_asserting_outcome b Hb).
  destruct (fst (solve b)) eqn:E; cbn [andb];
    destruct (Nat.eqb_spec (popcount (blockers_ b)) 7) as [H7|H7]; cbn [negb].
  - assert (Hs : solvable (blockers_ b)) by (now apply S).
    split; [|split].
    + split; [tauto|]. intros _. exists (snd (solve b)).
      f_equal. rewrite <- E. now destruct (solve b).
    + split; [|tauto]. intros (b' & H). rewrite (surjective_pairing (solve b)) in H.
      rewrite E in H. discriminate.
    + split; [discriminate|]. tauto.
  - assert (Hs : solvable (blockers_ b)) by (now apply S).
    split; [|split].
    + split; [intros (b' & H); discriminate|tauto].
    + split; [intros (b' & H); discriminate|tauto].
    + tauto.
  - assert (Hs : ~ solvable (blockers_ b))
      by (intros H; apply S in H; discriminate).
    split; [|split].
    + split; [|tauto]. intros (b' & H). rewrite (surjective_pairing (solve b)) in H.
      rewrite E in H. discriminate.
    + split; [tauto|]. intros _. exists (snd (solve b)).
      f_equal. rewrite <- E. now destruct (solve b).
    + split; [discriminate|tauto].
  - assert (Hs : ~ solvable (blockers_ b))
      by (intros H; apply S in H; discriminate).
    split; [|split].
    + split; [|tauto]. intros (b' & H). rewrite (surjective_pairing (solve b)) in H.
      rewrite E in H. discriminate.
    + split; [tauto|]. intros _. exists (snd (solve b)).
      f_equal. rewrite <- E. now destruct (solve b).
    + split; [discriminate|tauto].
Qed.

Lemma solve_outcome_readme :
  ((exists b', solve_asserting (board_ctor zero_board readme_blockers)
               = Some (true, b'))
   <-> solvable readme_blockers /\ popcount readme_blockers = 7%nat) /\
  ((exists b', solve_asserting (board_ctor zero_board readme_blockers)
               = Some (false, b'))
   <-> ~ solvable readme_blockers) /\
  (solve_asserting (board_ctor zero_board readme_blockers) = None
   <-> solvable readme_blockers /\ popcount readme_blockers <> 7%nat).
Proof.
  apply (solve_outcome (board_ctor zero_board readme_blockers)).
  vm_compute. split; [discriminate|reflexivity].
Defined.

(** X13: whether [solve] returns false is decided by the 36 cells of the
    board alone: it returns false on a mask exactly when it returns false
    on the mask without its bits above the board.  (The assertion does read
    those bits, so a success need not carry over.) *)
Theorem solve_failure_sees_board_cells_only (storage : board) (blockers : Z) :
  0 <= blockers < 2 ^ 64 ->
  (exists b', solve_asserting (board_ctor storage blockers) = Some (false, b'))
  <->
  (exists b', solve_asserting (board_ctor storage (Z.land blockers all_cells))
              = Some (false, b')).
Proof.
  intros Hw.
  assert (Hw' : 0 <= Z.land blockers all_cells < 2 ^ 64).
  { change all_cells with (Z.ones 36). rewrite Z.land_ones by lia.
    assert (0 <= blockers mod 2 ^ 36 < 2 ^ 36) by (apply Z.mod_pos_bound; lia).
    assert (2 ^ 36 < 2 ^ 64) by reflexivity. lia. }
  pose proof (solve_reference_spec (board_ctor storage blockers) Hw) as H.
  pose proof (solve_reference_spec
                (board_ctor storage (Z.land blockers all_cells)) Hw') as H'.
  cbn [blockers_ board_ctor] in H, H'.
  assert (R : solve_reference blockers
              = solve_reference (Z.land blockers all_cells)).
  { rewrite (solve_reference_unfold blockers),
      (solve_reference_unfold (Z.land blockers all_cells)).
    apply dfs_reference_board_cells. }
  rewrite <- R in H'.
  assert (F : forall b, (exists b', solve_asserting b = Some (false, b'))
                        <-> fst (solve b) = false).
  { intros b. split.
    - intros (b' & E). now apply (proj1 (proj2 (solve_asserting_cases b))) in E.
    - intros E. exists (snd (solve b)).
      now apply (proj1 (proj2 (solve_asserting_cases b))). }
  rewrite !F.
  destruct (solve_reference blockers) as [chosen|].
  - destruct H as (H1 & _), H' as (H1' & _). rewrite H1, H1'. tauto.
  - destruct H as [H1 _], H' as [H1' _]. rewrite H1, H1'. tauto.
Qed.

Lemma solve_failure_sees_board_cells_only_full_board :
  (exists b', solve_asserting (board_ctor zero_board (Z.lor all_cells (2 ^ 36)))
              = Some (false, b'))
  <->
  (exists b', solve_asserting
                (board_ctor zero_board
                   (Z.land (Z.lor all_cells (2 ^ 36)) all_cells))
              = Some (false, b')).
Proof.
  apply (solve_failure_sees_board_cells_only zero_board (Z.lor all_cells (2 ^ 36))).
  vm_compute. split; [discriminate|reflexivity].
Defined.

(** ** [piece_at] *)

Lemma popcount_double (a : Z) (b : bool) :
  0 <= a -> popcount (2 * a + Z.b2z b) = ((if b then 1 else 0) + popcount a)%nat.
Proof. destruct a as [|p|p], b; intros H; try lia; reflexivity. Qed.

Lemma filter_map_length {A B : Type} (f : B -> bool) (g : A -> B) (l : list A) :
  List.length (filter f (map g l)) = List.length (filter (fun x => f (g x)) l).
Proof.
  induction l as [|x l IH]; [reflexivity|].
  cbn [map filter]. destruct (f (g x)); cbn [List.length]; now rewrite IH.
Qed.

Lemma popcount_bits (n : nat) :
  forall m, 0 <= m < 2 ^ Z.of_nat n ->
    popcount m
    = List.length (filter (fun i => Z.testbit m (Z.of_nat i)) (seq 0 n)).
Proof.
  induction n as [|n IH]; intros m Hm.
  - assert (m = 0) by (cbn in Hm; lia). subst. reflexivity.
  - rewrite (Z.div2_odd m) at 1.
    assert (Hd : 0 <= Z.div2 m < 2 ^ Z.of_nat n).
    { rewrite Z.div2_div. rewrite Nat2Z.inj_succ, Z.pow_succ_r in Hm by lia.
      split; [apply Z.div_pos; lia|apply Z.div_lt_upper_bound; lia]. }
    rewrite popcount_double by lia.
    assert (E : List.length
                  (filter (fun i => Z.testbit m (Z.of_nat i)) (map S (seq 0 n)))
                = popcount (Z.div2 m)).
    { rewrite filter_map_length, (IH (Z.div2 m) Hd). f_equal.
      apply filter_ext. intros i. rewrite Nat2Z.inj_succ.
      rewrite Z.div2_spec, Z.shiftr_spec by lia. now rewrite Z.add_1_r. }
    cbn [seq]. rewrite <- seq_shift. cbn [filter].
    change (Z.of_nat 0) with 0. rewrite Z.bit0_odd.
    destruct (Z.odd m); cbn [List.length]; now rewrite E.
Qed.

Lemma grid_cells (row col : Z) :
  In (row, col) grid <-> 0 <= row < 6 /\ 0 <= col < 6.
Proof.
  split.
  - intros H.
    assert (F : forallb (fun rc => (0 <=? fst rc) && (fst rc <? 6)
                                   && (0 <=? snd rc) && (snd rc <? 6)) grid = true)
      by reflexivity.
    rewrite forallb_forall in F. specialize (F _ H). cbn [fst snd] in F. lia.
  - intros [Hr Hc].
    assert (row = 0 \/ row = 1 \/ row = 2 \/ row = 3 \/ row = 4 \/ row = 5) by lia.
    assert (col = 0 \/ col = 1 \/ col = 2 \/ col = 3 \/ col = 4 \/ col = 5) by lia.
    unfold grid. cbn.
    repeat match goal with H : _ \/ _ |- _ => destruct H end; subst; tauto.
Qed.

(** Whether a cell lies in a mask is the mask's bit [row * 6 + col]. *)
Lemma sbit_meets (m row col : Z) :
  0 <= row -> 0 <= col ->
  negb (Z.land (sbit row col) m =? 0) = Z.testbit m (row * 6 + col).
Proof.
  intros Hr Hc. rewrite sbit_pow2, Z.land_comm, land_pow2_cases by lia.
  destruct (Z.testbit m (row * 6 + col)); [|reflexivity].
  assert (0 < 2 ^ (row * 6 + col)) by (apply Z.pow_pos_nonneg; lia).
  destruct (Z.eqb_spec (2 ^ (row * 6 + col)) 0); [lia|reflexivity].
Qed.

(** A mask within the board meets as many cells of the grid as it has bits. *)
Lemma grid_count (m : Z) :
  0 <= m < 2 ^ 36 ->
  List.length (filter (fun rc => negb (Z.land (sbit (fst rc) (snd rc)) m =? 0)) grid)
  = popcount m.
Proof.
  intros Hm. rewrite (popcount_bits 36 m Hm).
  change (seq 0 36) with (map (fun rc => Z.to_nat (fst rc * 6 + snd rc)) grid).
  rewrite filter_map_length. f_equal. apply filter_ext_in.
  intros [row col] Hin. apply grid_cells in Hin. cbn [fst snd].
  rewrite sbit_meets by lia. f_equal. lia.
Qed.

Lemma piece_at_testbit (b : board) (row col : Z) :
  0 <= row -> 0 <= col ->
  piece_at b row col
  = let k := row * 6 + col in
    if Z.testbit (blockers_ b) k then piece_id.blockers
    else if Z.testbit (line4_ b) k then piece_id.line4
    else if Z.testbit (square2_2_ b) k then piece_id.square2_2
    else if Z.testbit (lblock3_ b) k then piece_id.lblock3
    else if Z.testbit (zblock_ b) k then piece_id.zblock
    else if Z.testbit (tblock_ b) k then piece_id.tblock
    else if Z.testbit (line3_ b) k then piece_id.line3
    else if Z.testbit (lblock2_ b) k then piece_id.lblock2
    else if Z.testbit (line2_ b) k then piece_id.line2
    else piece_id.single_block.
Proof.
  intros Hr Hc. unfold piece_at. cbv zeta.
  now rewrite !sbit_meets by assumption.
Qed.

Lemma disjoint_bits (a b k : Z) :
  Z.land a b = 0 -> Z.testbit a k && Z.testbit b k = false.
Proof. intros H. now rewrite <- Z.land_spec, H, Z.bits_0. Qed.

Lemma piece_at_mask (b : board) (row col : Z) (p : piece_id.t) :
  pairwise_disjoint (blockers_ b :: placements b) ->
  0 <= row -> 0 <= col -> p <> piece_id.single_block ->
  piece_at b row col = p <-> Z.testbit (piece_mask b p) (row * 6 + col) = true.
Proof.
  intros Hd Hr Hc Hp. rewrite piece_at_testbit by assumption. cbv zeta.
  unfold placements in Hd.
  repeat (rewrite pairwise_disjoint_cons in Hd || rewrite Forall_cons_iff in Hd).
  cbv beta in Hd.
  set (k := row * 6 + col).
  repeat match goal with
         | H : _ /\ _ |- _ => destruct H
         | H : Forall _ [] |- _ => clear H
         | H : ForallOrdPairs _ [] |- _ => clear H
         | H : pairwise_disjoint [] |- _ => clear H
         | H : Z.land _ _ = 0 |- _ => apply disjoint_bits with (k := k) in H
         end.
  destruct (Z.testbit (blockers_ b) k) eqn:T0;
  destruct (Z.testbit (line4_ b) k) eqn:T1; cbn [andb] in *; try discriminate;
  destruct (Z.testbit (square2_2_ b) k) eqn:T2; cbn [andb] in *; try discriminate;
  destruct (Z.testbit (lblock3_ b) k) eqn:T3; cbn [andb] in *; try discriminate;
  destruct (Z.testbit (zblock_ b) k) eqn:T4; cbn [andb] in *; try discriminate;
  destruct (Z.testbit (tblock_ b) k) eqn:T5; cbn [andb] in *; try discriminate;
  destruct (Z.testbit (line3_ b) k) eqn:T6; cbn [andb] in *; try discriminate;
  destruct (Z.testbit (lblock2_ b) k) eqn:T7; cbn [andb] in *; try discriminate;
  destruct (Z.testbit (line2_ b) k) eqn:T8; cbn [andb] in *; try discriminate;
  destruct p; cbn [piece_mask]; try contradiction;
  rewrite ?T0, ?T1, ?T2, ?T3, ?T4, ?T5, ?T6, ?T7, ?T8;
  split; intros; congruence.
Qed.

Lemma piece_index_inj (p q : piece_id.t) :
  (piece_index p =? piece_index q)%nat = true <-> p = q.
Proof. destruct p, q; cbn; split; intros; congruence. Qed.

Lemma cells_showing_count (b : board) (p : piece_id.t) :
  pairwise_disjoint (blockers_ b :: placements b) ->
  0 <= piece_mask b p < 2 ^ 36 -> p <> piece_id.single_block ->
  List.length (cells_showing b p) = popcount (piece_mask b p).
Proof.
  intros Hd Hm Hp. rewrite <- (grid_count _ Hm). unfold cells_showing.
  f_equal. apply filter_ext_in. intros [row col] Hin.
  apply grid_cells in Hin. cbn [fst snd]. rewrite sbit_meets by lia.
  pose proof (piece_at_mask b row col p Hd ltac:(lia) ltac:(lia) Hp) as H.
  pose proof (piece_index_inj (piece_at b row col) p) as I.
  destruct (Z.testbit (piece_mask b p) (row * 6 + col));
    destruct (piece_index (piece_at b row col) =? piece_index p)%nat;
    try reflexivity.
  - destruct H as [_ H]. specialize (H eq_refl). apply I in H. discriminate.
  - destruct I as [I _]. specialize (I eq_refl). apply H in I. discriminate.
Qed.

Lemma showing_partition (b : board) (l : list (Z * Z)) :
  let showing p :=
    List.length
      (filter (fun rc =>
                 (piece_index (piece_at b (fst rc) (snd rc)) =? piece_index p)%nat)
         l) in
  (showing piece_id.single_block + showing piece_id.line2
   + showing piece_id.line3 + showing piece_id.line4
   + showing piece_id.square2_2 + showing piece_id.lblock2
   + showing piece_id.lblock3 + showing piece_id.zblock
   + showing piece_id.tblock + showing piece_id.blockers
   = List.length l)%nat.
Proof.
  cbv zeta. induction l as [|rc l IH]; [reflexivity|].
  cbn [filter]. destruct (piece_at b (fst rc) (snd rc));
    cbn [piece_index Nat.eqb List.length] in IH |- *; lia.
Qed.

Lemma cells_showing_partition (b : board) :
  (List.length (cells_showing b piece_id.single_block)
   + List.length (cells_showing b piece_id.line2)
   + List.length (cells_showing b piece_id.line3)
   + List.length (cells_showing b piece_id.line4)
   + List.length (cells_showing b piece_id.square2_2)
   + List.length (cells_showing b piece_id.lblock2)
   + List.length (cells_showing b piece_id.lblock3)
   + List.length (cells_showing b piece_id.zblock)
   + List.length (cells_showing b piece_id.tblock)
   + List.length (cells_showing b piece_id.blockers) = 36)%nat.
Proof. exact (showing_partition b grid). Qed.

(** X15: On a board whose blockers and placements are pairwise disjoint, as
    [assert_consistent_] checks, the order in which [piece_at] tests the
    masks does not matter: it gives a piece exactly on the cells of its
    mask, and the single block on the cells of none. *)
Theorem piece_at_finds_the_piece (b : board) (row col : Z) (p : piece_id.t) :
  pairwise_disjoint (blockers_ b :: placements b) ->
  0 <= row < 6 -> 0 <= col < 6 ->
  piece_at b row col = p <->
  if (piece_index p =? 0)%nat
  then Z.land (sbit row col) (all_bits b) = 0
  else Z.land (sbit row col) (piece_mask b p) <> 0.
Proof.
  intros Hd Hr Hc.
  assert (M : forall m, Z.land (sbit row col) m <> 0
                        <-> Z.testbit m (row * 6 + col) = true).
  { intros m. rewrite <- sbit_meets by lia.
    destruct (Z.eqb_spec (Z.land (sbit row col) m) 0); cbn; split;
      intros; congruence. }
  destruct (piece_index p =? 0)%nat eqn:E.
  - assert (p = piece_id.single_block) as -> by (now destruct p).
    rewrite piece_at_testbit by lia. cbv zeta.
    assert (Z : Z.land (sbit row col) (all_bits b) = 0
                <-> Z.testbit (all_bits b) (row * 6 + col) = false).
    { specialize (M (all_bits b)).
      destruct (Z.testbit (all_bits b) (row * 6 + col));
        destruct (Z.eq_dec (Z.land (sbit row col) (all_bits b)) 0); split;
        intros; try congruence; try tauto.
      destruct M as [M _]. specialize (M n). discriminate. }
    rewrite Z. unfold all_bits. rewrite !Z.lor_spec.
    destruct (Z.testbit (blockers_ b) _), (Z.testbit (line4_ b) _),
      (Z.testbit (square2_2_ b) _), (Z.testbit (lblock3_ b) _),
      (Z.testbit (zblock_ b) _), (Z.testbit (tblock_ b) _),
      (Z.testbit (line3_ b) _), (Z.testbit (lblock2_ b) _),
      (Z.testbit (line2_ b) _); cbn; split; intros; congruence.
  - rewrite M. apply piece_at_mask; try lia; try assumption.
    intros ->. discriminate.
Qed.

Lemma piece_at_finds_the_piece_C4 :
  piece_at (mk_board (sbit 2 3) 1 2 4 8 16 32 64 128) 2 3 = piece_id.blockers <->
  Z.land (sbit 2 3) (sbit 2 3) <> 0.
Proof.
  apply (piece_at_finds_the_piece (mk_board (sbit 2 3) 1 2 4 8 16 32 64 128)
           2 3 piece_id.blockers); [|lia|lia].
  unfold pairwise_disjoint, placements. cbn [blockers_ line4_ square2_2_ lblock3_ zblock_ tblock_ line3_ lblock2_ line2_].
  repeat (apply FOP_cons; [repeat (apply Forall_cons; [reflexivity|]); apply Forall_nil|]).
  apply FOP_nil.
Defined.

(** X16: On the board a successful [solve] leaves, [piece_at] shows each shape
    on as many cells as the shape has, the blockers on as many cells as
    were blocked, and the single block on the rest: at most eight cells can
    have been blocked, and with the seven of the game exactly one cell shows
    the single block. *)
Theorem solved_board_shows_every_piece (b : board) (p : piece_id.t) :
  0 <= blockers_ b < 2 ^ 36 -> fst (solve b) = true ->
  (popcount (blockers_ b) <= 8)%nat /\
  List.length (cells_showing (snd (solve b)) p)
  = match p with
    | piece_id.single_block => (8 - popcount (blockers_ b))%nat
    | piece_id.blockers => popcount (blockers_ b)
    | _ => shape_size p
    end.
Proof.
  intros Hb Hs.
  destruct (solve_success_tiling b Hb Hs) as [Ht _].
  pose proof (solve_keeps_blockers b) as Hk.
  revert Ht Hk. generalize (snd (solve b)). clear Hs. intros b' Ht Hk.
  destruct (tiling_facts _ _ Hb Ht) as (Hd & Hall & _ & Hpop).
  destruct (is_tiling_shape_order _ _ Ht)
    as (t1 & t2 & t3 & t4 & t5 & t6 & t7 & t8 & Hc & HI & _).
  destruct HI as (I1 & I2 & I3 & I4 & I5 & I6 & I7 & I8).
  unfold placements in Hc.
  injection Hc as E1 E2 E3 E4 E5 E6 E7 E8.
  assert (S : forall t shape size,
             In (shape, size) (combine shape_order shape_sizes) -> In t shape ->
             0 <= t < 2 ^ 36 /\ popcount t = size)
    by (intros t shape size; apply in_shape_facts).
  assert (F1 := S t1 line4 4%nat ltac:(cbn; tauto) I1).
  assert (F2 := S t2 square2_2 4%nat ltac:(cbn; tauto) I2).
  assert (F3 := S t3 lblock3 4%nat ltac:(cbn; tauto) I3).
  assert (F4 := S t4 zblock 4%nat ltac:(cbn; tauto) I4).
  assert (F5 := S t5 tblock 4%nat ltac:(cbn; tauto) I5).
  assert (F6 := S t6 line3 3%nat ltac:(cbn; tauto) I6).
  assert (F7 := S t7 lblock2 3%nat ltac:(cbn; tauto) I7).
  assert (F8 := S t8 line2 2%nat ltac:(cbn; tauto) I8).
  clear S I1 I2 I3 I4 I5 I6 I7 I8.
  rewrite <- Hk in Hd.
  assert (Hle : (popcount (blockers_ b) <= 8)%nat).
  { pose proof (popcount_complement _ Hall) as C. lia. }
  split; [assumption|].
  assert (N : forall q, q <> piece_id.single_block ->
                        0 <= piece_mask b' q < 2 ^ 36 ->
                        List.length (cells_showing b' q) = popcount (piece_mask b' q))
    by (intros q Hq Hm; now apply cells_showing_count).
  pose proof (cells_showing_partition b') as P.
  rewrite (N piece_id.line2), (N piece_id.line3), (N piece_id.line4),
    (N piece_id.square2_2), (N piece_id.lblock2), (N piece_id.lblock3),
    (N piece_id.zblock), (N piece_id.tblock), (N piece_id.blockers) in P;
    cbn [piece_mask]; try discriminate; try (rewrite ?E1, ?E2, ?E3, ?E4, ?E5, ?E6, ?E7, ?E8, ?Hk; tauto).
  cbn [piece_mask] in P.
  rewrite E1, E2, E3, E4, E5, E6, E7, E8, Hk in P.
  destruct p; cbn [shape_size];
    try (rewrite N; cbn [piece_mask];
         [|discriminate|rewrite ?E1, ?E2, ?E3, ?E4, ?E5, ?E6, ?E7, ?E8, ?Hk; tauto];
         rewrite ?E1, ?E2, ?E3, ?E4, ?E5, ?E6, ?E7, ?E8, ?Hk; tauto).
  lia.
Qed.

Lemma solved_board_shows_every_piece_readme :
  (popcount readme_blockers <= 8)%nat /\
  List.length (cells_showing (snd (solve (board_ctor zero_board readme_blockers)))
                 piece_id.single_block)
  = (8 - popcount readme_blockers)%nat.
Proof.
  apply (solved_board_shows_every_piece (board_ctor zero_board readme_blockers)
           piece_id.single_block).
  - vm_compute. split; [discriminate|reflexivity].
  - vm_compute. reflexivity.
Defined.

(** ** [main] *)

Lemma fold_left_keeps_empty {A : Type} (f : string -> A -> string) (l : list A) :
  (forall x, In x l -> f EmptyString x = EmptyString) ->
  fold_left f l EmptyString = EmptyString.
Proof.
  induction l as [|x l IH]; intros H; simpl; [reflexivity|].
  rewrite H by (now left). apply IH. intros y Hy. apply H. now right.
Qed.

Lemma verify_roll_stderr_solved (storage : board) (blockers : Z) :
  verify_roll storage blockers = true ->
  verify_roll_stderr storage blockers = EmptyString.
Proof. unfold verify_roll, verify_roll_stderr. now intros ->. Qed.

Lemma verify_all_possible_rolls_stderr_empty (storage : board) :
  verify_all_possible_rolls_stderr storage = EmptyString.
Proof.
  pose proof unique_faces_are_faces as F. unfold blocker_dice, unique_dice in F.
  repeat match type of F with
         | Forall2 _ (_ :: _) (_ :: _) =>
             apply Forall2_cons_iff in F; destruct F as [? F]
         end.
  unfold verify_all_possible_rolls_stderr.
  apply fold_left_keeps_empty; intros d0 I0.
  apply fold_left_keeps_empty; intros d1 I1.
  apply fold_left_keeps_empty; intros d2 I2.
  apply fold_left_keeps_empty; intros d3 I3.
  apply fold_left_keeps_empty; intros d4 I4.
  apply fold_left_keeps_empty; intros d5 I5.
  apply fold_left_keeps_empty; intros d6 I6.
  change (Z.lor (Z.lor (Z.lor (Z.lor (Z.lor (Z.lor d0 d1) d2) d3) d4) d5) d6)
    with (dice_roll d0 d1 d2 d3 d4 d5 d6).
  rewrite verify_roll_stderr_solved; [reflexivity|].
  apply verify_roll_of_dice; unfold die; cbn [nth]; auto.
Qed.

(** X17: [gsqsolve --verify-all] returns [EX_OK] and writes nothing, whatever
    the boards of [verify_roll] are built over: no "Couldn't solve board"
    is ever written. *)
Theorem main_verify_all (atoi : string -> Z) (rand : nat -> Z)
  (storage : nat -> board) (program : string) (fuel : nat) :
  main atoi rand storage [program; "--verify-all"%string] fuel
  = Some (mk_outcome EX_OK EmptyString EmptyString).
Proof.
  transitivity
    (Some (mk_outcome
             (if verify_all_possible_rolls (storage 0%nat) then EX_OK else 1)
             EmptyString (verify_all_possible_rolls_stderr (storage 0%nat))));
    [reflexivity|].
  now rewrite verify_all_possible_rolls_true,
    verify_all_possible_rolls_stderr_empty.
Qed.

Lemma random_blockers_list_solved (storage : board) (rands : list Z) :
  List.length rands = 7%nat ->
  fst (solve (board_ctor storage (fst (random_blockers rands)))) = true.
Proof.
  destruct rands as [|r0 [|r1 [|r2 [|r3 [|r4 [|r5 [|r6 [|r7 rest]]]]]]]];
    try discriminate.
  intros _. apply random_blockers_solved.
Qed.

Lemma random_loop_ends (rand : nat -> Z) (storage : nat -> board) (count : Z) :
  count < 2 ^ 32 ->
  forall fuel k i out,
    0 <= i < count -> (Z.to_nat (count - i) <= fuel)%nat ->
    exists boards,
      random_loop rand storage fuel k i count out
      = Some (mk_outcome EX_OK boards EmptyString).
Proof.
  intros Hc. induction fuel as [|fuel IH]; intros k i out Hi Hf; [lia|].
  cbn [random_loop].
  rewrite random_blockers_list_solved
    by (now rewrite length_map, length_seq).
  cbn [negb].
  assert (E : to_unsigned (i + 1) = i + 1)
    by (unfold to_unsigned; apply Z.mod_small; lia).
  rewrite E.
  destruct (Z.leb_spec count (i + 1)) as [L|L]; [eauto|].
  apply IH; lia.
Qed.

Lemma string_append_assoc (a b c : string) :
  ((a ++ b) ++ c = a ++ (b ++ c))%string.
Proof. induction a as [|x a IH]; cbn; [reflexivity|now rewrite IH]. Qed.

Lemma random_board_unfold (rand : nat -> Z) (storage : nat -> board) (k : nat) :
  random_board rand storage k
  = print (snd (solve (board_ctor (storage k)
                         (fst (random_blockers (map rand (seq (7 * k) 7))))))).
Proof. reflexivity. Qed.

Lemma random_loop_spec (rand : nat -> Z) (storage : nat -> board) (count : Z) :
  count < 2 ^ 32 ->
  forall fuel k out,
    Z.of_nat k < count ->
    random_loop rand storage fuel k (Z.of_nat k) count out
    = if (fuel <? Z.to_nat count - k)%nat then None
      else Some (mk_outcome EX_OK
                   (out ++ String.concat newline
                             (map (random_board rand storage)
                                (seq k (Z.to_nat count - k))))
                   EmptyString).
Proof.
  intros Hc. induction fuel as [|fuel IH]; intros k out Hk.
  - cbn [random_loop].
    destruct (Nat.ltb_spec 0 (Z.to_nat count - k)); [reflexivity|lia].
  - cbn [random_loop].
    rewrite random_blockers_list_solved
      by (now rewrite length_map, length_seq).
    cbn [negb].
    assert (E : to_unsigned (Z.of_nat k + 1) = Z.of_nat (S k))
      by (unfold to_unsigned; rewrite Z.mod_small; lia).
    rewrite E. rewrite <- (random_board_unfold rand storage k).
    destruct (Z.leb_spec count (Z.of_nat (S k))) as [L|L].
    + assert (N : (Z.to_nat count - k = 1)%nat) by lia. rewrite N.
      cbn [seq map String.concat Nat.ltb Nat.leb]. reflexivity.
    + rewrite (IH (S k) _ L).
      assert (N : (Z.to_nat count - k = S (Z.to_nat count - S k))%nat) by lia.
      rewrite N.
      change (S fuel <? S (Z.to_nat count - S k))%nat
        with (fuel <? Z.to_nat count - S k)%nat.
      destruct (fuel <? Z.to_nat count - S k)%nat; [reflexivity|].
      destruct (Z.to_nat count - S k)%nat as [|m] eqn:M; [lia|].
      cbn [seq map String.concat].
      now rewrite !string_append_assoc.
Qed.

(** X18: run with [--random], or with [--random] and a count that converts
    to an unsigned that is not 0, [main] takes exactly [count] turns of its
    loop (one without a count): given fewer it has not ended; given that
    many it returns [EX_OK], having written to [stdout] the [count] boards
    with a newline between two of them, each the solved board of that
    turn's dice, and nothing to [stderr], whatever [std::rand()] returns. *)
Theorem main_random_prints_count_boards (atoi : string -> Z) (rand : nat -> Z)
  (storage : nat -> board) (program : string) (rest : list string) (fuel : nat) :
  let count := match rest with
               | [] => 1
               | n :: _ => to_unsigned (atoi n)
               end in
  (List.length rest <= 1)%nat -> count <> 0 ->
  main atoi rand storage (program :: "--random"%string :: rest) fuel
  = if (fuel <? Z.to_nat count)%nat then None
    else Some (mk_outcome EX_OK (random_boards rand storage (Z.to_nat count))
                 EmptyString).
Proof.
  intros count Hl Hc.
  assert (Hu : 0 <= count < 2 ^ 32).
  { destruct rest as [|n rest']; subst count; [vm_compute; split; congruence|].
    unfold to_unsigned. apply Z.mod_pos_bound. reflexivity. }
  assert (E : main atoi rand storage (program :: "--random"%string :: rest) fuel
              = random_loop rand storage fuel 0 0 count EmptyString).
  { destruct rest as [|n [|m rest']]; [| |cbn in Hl; lia].
    - reflexivity.
    - transitivity
        (if count =? 0 then Some (mk_outcome EX_USAGE EmptyString usage)
         else random_loop rand storage fuel 0 0 count EmptyString);
        [reflexivity|].
      destruct (Z.eqb_spec count 0); [contradiction|reflexivity]. }
  rewrite E.
  pose proof (random_loop_spec rand storage count (proj2 Hu) fuel 0%nat
                EmptyString) as R.
  change (Z.of_nat 0) with 0 in R. rewrite R by lia.
  rewrite Nat.sub_0_r. unfold random_boards. cbn [append]. reflexivity.
Qed.

Lemma main_random_prints_count_boards_twice :
  main (fun _ => 2) (fun n => Z.of_nat n) (fun _ => zero_board)
    ["gsqsolve"; "--random"; "2"]%string 2
  = if (2 <? Z.to_nat (to_unsigned 2))%nat then None
    else Some (mk_outcome EX_OK
                 (random_boards (fun n => Z.of_nat n) (fun _ => zero_board)
                    (Z.to_nat (to_unsigned 2)))
                 EmptyString).
Proof.
  apply (main_random_prints_count_boards (fun _ => 2) (fun n => Z.of_nat n)
           (fun _ => zero_board) "gsqsolve"%string ["2"%string] 2%nat).
  - cbn. lia.
  - discriminate.
Defined.

(** *** The seven positions *)

Lemma sbit_id_pow2 (id : string) :
  sbit_id id <> 0 -> exists k, 0 <= k < 36 /\ sbit_id id = 2 ^ k.
Proof.
  intros H. destruct (sbit_id_cell id H) as (row & col & Hr & Hc & E).
  exists (row * 6 + col). split; [lia|]. rewrite E. apply sbit_pow2; lia.
Qed.

Lemma sbit_id_disjoint (a b : string) :
  sbit_id a <> 0 -> sbit_id b <> 0 ->
  Z.land (sbit_id a) (sbit_id b) = 0 <-> sbit_id a <> sbit_id b.
Proof.
  intros Ha Hb.
  destruct (sbit_id_pow2 a Ha) as (k & Hk & ->).
  destruct (sbit_id_pow2 b Hb) as (j & Hj & ->).
  rewrite land_pow2_cases, Z.pow2_bits_eqb by lia.
  assert (0 < 2 ^ j) by (apply Z.pow_pos_nonneg; lia).
  destruct (Z.eqb_spec k j) as [->|N].
  - split; [lia|congruence].
  - split; [|reflexivity]. intros _ E. apply N.
    apply (Z.pow_inj_r 2); lia.
Qed.

Lemma positions_ok_iff (ids : list string) :
  forall acc,
    positions_ok acc ids <->
    Forall (fun id => sbit_id id <> 0) ids /\ NoDup (map sbit_id ids) /\
    Forall (fun id => Z.land acc (sbit_id id) = 0) ids.
Proof.
  induction ids as [|id rest IH]; intros acc; cbn [positions_ok map].
  - split; [intros _|trivial]. repeat split; constructor.
  - rewrite IH, !Forall_cons_iff, NoDup_cons_iff.
    assert (D : Forall (fun x => sbit_id x <> 0) rest -> sbit_id id <> 0 ->
                (Forall (fun x => Z.land (sbit_id id) (sbit_id x) = 0) rest
                 <-> ~ In (sbit_id id) (map sbit_id rest))).
    { intros Hn Hi. rewrite Forall_forall in Hn. rewrite Forall_forall, in_map_iff.
      split.
      - intros H (x & E & Hx). specialize (H x Hx).
        apply sbit_id_disjoint in H; auto.
      - intros H x Hx. apply sbit_id_disjoint; auto.
        intros E. apply H. exists x. auto. }
    assert (L : Forall (fun x => Z.land (Z.lor acc (sbit_id id)) (sbit_id x) = 0) rest
                <-> Forall (fun x => Z.land acc (sbit_id x) = 0) rest /\
                    Forall (fun x => Z.land (sbit_id id) (sbit_id x) = 0) rest).
    { rewrite !Forall_forall. split.
      - intros H. split; intros x Hx; specialize (H x Hx);
          rewrite Z.land_comm in H; apply land_lor_zero in H;
          rewrite Z.land_comm; tauto.
      - intros [H1 H2] x Hx. rewrite Z.land_comm. apply land_lor_zero.
        rewrite !(Z.land_comm (sbit_id x)). auto. }
    rewrite L. split.
    + intros (Hi & Ha & Hn & Hd & Hacc & Hid). apply D in Hid; tauto.
    + intros ((Hi & Hn) & (Hid & Hd) & Ha & Hacc). apply D in Hid; tauto.
Qed.

Lemma parse_position_spec (blockers : Z) (ok : bool) (err id : string) :
  let r := parse_position (blockers, ok, err) id in
  fst (fst r) = Z.lor blockers (sbit_id id) /\
  (snd (fst r) = true <->
   ok = true /\ sbit_id id <> 0 /\ Z.land blockers (sbit_id id) = 0) /\
  (snd (fst r) = true -> snd r = err).
Proof.
  unfold parse_position.
  destruct (Z.eqb_spec (sbit_id id) 0) as [E|E];
    destruct (Z.eqb_spec (Z.land blockers (sbit_id id)) 0) as [F|F];
    cbv zeta; cbn [negb fst snd]; (split; [reflexivity|]);
    intuition (try congruence; try discriminate).
Qed.

Lemma parse_positions_spec (ids : list string) :
  forall (blockers : Z) (ok : bool) (err : string),
    let r := fold_left parse_position ids (blockers, ok, err) in
    fst (fst r) = fold_left Z.lor (map sbit_id ids) blockers /\
    (snd (fst r) = true <-> ok = true /\ positions_ok blockers ids) /\
    (snd (fst r) = true -> snd r = err).
Proof.
  induction ids as [|id rest IH]; intros blockers ok err;
    cbn [fold_left map positions_ok].
  - cbn [fst snd]. tauto.
  - pose proof (parse_position_spec blockers ok err id) as P. cbv zeta in P.
    revert P.
    destruct (parse_position (blockers, ok, err) id) as [[b1 ok1] err1].
    unfold board_bitmask_t in *.
    intros P. cbn [fst snd] in P. destruct P as (-> & Pok & Perr).
    specialize (IH (Z.lor blockers (sbit_id id)) ok1 err1). cbv zeta in IH.
    destruct IH as (IH1 & IH2 & IH3).
    split; [assumption|]. split.
    + rewrite IH2, Pok. tauto.
    + intros H. rewrite (IH3 H). apply Perr. apply IH2 in H. tauto.
Qed.

Lemma positions_popcount (ids : list string) :
  forall acc,
    0 <= acc < 2 ^ 36 -> positions_ok acc ids ->
    0 <= fold_left Z.lor (map sbit_id ids) acc < 2 ^ 36 /\
    popcount (fold_left Z.lor (map sbit_id ids) acc)
    = (popcount acc + List.length ids)%nat.
Proof.
  induction ids as [|id rest IH]; intros acc Ha H;
    cbn [positions_ok fold_left map List.length] in *.
  - split; [assumption|lia].
  - destruct H as (Hn & Hd & Hr).
    destruct (sbit_id_pow2 id Hn) as (k & Hk & E).
    assert (Hb : 0 <= sbit_id id < 2 ^ 36).
    { rewrite E. split; [apply Z.pow_nonneg; lia|].
      apply Z.pow_lt_mono_r; lia. }
    destruct (IH (Z.lor acc (sbit_id id))) as [I1 I2];
      [apply lor_bounded; lia|assumption|].
    split; [assumption|]. rewrite I2, popcount_lor by lia.
    rewrite E at 1. rewrite popcount_pow2 by lia. lia.
Qed.

Lemma seven_positions (ids : list string) :
  List.length ids = 7%nat ->
  Forall (fun id => sbit_id id <> 0) ids -> NoDup (map sbit_id ids) ->
  positions_ok 0 ids /\
  0 <= blockers_of ids < 2 ^ 36 /\ popcount (blockers_of ids) = 7%nat.
Proof.
  intros L Hn Hd.
  assert (P : positions_ok 0 ids).
  { apply positions_ok_iff. split; [assumption|]. split; [assumption|].
    apply Forall_forall. intros id _. apply Z.land_0_l. }
  split; [assumption|].
  destruct (positions_popcount ids 0 ltac:(lia) P) as [B C].
  split; [exact B|]. unfold blockers_of. rewrite C, L. reflexivity.
Qed.

Lemma main_positions (atoi : string -> Z) (rand : nat -> Z)
  (storage : nat -> board) (program : string) (ids : list string) (fuel : nat) :
  List.length ids = 7%nat ->
  main atoi rand storage (program :: ids) fuel
  = let '(blockers, parsed_ok, err) :=
      fold_left parse_position ids (0, true, EmptyString) in
    if negb parsed_ok then Some (mk_outcome EX_USAGE EmptyString (err ++ usage))
    else
      let err :=
        if negb (blockers_are_valid_roll blockers)
        then (err ++ "Warning: given board is not a valid dice roll" ++ newline)%string
        else err in
      let r := solve (board_ctor (storage 0%nat) blockers) in
      if negb (fst r)
      then Some (mk_outcome 1 ("No solution." ++ newline) err)
      else Some (mk_outcome EX_OK (print (snd r)) err).
Proof.
  destruct ids as [|a1 [|a2 [|a3 [|a4 [|a5 [|a6 [|a7 [|a8 rest]]]]]]]];
    try discriminate.
  intros _. reflexivity.
Qed.

(** X19: The positions of the command line are checked: [main] goes on to
    [solve] exactly when each of the seven names a cell and no two name the
    same cell, and then the board it builds has exactly seven blockers, so
    that the assertions of [solve] hold on it; otherwise it returns
    [EX_USAGE] and writes nothing to [stdout]. *)
Theorem main_checks_positions (atoi : string -> Z) (rand : nat -> Z)
  (storage : nat -> board) (program : string) (ids : list string) (fuel : nat) :
  List.length ids = 7%nat ->
  exists o,
    main atoi rand storage (program :: ids) fuel = Some o /\
    if exit_code o =? EX_USAGE
    then written o = EmptyString /\
         ~ (Forall (fun id => sbit_id id <> 0) ids /\ NoDup (map sbit_id ids))
    else Forall (fun id => sbit_id id <> 0) ids /\ NoDup (map sbit_id ids) /\
         popcount (blockers_of ids) = 7%nat /\
         solve_asserting (board_ctor (storage 0%nat) (blockers_of ids))
         = Some (solve (board_ctor (storage 0%nat) (blockers_of ids))).
Proof.
  intros L. rewrite (main_positions atoi rand storage program ids fuel L).
  pose proof (parse_positions_spec ids 0 true EmptyString) as P. cbv zeta in P.
  revert P.
  destruct (fold_left parse_position ids (0, true, EmptyString))
    as [[blockers parsed_ok] err].
  unfold board_bitmask_t in *.
  intros P. cbn [fst snd] in P. destruct P as (Pb & Pok & _).
  assert (Q : positions_ok 0 ids <->
              Forall (fun id => sbit_id id <> 0) ids /\ NoDup (map sbit_id ids)).
  { rewrite positions_ok_iff. split; [tauto|]. intros [H1 H2].
    split; [assumption|]. split; [assumption|].
    apply Forall_forall. intros id _. apply Z.land_0_l. }
  destruct parsed_ok; cbn [negb].
  - assert (Hp : positions_ok 0 ids) by (now apply (proj1 Pok eq_refl)).
    apply Q in Hp. destruct Hp as [Hn Hd].
    destruct (seven_positions ids L Hn Hd) as (_ & Hb & H7).
    assert (R : forall c out e,
               (c = 0 \/ c = 1) ->
               exists o, Some (mk_outcome c out e) = Some o /\
                 if exit_code o =? EX_USAGE
                 then written o = EmptyString /\
                      ~ (Forall (fun id => sbit_id id <> 0) ids /\
                         NoDup (map sbit_id ids))
                 else Forall (fun id => sbit_id id <> 0) ids /\
                      NoDup (map sbit_id ids) /\
                      popcount (blockers_of ids) = 7%nat /\
                      solve_asserting (board_ctor (storage 0%nat) (blockers_of ids))
                      = Some (solve (board_ctor (storage 0%nat) (blockers_of ids)))).
    { intros c out e Hc. eexists. split; [reflexivity|]. cbn [exit_code].
      assert ((c =? EX_USAGE) = false) as -> by (destruct Hc; subst; reflexivity).
      repeat split; try assumption.
      apply solve_asserting_seven_blockers; assumption. }
    cbv zeta.
    destruct (negb (fst (solve (board_ctor (storage 0%nat) blockers))));
      apply R; [now right|now left].
  - eexists. split; [reflexivity|]. cbn [exit_code written].
    change (EX_USAGE =? EX_USAGE) with true. cbv iota.
    split; [reflexivity|]. intros H. apply Q in H.
    assert (false = true) by (apply (proj2 Pok); tauto). discriminate.
Qed.

Lemma main_checks_positions_readme :
  exists o,
    main (fun _ => 0) (fun _ => 0) (fun _ => zero_board)
      ["gsqsolve"; "C4"; "B1"; "E5"; "A6"; "D2"; "C5"; "A5"]%string 0 = Some o /\
    if exit_code o =? EX_USAGE
    then written o = EmptyString /\
         ~ (Forall (fun id => sbit_id id <> 0)
              ["C4"; "B1"; "E5"; "A6"; "D2"; "C5"; "A5"]%string /\
            NoDup (map sbit_id ["C4"; "B1"; "E5"; "A6"; "D2"; "C5"; "A5"]%string))
    else Forall (fun id => sbit_id id <> 0)
           ["C4"; "B1"; "E5"; "A6"; "D2"; "C5"; "A5"]%string /\
         NoDup (map sbit_id ["C4"; "B1"; "E5"; "A6"; "D2"; "C5"; "A5"]%string) /\
         popcount (blockers_of ["C4"; "B1"; "E5"; "A6"; "D2"; "C5"; "A5"]%string)
         = 7%nat /\
         solve_asserting
           (board_ctor zero_board
              (blockers_of ["C4"; "B1"; "E5"; "A6"; "D2"; "C5"; "A5"]%string))
         = Some (solve
                   (board_ctor zero_board
                      (blockers_of ["C4"; "B1"; "E5"; "A6"; "D2"; "C5"; "A5"]%string))).
Proof.
  apply (main_checks_positions (fun _ => 0) (fun _ => 0) (fun _ => zero_board)
           "gsqsolve"%string ["C4"; "B1"; "E5"; "A6"; "D2"; "C5"; "A5"]%string 0%nat).
  reflexivity.
Defined.

(** X20: Given seven positions that name seven different cells and pass
    [blockers_are_valid_roll], [main] prints the solved board, writes
    nothing to [stderr] and returns [EX_OK]: "No solution." cannot follow
    a valid roll, as [main] asserts. *)
Theorem main_solves_valid_rolls (atoi : string -> Z) (rand : nat -> Z)
  (storage : nat -> board) (program : string) (ids : list string) (fuel : nat) :
  List.length ids = 7%nat ->
  Forall (fun id => sbit_id id <> 0) ids -> NoDup (map sbit_id ids) ->
  blockers_are_valid_roll (blockers_of ids) = true ->
  main atoi rand storage (program :: ids) fuel
  = Some (mk_outcome EX_OK
            (print (snd (solve (board_ctor (storage 0%nat) (blockers_of ids)))))
            EmptyString).
Proof.
  intros L Hn Hd Hv.
  rewrite (main_positions atoi rand storage program ids fuel L).
  destruct (seven_positions ids L Hn Hd) as (Hp & Hb & H7).
  pose proof (parse_positions_spec ids 0 true EmptyString) as P. cbv zeta in P.
  revert P.
  destruct (fold_left parse_position ids (0, true, EmptyString))
    as [[blockers parsed_ok] err].
  unfold board_bitmask_t in *.
  intros P. cbn [fst snd] in P. destruct P as (Pb & Pok & Perr).
  change (blockers = blockers_of ids) in Pb. subst blockers.
  assert (parsed_ok = true) as -> by (apply (proj2 Pok); tauto).
  rewrite (Perr eq_refl), Hv. cbn [negb]. cbv zeta.
  destruct (valid_roll_has_seven_cells_aux _ (proj1 Hb) Hv H7)
    as (d0 & d1 & d2 & d3 & d4 & d5 & d6 & HI & E).
  destruct HI as (I0 & I1 & I2 & I3 & I4 & I5 & I6).
  pose proof (verify_roll_of_dice (storage 0%nat) _ _ _ _ _ _ _
                I0 I1 I2 I3 I4 I5 I6) as S.
  unfold verify_roll in S. rewrite <- E in S. rewrite S. reflexivity.
Qed.

Lemma main_solves_valid_rolls_readme :
  main (fun _ => 0) (fun _ => 0) (fun _ => zero_board)
    ["gsqsolve"; "C4"; "B1"; "E5"; "A6"; "D2"; "C5"; "A5"]%string 0
  = Some (mk_outcome EX_OK
            (print (snd (solve
               (board_ctor zero_board
                  (blockers_of ["C4"; "B1"; "E5"; "A6"; "D2"; "C5"; "A5"]%string)))))
            EmptyString).
Proof.
  apply (main_solves_valid_rolls (fun _ => 0) (fun _ => 0) (fun _ => zero_board)
           "gsqsolve"%string ["C4"; "B1"; "E5"; "A6"; "D2"; "C5"; "A5"]%string 0%nat).
  - reflexivity.
  - repeat (apply Forall_cons; [vm_compute; discriminate|]). apply Forall_nil.
  - apply nodupb_spec. vm_compute. reflexivity.
  - vm_compute. reflexivity.
Defined.

Lemma valid_positions_solved (storage : board) (ids : list string) :
  List.length ids = 7%nat ->
  Forall (fun id => sbit_id id <> 0) ids -> NoDup (map sbit_id ids) ->
  blockers_are_valid_roll (blockers_of ids) = true ->
  fst (solve (board_ctor storage (blockers_of ids))) = true.
Proof.
  intros L Hn Hd Hv.
  destruct (seven_positions ids L Hn Hd) as (_ & Hb & H7).
  destruct (valid_roll_has_seven_cells_aux _ (proj1 Hb) Hv H7)
    as (d0 & d1 & d2 & d3 & d4 & d5 & d6 & HI & E).
  destruct HI as (I0 & I1 & I2 & I3 & I4 & I5 & I6).
  rewrite E. apply (verify_roll_of_dice storage); assumption.
Qed.

(** X21: Whatever its arguments, [main] returns, and with [EX_OK], [EX_USAGE]
    or 1: never with [EX_SOFTWARE].  It returns 1 only for seven positions
    that it has warned are not a valid dice roll. *)
Theorem main_exit_codes (atoi : string -> Z) (rand : nat -> Z)
  (storage : nat -> board) (argv : list string) :
  exists fuel o,
    main atoi rand storage argv fuel = Some o /\
    (exit_code o = EX_OK \/ exit_code o = EX_USAGE \/
     (exit_code o = 1 /\ List.length argv = 8%nat /\
      blockers_are_valid_roll (blockers_of (tl argv)) = false)).
Proof.
  destruct (Nat.eq_dec (List.length argv) 8) as [L|L].
  - destruct argv as [|program ids]; [discriminate|].
    injection L as L. cbn [tl]. exists 0%nat.
    rewrite (main_positions atoi rand storage program ids 0 L).
    pose proof (parse_positions_spec ids 0 true EmptyString) as P. cbv zeta in P.
    revert P.
    destruct (fold_left parse_position ids (0, true, EmptyString))
      as [[blockers parsed_ok] err].
    unfold board_bitmask_t in *.
    intros P. cbn [fst snd] in P. destruct P as (Pb & Pok & _).
    change (blockers = blockers_of ids) in Pb. subst blockers.
    destruct parsed_ok; cbn [negb];
      [|eexists; split; [reflexivity|]; right; left; reflexivity].
    destruct (proj1 Pok eq_refl) as [_ Hp].
    apply positions_ok_iff in Hp. destruct Hp as (Hn & Hd & _).
    cbv zeta.
    destruct (blockers_are_valid_roll (blockers_of ids)) eqn:V.
    + rewrite (valid_positions_solved (storage 0%nat) ids L Hn Hd V).
      eexists. split; [reflexivity|]. left. reflexivity.
    + destruct (fst (solve (board_ctor (storage 0%nat) (blockers_of ids))));
        eexists; (split; [reflexivity|]); cbn [negb exit_code]; [now left|].
      right. right. cbn [List.length]. auto.
  - unfold main. cbv zeta.
    set (argn := Z.of_nat (List.length argv)).
    assert (E8 : (argn =? 8) = false) by (apply Z.eqb_neq; subst argn; lia).
    destruct ((argn =? 2) && (nth 1 argv EmptyString =? "--help")%string);
      [exists 0%nat; eexists; split; [reflexivity|now left]|].
    destruct ((argn =? 2) && (nth 1 argv EmptyString =? "--verify-all")%string).
    { exists 0%nat. eexists. split; [reflexivity|]. cbn [exit_code].
      rewrite verify_all_possible_rolls_true. now left. }
    destruct ((2 <=? argn) && (argn <=? 3)
              && (nth 1 argv EmptyString =? "--random")%string).
    { set (count := if argn =? 2 then 1
                    else to_unsigned (atoi (nth 2 argv EmptyString))).
      assert (Hc : 0 <= count < 2 ^ 32).
      { subst count. destruct (argn =? 2); [vm_compute; split; congruence|].
        unfold to_unsigned. apply Z.mod_pos_bound. reflexivity. }
      destruct (Z.eqb_spec count 0) as [Z|N].
      - exists 0%nat. eexists. split; [reflexivity|]. right. now left.
      - destruct (random_loop_ends rand storage count (proj2 Hc)
                    (Z.to_nat count) 0%nat 0 EmptyString) as [boards R];
          [lia|lia|].
        exists (Z.to_nat count). eexists. split; [exact R|now left]. }
    rewrite E8. cbn [negb].
    exists 0%nat. eexists. split; [reflexivity|]. right. now left.
Qed.
